(** * tengu-transcriber: alignment, persistence, indexing and search

    A shallow embedding of the core of the repository:
    - [batch_processor.py]: [format_timestamp], the speaker alignment
      inside [transcribe_audio_with_whisper] and the function as a whole,
      [process_video], the loop of [main], [get_file_size],
      [load_whisper_model];
    - [transcript_formatter.py]: [TranscriptFormatter.format_txt],
      [format_md], [format_enhanced_txt], [format_enhanced_md];
    - [llm_processor.py]: [LLMProcessor.__init__], [_initialize_client],
      [process], [_build_prompt], [get_templates];
    - [search_engine.py]: [index_transcripts], [_parse_transcript],
      [keyword_search], [_highlight_text], [semantic_search],
      [_embedding_search], [_llm_search], [_find_relevant_segments],
      [ask_question];
    - [model_config.py]: [ModelConfig.clear_cache];
    - [verify_model.py]: [check_model_exists].

    Conventions of the embedding.
    - A Python [str] is a [string]; a character stands for a code point
      below 256, which covers every literal of the sources.
    - A Python [float] holding a time or a score is a rational [Q]: the
      finite floats are rationals, the comparisons used by the code are
      the order of [Q], and [//] and [%] by a positive constant are exact
      on them.  NaN and the infinities are outside the model.
    - An exception is a value [Raised msg]; [try]/[except] is
      [try_except].  Mutable accumulators ([segments_with_speakers],
      counters, the console) are threaded as explicit state. *)

From Stdlib Require Import List String Ascii Bool Arith ZArith QArith Qround
  Lia DecimalString Sorted.
Import ListNotations.

Local Close Scope Q_scope.
Local Open Scope list_scope.
Local Open Scope string_scope.

(* ================================================================== *)
(** * Python strings *)
(* ================================================================== *)

Module PyStr.

Definition nl : ascii := ascii_of_nat 10.
Definition dquote : ascii := ascii_of_nat 34.

(** [str.isspace] on code points below 256: TAB..CR, FS..US, SPACE,
    NEL and NBSP. *)
Definition is_space (c : ascii) : bool :=
  let n := nat_of_ascii c in
  (((9 <=? n) && (n <=? 13)) || ((28 <=? n) && (n <=? 32))
   || (n =? 133) || (n =? 160))%nat.

(** The class [\d] of [re] on code points below 256. *)
Definition is_digit (c : ascii) : bool :=
  let n := nat_of_ascii c in ((48 <=? n) && (n <=? 57))%nat.

Fixpoint lstrip (s : string) : string :=
  match s with
  | EmptyString => EmptyString
  | String c s' => if is_space c then lstrip s' else s
  end.

Fixpoint rstrip (s : string) : string :=
  match s with
  | EmptyString => EmptyString
  | String c s' =>
      match rstrip s' with
      | EmptyString => if is_space c then EmptyString
                       else String c EmptyString
      | r => String c r
      end
  end.

(** [s.strip()] *)
Definition strip (s : string) : string := lstrip (rstrip s).

Definition is_empty (s : string) : bool :=
  match s with EmptyString => true | _ => false end.

(** [s.startswith(p)] *)
Definition startswith (s p : string) : bool := String.prefix p s.

(** [needle in hay] *)
Fixpoint contains (needle hay : string) : bool :=
  match hay with
  | EmptyString => String.prefix needle EmptyString
  | String _ hay' => String.prefix needle hay || contains needle hay'
  end.

(** [str.lower] on code points below 256: A-Z and the accented
    capitals 192..222 except the multiplication sign 215. *)
Definition lower_char (c : ascii) : ascii :=
  let n := nat_of_ascii c in
  if (((65 <=? n) && (n <=? 90))
      || ((192 <=? n) && (n <=? 222) && negb (n =? 215)))%nat
  then ascii_of_nat (n + 32) else c.

(** On strings of code points below 256, the strings of this
    development, [str.lower] works character by character and keeps the
    length.  Beyond them it does not (the capital sigma at the end of a
    word, U+0130); such strings are outside the model. *)
Fixpoint lower (s : string) : string :=
  match s with
  | EmptyString => EmptyString
  | String c s' => String (lower_char c) (lower s')
  end.

(** [s.split(c)] for a one-character separator: never empty. *)
Fixpoint split (c : ascii) (s : string) : list string :=
  match s with
  | EmptyString => [EmptyString]
  | String a s' =>
      let r := split c s' in
      if Ascii.eqb a c then EmptyString :: r
      else match r with
           | h :: t => String a h :: t
           | [] => [String a EmptyString]
           end
  end.

(** [sep.join(parts)] *)
Definition join (sep : string) (parts : list string) : string :=
  String.concat sep parts.

(** [s.split(c, 1)[1]]: what follows the first [c]; [None] stands for
    the [IndexError] when [c] does not occur. *)
Fixpoint after_first (c : ascii) (s : string) : option string :=
  match s with
  | EmptyString => None
  | String a s' => if Ascii.eqb a c then Some s' else after_first c s'
  end.

Fixpoint drop (n : nat) (s : string) : string :=
  match n, s with
  | O, _ => s
  | S _, EmptyString => EmptyString
  | S k, String _ s' => drop k s'
  end.

(** [s[:n]] for [n >= 0] *)
Fixpoint take (n : nat) (s : string) : string :=
  match n, s with
  | O, _ => EmptyString
  | S _, EmptyString => EmptyString
  | S k, String a s' => String a (take k s')
  end.

(** [s.split(m)[-1]] for a marker [m] no proper suffix of which is a
    prefix of it (so occurrences cannot overlap): the text after the
    last occurrence of [m], [None] when [m] does not occur (Python then
    gives back [s] itself). *)
Fixpoint after_last (m s : string) : option string :=
  match s with
  | EmptyString => None
  | String _ s' =>
      match after_last m s' with
      | Some r => Some r
      | None => if String.prefix m s then Some (drop (String.length m) s)
                else None
      end
  end.

(** Longest prefix of [s] made of characters satisfying [p], and the
    rest: how a greedy [[class]+] of [re] consumes its input when the
    piece that follows cannot start with a character of the class. *)
Fixpoint span (p : ascii -> bool) (s : string) : string * string :=
  match s with
  | EmptyString => (EmptyString, EmptyString)
  | String a s' =>
      if p a then let (u, v) := span p s' in (String a u, v)
      else (EmptyString, s)
  end.

(** Consume the literal [lit] at the start of [s]. *)
Fixpoint expect (lit s : string) : option string :=
  match lit, s with
  | EmptyString, _ => Some s
  | String a lit', String b s' =>
      if Ascii.eqb a b then expect lit' s' else None
  | String _ _, EmptyString => None
  end.

Fixpoint all_chars (p : ascii -> bool) (s : string) : bool :=
  match s with
  | EmptyString => true
  | String a s' => p a && all_chars p s'
  end.

(** [c * n] *)
Fixpoint repeat_char (c : ascii) (n : nat) : string :=
  match n with
  | O => EmptyString
  | S k => String c (repeat_char c k)
  end.

(** [str(z)] and [f"{z:02d}"] for an [int]. *)
Definition str_of_int (z : Z) : string :=
  NilZero.string_of_int (Z.to_int z).

Definition pad2 (z : Z) : string :=
  let s := str_of_int z in
  if (String.length s <? 2)%nat then String "0"%char s else s.

End PyStr.

(* ================================================================== *)
(** * Python floats as rationals *)
(* ================================================================== *)

Module PyNum.

(** [a // b] on floats, [b > 0] *)
Definition floordiv (a b : Q) : Q := inject_Z (Qfloor (a / b)%Q).

(** [a % b] on floats, [b > 0] *)
Definition pymod (a b : Q) : Q := (a - b * floordiv a b)%Q.

(** [int(x)]: truncation toward zero *)
Definition int (x : Q) : Z :=
  if Qle_bool 0%Q x then Qfloor x else Qceiling x.

End PyNum.

(* ================================================================== *)
(** * Exceptions and mutable state *)
(* ================================================================== *)

Inductive outcome (A : Type) : Type :=
| Returned (a : A)
| Raised (msg : string).
Arguments Returned {A} a.
Arguments Raised {A} msg.

Module Eff.

(** A computation over a mutable state [S] that returns or raises; the
    state reached when the exception is raised is kept, as in Python. *)
Definition M (S A : Type) : Type := S -> outcome A * S.

Definition ret {S A} (a : A) : M S A := fun s => (Returned a, s).

Definition bind {S A B} (m : M S A) (k : A -> M S B) : M S B :=
  fun s => match m s with
           | (Returned a, s') => k a s'
           | (Raised e, s') => (Raised e, s')
           end.

Definition lift {S A} (o : outcome A) : M S A := fun s => (o, s).

Definition modify {S} (f : S -> S) : M S unit :=
  fun s => (Returned tt, f s).

(** [try: body  except Exception as e: handler e] *)
Definition try_except {S A} (body : M S A) (handler : string -> M S A)
  : M S A :=
  fun s => match body s with
           | (Returned a, s') => (Returned a, s')
           | (Raised e, s') => handler e s'
           end.

(** [for x in l: f x] *)
Fixpoint for_each {S X} (l : list X) (f : X -> M S unit) : M S unit :=
  match l with
  | [] => ret tt
  | x :: l' => bind (f x) (fun _ => for_each l' f)
  end.

End Eff.

Declare Scope eff_scope.
Delimit Scope eff_scope with eff.
Notation "x <- m ;; k" := (Eff.bind m (fun x => k))
  (at level 61, m at next level, right associativity) : eff_scope.
Notation "m ;;; k" := (Eff.bind m (fun _ => k))
  (at level 61, right associativity) : eff_scope.

(* ================================================================== *)
(** * batch_processor.py: timestamps and speaker alignment *)
(* ================================================================== *)

Module Aligner.
Import PyStr PyNum.

(** A segment of [result['segments']] *)
Record RawSegment := mkRaw {
  raw_start : Q;
  raw_end : Q;
  raw_text : string
}.

(** An item of [diarization.itertracks(yield_label=True)] *)
Record DiarizationTurn := mkTurn {
  turn_start : Q;
  turn_end : Q;
  turn_speaker : string
}.

(** The dictionaries appended to [segments_with_speakers] *)
Record AlignedSegment := mkAligned {
  start : string;
  end_ : string;
  speaker : string;
  text : string
}.

Definition format_timestamp (seconds : Q) : string :=
  let hours := int (floordiv seconds 3600%Q) in
  let minutes := int (floordiv (pymod seconds 3600%Q) 60%Q) in
  let secs := int (pymod seconds 60%Q) in
  pad2 hours ++ ":" ++ pad2 minutes ++ ":" ++ pad2 secs.

(** The inner loop over [result['segments']]: the value of
    [segment_text] when it ends. *)
Definition segment_text (segments : list RawSegment)
    (segment_start segment_end : Q) : string :=
  fold_left
    (fun acc whisper_segment =>
       if Qle_bool segment_start (raw_start whisper_segment)
          && Qle_bool (raw_end whisper_segment) segment_end
       then acc ++ raw_text whisper_segment ++ " "
       else acc)
    segments EmptyString.

Definition append_segment (a : AlignedSegment)
  : Eff.M (list AlignedSegment) unit :=
  Eff.modify (fun acc => (acc ++ [a])%list).

(** Body of the loop over the diarization turns *)
Definition diarized_step (segments : list RawSegment)
    (t : DiarizationTurn) : Eff.M (list AlignedSegment) unit :=
  let txt := segment_text segments (turn_start t) (turn_end t) in
  if is_empty (strip txt) then Eff.ret tt
  else append_segment
         (mkAligned (format_timestamp (turn_start t))
                    (format_timestamp (turn_end t))
                    (turn_speaker t)
                    (strip txt)).

(** Body of the two fallback loops *)
Definition fallback_segment (segment : RawSegment) : AlignedSegment :=
  mkAligned (format_timestamp (raw_start segment))
            (format_timestamp (raw_end segment))
            "SPEAKER_00"
            (strip (raw_text segment)).

Definition fallback_loop (segments : list RawSegment)
  : Eff.M (list AlignedSegment) unit :=
  Eff.for_each segments (fun s => append_segment (fallback_segment s)).

(** The alignment of [transcribe_audio_with_whisper], from
    [segments_with_speakers = []] to the end of the [if]/[else].
    [diarization_pipeline] is [None] when the pipeline failed to load;
    otherwise it holds what calling it on this audio does: raise, or
    return the annotation, an object in memory whose turns [itertracks]
    then yields in order. *)
Definition align (segments : list RawSegment)
    (diarization_pipeline : option (outcome (list DiarizationTurn)))
  : Eff.M (list AlignedSegment) unit :=
  match diarization_pipeline with
  | Some run =>
      Eff.try_except
        (diarization <- Eff.lift run ;;
         Eff.for_each diarization (diarized_step segments))%eff
        (fun _ => fallback_loop segments)
  | None => fallback_loop segments
  end.

(** Outcome of the alignment and final [segments_with_speakers] *)
Definition segments_with_speakers (segments : list RawSegment)
    (diarization_pipeline : option (outcome (list DiarizationTurn)))
  : outcome unit * list AlignedSegment :=
  align segments diarization_pipeline [].

(** In the words of the specification: the texts of the raw segments
    fully contained in the turn, in order, joined by single spaces. *)
Definition contained (segments : list RawSegment) (ts te : Q)
  : list RawSegment :=
  filter (fun w => Qle_bool ts (raw_start w) && Qle_bool (raw_end w) te)
         segments.

Definition space_joined (segments : list RawSegment) (ts te : Q)
  : string :=
  join " " (map raw_text (contained segments ts te)).

(** What one turn contributes: nothing when the joined text is blank,
    else one segment with the turn's bounds and speaker and the joined
    text without the white space around it. *)
Definition turn_segment (segments : list RawSegment) (t : DiarizationTurn)
  : list AlignedSegment :=
  let txt := strip (space_joined segments (turn_start t) (turn_end t)) in
  if is_empty txt then []
  else [mkAligned (format_timestamp (turn_start t))
                  (format_timestamp (turn_end t))
                  (turn_speaker t) txt].

End Aligner.


(* ================================================================== *)
(** * transcript_formatter.py *)
(* ================================================================== *)

Module TranscriptFormatter.
Import PyStr Aligner.

Definition newline : string := String nl EmptyString.

(** ["=" * 80] *)
Definition rule : string := repeat_char "="%char 80.

(** One line of the speaker block:
    [f"[{start} -> {end}] {speaker}: {text}"] *)
Definition segment_line (segment : AlignedSegment) : string :=
  "[" ++ start segment ++ " -> " ++ end_ segment ++ "] "
  ++ speaker segment ++ ": " ++ text segment.

Definition header (language duration : string) : list string :=
  [ "Detected Language: " ++ language;
    "Total Duration: " ++ duration;
    EmptyString;
    "TRANSCRIPT WITH SPEAKERS:";
    rule;
    EmptyString ].

Definition footer (full_text : string) : list string :=
  [ EmptyString; rule; "FULL TRANSCRIPT:"; rule; EmptyString; full_text ].

Definition format_txt (video_filename language duration : string)
    (segments : list AlignedSegment) (full_text : string) : string :=
  join newline
    (header language duration ++ map segment_line segments
     ++ footer full_text)%list.

Definition format_enhanced_txt (video_filename provider template
    enhanced_text : string) : string :=
  join newline
    [ "LLM Provider: " ++ provider;
      "Template: " ++ template;
      rule;
      EmptyString;
      enhanced_text ].

(** [generated] is [datetime.now().strftime('%Y-%m-%d %H:%M:%S')]. *)
Definition format_enhanced_md (generated video_filename provider template
    enhanced_text : string) : string :=
  join newline
    [ "# Enhanced Transcript: " ++ video_filename;
      EmptyString;
      "**LLM Provider:** " ++ provider ++ "  ";
      "**Template:** " ++ template ++ "  ";
      "**Generated:** " ++ generated;
      EmptyString;
      "---";
      EmptyString;
      enhanced_text ].

End TranscriptFormatter.

(* ================================================================== *)
(** * The world outside the program *)
(* ================================================================== *)

(** What the program does to its surroundings, in order. *)
Inductive Event : Type :=
| Print (msg : string)
| Convert (video_path output_folder bitrate : string)
| Transcribe (audio_path output_folder output_format : string)
| FileSize (path : string)
| ReadFile (path : string)
| WriteFile (path content : string)
| Generate (provider prompt : string).

(** A numpy vector *)
Definition Vec : Type := list Q.

(** How the surroundings answer, given everything done so far: the file
    system, moviepy, Whisper with its diarization, the client library of
    the language-model provider, the clock, the sentence-embedding model
    and numpy's cosine formula
    [np.dot(a, b) / (np.linalg.norm(a) * np.linalg.norm(b))].
    [env_encode] is the vector that [embedding_model.encode] returns:
    the searches are described for the runs in which it returns; that
    it may raise is modelled where indexing deals with it
    ([Indexer.encode]). *)
Record Env : Type := mkEnv {
  env_exists : list Event -> string -> bool;
  env_convert : list Event -> string -> string -> string -> outcome string;
  env_transcribe :
    list Event -> string -> string -> string
    -> outcome (string * string * string);
  env_file_size : list Event -> string -> outcome string;
  env_read : list Event -> string -> outcome string;
  env_write : list Event -> string -> string -> outcome unit;
  env_generate : list Event -> string -> string -> outcome (option string);
  env_now : list Event -> string;
  env_encode : string -> Vec;
  env_cosine : Vec -> Vec -> Q
}.

Module IO.

Definition M (A : Type) : Type := Eff.M (list Event) A.

(** Perform [ev] and obtain the answer [ans] computed from the history. *)
Definition perform {A} (ev : Event) (ans : list Event -> outcome A) : M A :=
  fun history => (ans history, (history ++ [ev])%list).

Definition print (msg : string) : M unit :=
  perform (Print msg) (fun _ => Returned tt).

(** [os.path.exists] only looks. *)
Definition path_exists (env : Env) (path : string) : M bool :=
  fun history => (Returned (env_exists env history path), history).

(** [datetime.now()] only looks, too. *)
Definition now (env : Env) : M string :=
  fun history => (Returned (env_now env history), history).

(** [m] never raises. *)
Definition total {A} (m : M A) : Prop :=
  forall history, exists a, fst (m history) = Returned a.

(** What [m] adds to the history. *)
Definition appends {A} (m : M A) : Prop :=
  forall history, exists added, snd (m history) = (history ++ added)%list.

End IO.

(* ================================================================== *)
(** * llm_processor.py *)
(* ================================================================== *)

Module LLM.
Import PyStr.

Record LLMProcessor := mkLLM {
  provider : string;
  api_key : option string;
  model : option string;
  (** set by the callers after construction *)
  template : string
}.

Definition lines (l : list string) : string :=
  join (String nl EmptyString) l.

Definition template_clean (transcript : string) : string :=
  lines [ "Clean up and correct this transcript. Fix grammar, punctuation, and formatting errors while preserving the original meaning and language.";
          EmptyString;
          "Transcript:";
          transcript;
          EmptyString;
          "Provide only the cleaned transcript without any additional commentary." ].

Definition template_summary (transcript : string) : string :=
  lines [ "Create a concise summary of this transcript. Include:";
          "- Main topics discussed";
          "- Key points and decisions";
          "- Action items (if any)";
          EmptyString;
          "Transcript:";
          transcript;
          EmptyString;
          "Provide a well-structured summary." ].

Definition template_translate (target transcript : string) : string :=
  lines [ "Translate this transcript to " ++ target
            ++ ". Maintain the original meaning and context.";
          EmptyString;
          "Transcript:";
          transcript;
          EmptyString;
          "Provide only the " ++ target ++ " translation." ].

Definition template_detailed (transcript : string) : string :=
  lines [ "Analyze this transcript and provide:";
          "1. Cleaned and corrected version";
          "2. Summary of main points";
          "3. Key insights or takeaways";
          "4. Identified speakers and their roles (if discernible)";
          EmptyString;
          "Transcript:";
          transcript;
          EmptyString;
          "Provide a comprehensive analysis." ].

Definition template_meeting_notes (transcript : string) : string :=
  lines [ "Convert this transcript into professional meeting notes with:";
          "- Date/Time (if mentioned)";
          "- Attendees (if identifiable)";
          "- Agenda items discussed";
          "- Decisions made";
          "- Action items with owners";
          "- Next steps";
          EmptyString;
          "Transcript:";
          transcript;
          EmptyString;
          "Format as professional meeting minutes." ].

(** [templates.get(template, templates["clean"])] *)
Definition _build_prompt (transcript template language : string) : string :=
  if (template =? "clean")%string then template_clean transcript
  else if (template =? "summary")%string then template_summary transcript
  else if (template =? "translate_en")%string
       then template_translate "English" transcript
  else if (template =? "translate_ja")%string
       then template_translate "Japanese" transcript
  else if (template =? "detailed")%string then template_detailed transcript
  else if (template =? "meeting_notes")%string
       then template_meeting_notes transcript
  else template_clean transcript.

(** The four [_process_<provider>] methods: each sends one request to the
    client of its provider; the answer is the text of the response, which
    the client library may leave [None], or an exception. *)
Definition request (env : Env) (backend prompt : string)
  : IO.M (option string) :=
  IO.perform (Generate backend prompt)
             (fun history => env_generate env history backend prompt).

Definition _process_openai (env : Env) (prompt : string) :=
  request env "openai" prompt.

Definition _process_gemini (env : Env) (prompt : string) :=
  request env "gemini" prompt.

Definition _process_claude (env : Env) (prompt : string) :=
  request env "claude" prompt.

Definition _process_ollama (env : Env) (prompt : string) :=
  request env "ollama" prompt.

Definition process (env : Env) (self : LLMProcessor)
    (transcript template language : string) : IO.M (option string) :=
  if (provider self =? "none")%string then Eff.ret None
  else
    let prompt := _build_prompt transcript template language in
    Eff.try_except
      (if (provider self =? "openai")%string
       then _process_openai env prompt
       else if (provider self =? "gemini")%string
       then _process_gemini env prompt
       else if (provider self =? "claude")%string
       then _process_claude env prompt
       else if (provider self =? "ollama")%string
       then _process_ollama env prompt
       else Eff.ret None)
      (fun e =>
         (IO.print ("Error processing with " ++ provider self ++ ": " ++ e)
          ;;; Eff.ret None)%eff).

(** [llm_processor and llm_processor.provider != "none"] *)
Definition active (llm_processor : option LLMProcessor) : bool :=
  match llm_processor with
  | Some p => negb (provider p =? "none")%string
  | None => false
  end.

End LLM.


(* ================================================================== *)
(** * search_engine.py *)
(* ================================================================== *)

Module Search.
Import PyStr Aligner.

(** The dictionaries of [self.transcripts]; the segments carry the keys
    of an aligned segment. *)
Record TranscriptRecord := mkRecord {
  file_path : string;
  file_name : string;
  language : string;
  segments : list AlignedSegment;
  full_text : string;
  embedding : option Vec
}.

Record TranscriptSearchEngine := mkEngine {
  llm_processor : option LLM.LLMProcessor;
  transcripts : list TranscriptRecord;
  embeddings_available : bool
}.

(** ** Parsing a transcript file *)

Definition colon : ascii := ":"%char.

(** [[\d:]], [[^:]] and [.] *)
Definition is_stamp_char (c : ascii) : bool := is_digit c || Ascii.eqb c colon.
Definition is_not_colon (c : ascii) : bool := negb (Ascii.eqb c colon).
Definition is_not_newline (c : ascii) : bool := negb (Ascii.eqb c nl).

(** The pieces of the pattern: literal text, and a capturing group
    [([class]+)]. *)
Inductive piece : Type :=
| Lit (text : string)
| Group (class : ascii -> bool).

(** The ways a greedy [[class]+] can consume the start of [s], in the
    order [re] tries them: longest first, one character last. *)
Fixpoint runs (class : ascii -> bool) (s : string) : list (string * string) :=
  match s with
  | EmptyString => []
  | String a s' =>
      if class a
      then (map (fun uv => (String a (fst uv), snd uv)) (runs class s')
            ++ [(String a EmptyString, s')])%list
      else []
  end.

Fixpoint first_some {A B} (f : A -> option B) (l : list A) : option B :=
  match l with
  | [] => None
  | x :: l' => match f x with Some b => Some b | None => first_some f l' end
  end.

(** [re.match(pattern, s).groups()]: matching at the start of [s] with
    backtracking; the text after the match is free. *)
Fixpoint re_match (pattern : list piece) (s : string) : option (list string) :=
  match pattern with
  | [] => Some []
  | Lit text :: rest =>
      match expect text s with
      | Some s' => re_match rest s'
      | None => None
      end
  | Group class :: rest =>
      first_some
        (fun uv => option_map (cons (fst uv)) (re_match rest (snd uv)))
        (runs class s)
  end.

(** [r'\[([\d:]+) -> ([\d:]+)\] ([^:]+): (.+)'] *)
Definition segment_pattern : list piece :=
  [ Lit "["; Group is_stamp_char; Lit " -> "; Group is_stamp_char;
    Lit "] "; Group is_not_colon; Lit ": "; Group is_not_newline ].

(** [match.groups()] for [match = re.match(segment_pattern, line)] *)
Definition segment_match (line : string)
  : option (string * string * string * string) :=
  match re_match segment_pattern line with
  | Some [start; end_; speaker; text] => Some (start, end_, speaker, text)
  | _ => None
  end.

(** The first loop of [_parse_transcript] *)
Fixpoint find_language (lines : list string) : string :=
  match lines with
  | [] => "unknown"
  | line :: rest =>
      if startswith line "Detected Language:"
      then match after_first colon line with
           | Some r => strip r
           | None => "unknown"
           end
      else find_language rest
  end.

(** The variables of the second loop *)
Record ParseState := mkParse {
  st_segments : list AlignedSegment;
  st_in_segments : bool;
  st_full_text : string
}.

Definition parse_init : ParseState := mkParse [] false EmptyString.

Definition parse_line (st : ParseState) (line : string) : ParseState :=
  if startswith line "[" && contains "->" line && contains "]" line then
    match segment_match line with
    | Some (start, end_, speaker, text) =>
        mkParse (st_segments st
                 ++ [mkAligned start end_ speaker (strip text)])%list
                (st_in_segments st)
                (st_full_text st ++ strip text ++ " ")
    | None => st
    end
  else if contains "FULL TRANSCRIPT:" line then
    mkParse (st_segments st) false (st_full_text st)
  else if st_in_segments st && negb (is_empty (strip line)) then
    mkParse (st_segments st) (st_in_segments st)
            (st_full_text st ++ strip line ++ " ")
  else st.

(** [Path(p).stem] for the path of a file *)
Fixpoint rsplit_dot (s : string) : option (string * string) :=
  match s with
  | EmptyString => None
  | String a s' =>
      match rsplit_dot s' with
      | Some (b, e) => Some (String a b, e)
      | None => if Ascii.eqb a "."%char then Some (EmptyString, s')
                else None
      end
  end.

Definition path_stem (p : string) : string :=
  let name := match after_last "/" p with Some r => r | None => p end in
  match rsplit_dot name with
  | Some (b, e) => if is_empty b || is_empty e then name else b
  | None => name
  end.

(** [s.replace(old, "")] for a non-empty [old]; [skip] counts the
    characters of the current occurrence still to be dropped. *)
Fixpoint remove_all_from (old : string) (skip : nat) (s : string) : string :=
  match s with
  | EmptyString => EmptyString
  | String a s' =>
      match skip with
      | S k => remove_all_from old k s'
      | O => if String.prefix old s
             then remove_all_from old (String.length old - 1) s'
             else String a (remove_all_from old 0 s')
      end
  end.

Definition remove_all (old s : string) : string := remove_all_from old 0 s.

Definition _parse_transcript (content file_path : string)
  : TranscriptRecord :=
  let lines := split nl content in
  let language := find_language lines in
  let st := fold_left parse_line lines parse_init in
  let full_text :=
    if (match st_segments st with [] => true | _ => false end)
       && contains "FULL TRANSCRIPT:" content
    then strip (match after_last "FULL TRANSCRIPT:" content with
                | Some r => r
                | None => content
                end)
    else st_full_text st in
  mkRecord file_path
           (remove_all "_transcript" (path_stem file_path))
           language
           (st_segments st)
           (strip full_text)
           None.

(** The segments a line gives: one when it has the shape
    [[start -> end] speaker: text], none otherwise. *)
Definition line_segment (line : string) : list AlignedSegment :=
  if startswith line "[" && contains "->" line && contains "]" line then
    match segment_match line with
    | Some (start, end_, speaker, text) =>
        [mkAligned start end_ speaker (strip text)]
    | None => []
    end
  else [].

(** The texts, each followed by a space, one after the other *)
Definition spaced (texts : list string) : string :=
  String.concat EmptyString (map (fun t => t ++ " ") texts).

(** Conditions under which a transcript survives being written and read
    back *)
Definition one_line (s : string) : Prop := all_chars is_not_newline s = true.

Definition wf_stamp (s : string) : Prop :=
  s <> EmptyString /\ all_chars is_stamp_char s = true.

Definition wf_speaker (s : string) : Prop :=
  s <> EmptyString /\ all_chars is_not_colon s = true /\ one_line s.

Definition wf_text (s : string) : Prop :=
  s <> EmptyString /\ one_line s /\ strip s = s.

Definition wf_segment (g : AlignedSegment) : Prop :=
  wf_stamp (start g) /\ wf_stamp (end_ g)
  /\ wf_speaker (speaker g) /\ wf_text (text g).

Definition no_segment_line (s : string) : Prop :=
  Forall (fun line => line_segment line = []) (split nl s).

(** ** Results *)

(** An element of a result's ['matches'] *)
Inductive Match : Type :=
| KeywordMatch (timestamp speaker text highlight : string)
| RelevantMatch (timestamp speaker text : string) (relevance_score : Q)
| SegmentMatch (segment : AlignedSegment).

(** [match.get('text', '')] *)
Definition match_text (m : Match) : string :=
  match m with
  | KeywordMatch _ _ t _ => t
  | RelevantMatch _ _ t _ => t
  | SegmentMatch g => text g
  end.

(** A result dictionary; a key that a search does not set is [None]. *)
Record SearchResult := mkResult {
  res_file_name : string;
  res_language : string;
  res_matches : list Match;
  res_match_count : option nat;
  res_similarity_score : option Q;
  res_llm_analysis : option string
}.

(** [f"{segment['start']} -> {segment['end']}"] *)
Definition timestamp_of (segment : AlignedSegment) : string :=
  start segment ++ " -> " ++ end_ segment.

(** ** Keyword search *)

(** Does the escaped [query] match at the start of [s]?  On code
    points below 256 a pattern compiled with [re.IGNORECASE] matches a
    character exactly when the lower-case forms agree: the further
    equivalences of [re] (i with U+0131, s with U+017F, and the like)
    all involve a character beyond 255.  [Highlight] has the
    highlighting over any alphabet and any such comparison. *)
Definition matches_here (query : string) (case_sensitive : bool)
    (s : string) : bool :=
  if case_sensitive then String.prefix query s
  else String.prefix (lower query) (lower s).

(** [pattern.sub(lambda m: f"**{m.group()}**", text)] for a non-empty
    [query]: occurrences are taken from left to right without overlap;
    [inside] counts the characters of the current occurrence still to be
    copied before the closing marker. *)
Fixpoint highlight_from (query : string) (case_sensitive : bool)
    (inside : nat) (s : string) : string :=
  match s with
  | EmptyString => EmptyString
  | String a s' =>
      match inside with
      | S O => String a ("**" ++ highlight_from query case_sensitive 0 s')
      | S k => String a (highlight_from query case_sensitive k s')
      | O =>
          if matches_here query case_sensitive s
          then match String.length query with
               | S O | O =>
                   "**" ++ String a
                     ("**" ++ highlight_from query case_sensitive 0 s')
               | S k =>
                   "**" ++ String a
                     (highlight_from query case_sensitive k s')
               end
          else String a (highlight_from query case_sensitive 0 s')
      end
  end.

(** With an empty [query] the pattern matches the empty string at every
    position, the end included. *)
Fixpoint highlight_empty (s : string) : string :=
  match s with
  | EmptyString => "****"
  | String a s' => "****" ++ String a (highlight_empty s')
  end.

Definition _highlight_text (text query : string) (case_sensitive : bool)
  : string :=
  if is_empty query then highlight_empty text
  else highlight_from query case_sensitive 0 text.

Definition keyword_match (query : string) (case_sensitive : bool)
    (segment : AlignedSegment) : Match :=
  KeywordMatch (timestamp_of segment) (speaker segment) (text segment)
               (_highlight_text (text segment) query case_sensitive).

(** The list [matches] built for one transcript *)
Definition keyword_matches (query : string) (case_sensitive : bool)
    (transcript : TranscriptRecord) : list Match :=
  let text_ := full_text transcript in
  if negb case_sensitive then
    let query_lower := lower query in
    let text_lower := lower text_ in
    if contains query_lower text_lower then
      fold_left
        (fun matches segment =>
           if contains query_lower (lower (text segment))
           then (matches ++ [keyword_match query case_sensitive segment])%list
           else matches)
        (segments transcript) []
    else []
  else
    if contains query text_ then
      fold_left
        (fun matches segment =>
           if contains query (text segment)
           then (matches ++ [keyword_match query case_sensitive segment])%list
           else matches)
        (segments transcript) []
    else [].

Definition keyword_result (transcript : TranscriptRecord)
    (matches : list Match) : SearchResult :=
  mkResult (file_name transcript) (language transcript) matches
           (Some (List.length matches)) None None.

Definition keyword_search (self : TranscriptSearchEngine) (query : string)
    (case_sensitive : bool) : list SearchResult :=
  fold_left
    (fun results transcript =>
       match keyword_matches query case_sensitive transcript with
       | [] => results
       | matches => (results ++ [keyword_result transcript matches])%list
       end)
    (transcripts self) [].

(** In the words of the specification: a segment text contains the
    query, read with the case rule of the search. *)
Definition hit (query : string) (case_sensitive : bool) (txt : string)
  : bool :=
  if case_sensitive then contains query txt
  else contains (lower query) (lower txt).

Definition segment_hits (query : string) (case_sensitive : bool)
    (transcript : TranscriptRecord) : list AlignedSegment :=
  filter (fun segment => hit query case_sensitive (text segment))
         (segments transcript).

(** ** Semantic search *)

(** [score > 0.3].  No double lies between the double that the literal
    [0.3] denotes and 3/10, so on doubles both thresholds agree. *)
Definition threshold : Q := 3 # 10.

Definition above_threshold (score : Q) : bool :=
  negb (Qle_bool score threshold).

(** [l.sort(key=..., reverse=True)]: stable, largest key first. *)
Fixpoint insert_desc {A} (key : A -> Q) (x : A) (l : list A) : list A :=
  match l with
  | [] => [x]
  | y :: l' =>
      if negb (Qle_bool (key y) (key x)) then y :: insert_desc key x l'
      else x :: l
  end.

Definition sort_desc {A} (key : A -> Q) (l : list A) : list A :=
  fold_right (insert_desc key) [] l.

Definition similarity (env : Env) (a b : Vec) : Q := env_cosine env a b.

(** [x] may stand before [y] in a ranking by [key]. *)
Definition desc {A} (key : A -> Q) (x y : A) : Prop := (key y <= key x)%Q.

(** [result['similarity_score']] and [match['relevance_score']] *)
Definition result_score (r : SearchResult) : Q :=
  match res_similarity_score r with Some q => q | None => 0%Q end.

Definition match_score (m : Match) : Q :=
  match m with RelevantMatch _ _ _ q => q | _ => 0%Q end.

Definition _find_relevant_segments (env : Env) (self : TranscriptSearchEngine)
    (transcript : TranscriptRecord) (query : string) (top_n : nat)
  : list Match :=
  if negb (embeddings_available self)
  then map SegmentMatch (firstn top_n (segments transcript))
  else
    let query_embedding := env_encode env query in
    let segment_scores :=
      map (fun segment =>
             (segment,
              similarity env query_embedding (env_encode env (text segment))))
          (segments transcript) in
    let sorted := sort_desc snd segment_scores in
    map (fun p => RelevantMatch (timestamp_of (fst p)) (speaker (fst p))
                                (text (fst p)) (snd p))
        (filter (fun p => above_threshold (snd p)) (firstn top_n sorted)).

(** [enumerate(l)] from [i] *)
Fixpoint enumerate_from {A} (i : nat) (l : list A) : list (nat * A) :=
  match l with
  | [] => []
  | x :: l' => (i, x) :: enumerate_from (S i) l'
  end.

(** The list [scores] before it is sorted *)
Definition embedding_scores (env : Env) (self : TranscriptSearchEngine)
    (query : string) : list (nat * Q) :=
  let query_embedding := env_encode env query in
  fold_left
    (fun scores it =>
       match embedding (snd it) with
       | Some e =>
           (scores ++ [(fst it, similarity env query_embedding e)])%list
       | None => scores
       end)
    (enumerate_from 0 (transcripts self)) [].

Definition embedding_result (env : Env) (self : TranscriptSearchEngine)
    (query : string) (transcript : TranscriptRecord) (score : Q)
  : SearchResult :=
  let relevant_segments :=
    _find_relevant_segments env self transcript query 3 in
  mkResult (file_name transcript) (language transcript) relevant_segments
           (Some (List.length relevant_segments)) (Some score) None.

(** [top_k] is a count: the callers pass 5 and 3. *)
Definition _embedding_search (env : Env) (self : TranscriptSearchEngine)
    (query : string) (top_k : nat) : list SearchResult :=
  let scores := sort_desc snd (embedding_scores env self query) in
  fold_left
    (fun results p =>
       if above_threshold (snd p) then
         match nth_error (transcripts self) (fst p) with
         | Some transcript =>
             (results ++ [embedding_result env self query transcript (snd p)])%list
         | None => results
         end
       else results)
    (firstn top_k scores) [].

Definition quoted (s : string) : string :=
  String dquote (s ++ String dquote EmptyString).

Definition llm_search_prompt (query : string) (transcript : TranscriptRecord)
  : string :=
  LLM.lines
    [ "Analyze if this transcript is relevant to the query: " ++ quoted query;
      EmptyString;
      "Transcript:";
      take 2000 (full_text transcript) ++ "...";
      EmptyString;
      "Is this transcript relevant? If yes, extract the most relevant parts that answer or relate to the query.";
      "Respond in JSON format:";
      "{" ++ quoted "relevant" ++ ": true/false, " ++ quoted "relevance_score"
        ++ ": 0-1, " ++ quoted "relevant_parts" ++ ": [" ++ quoted "quote1"
        ++ ", " ++ quoted "quote2" ++ "]}" ].

Definition llm_result (transcript : TranscriptRecord) (response : string)
  : SearchResult :=
  mkResult (file_name transcript) (language transcript)
           (map SegmentMatch (firstn 3 (segments transcript)))
           None None (Some response).

(** The loop of [_llm_search]; the accumulator is [results]. *)
Fixpoint llm_search_loop (env : Env) (llm : LLM.LLMProcessor) (query : string)
    (ts : list TranscriptRecord) (results : list SearchResult)
  : IO.M (list SearchResult) :=
  match ts with
  | [] => Eff.ret results
  | transcript :: rest =>
      (results' <-
         Eff.try_except
           (response <- LLM.process env llm
                          (llm_search_prompt query transcript) "clean"
                          (language transcript) ;;
            match response with
            | Some r =>
                if negb (is_empty r) && contains "true" (lower r)
                then Eff.ret (results ++ [llm_result transcript r])%list
                else Eff.ret results
            | None => Eff.ret results
            end)
           (fun e => IO.print ("LLM search error: " ++ e) ;;; Eff.ret results) ;;
       llm_search_loop env llm query rest results')%eff
  end.

Definition _llm_search (env : Env) (self : TranscriptSearchEngine)
    (llm : LLM.LLMProcessor) (query : string) (top_k : nat)
  : IO.M (list SearchResult) :=
  (results <- llm_search_loop env llm query (transcripts self) [] ;;
   Eff.ret (firstn top_k results))%eff.

Definition semantic_search (env : Env) (self : TranscriptSearchEngine)
    (query : string) (top_k : nat) : IO.M (list SearchResult) :=
  if embeddings_available self
  then Eff.ret (_embedding_search env self query top_k)
  else match llm_processor self with
       | Some llm =>
           if negb (LLM.provider llm =? "none")%string
           then _llm_search env self llm query top_k
           else Eff.ret (keyword_search self query false)
       | None => Eff.ret (keyword_search self query false)
       end.

(** ** Question answering *)

Definition msg_llm_disabled : string :=
  "LLM is not enabled. Please enable LLM post-processing to use the Q&A feature.".

Definition msg_nothing_relevant : string :=
  "I couldn't find any relevant information in the transcripts to answer your question.".

(** The string [context] after the two nested loops *)
Definition build_context (relevant : list SearchResult) : string :=
  fold_left
    (fun context result =>
       fold_left
         (fun context m => context ++ "- " ++ match_text m
                             ++ String nl EmptyString)
         (firstn 3 (res_matches result))
         (context ++ String nl (String nl EmptyString) ++ "From "
            ++ res_file_name result ++ " (" ++ res_language result ++ "):"
            ++ String nl EmptyString))
    relevant EmptyString.

Definition question_prompt (question context : string) : string :=
  LLM.lines
    [ "Based on the following transcript excerpts, answer this question: "
        ++ quoted question;
      EmptyString;
      "Transcripts:";
      context;
      EmptyString;
      "Provide a clear, concise answer based only on the information in the transcripts. If the transcripts don't contain enough information to answer, say so." ].

(** The value returned is a [str], or [None] when [process] gave
    [None].  The search is called outside of any [try]: what it raises
    leaves [ask_question]. *)
Definition ask_question (env : Env) (self : TranscriptSearchEngine)
    (question : string) : IO.M (option string) :=
  match llm_processor self with
  | None => Eff.ret (Some msg_llm_disabled)
  | Some llm =>
      if (LLM.provider llm =? "none")%string
      then Eff.ret (Some msg_llm_disabled)
      else
        (relevant <- semantic_search env self question 3 ;;
         match relevant with
         | [] => Eff.ret (Some msg_nothing_relevant)
         | _ =>
             let context := build_context relevant in
             let prompt := question_prompt question context in
             Eff.try_except
               (LLM.process env llm prompt "clean" "auto")
               (fun e => Eff.ret (Some ("Error generating answer: " ++ e)))
         end)%eff
  end.

End Search.

(* ================================================================== *)
(** * batch_processor.py: one video, and the loop over the batch *)
(* ================================================================== *)

Module Batch.
Import PyStr.

(** POSIX [os.path.basename], the root of [os.path.splitext] and
    [os.path.join] *)
Definition basename (p : string) : string :=
  match after_last "/" p with Some r => r | None => p end.

Definition splitext_root (p : string) : string :=
  match Search.rsplit_dot (basename p) with
  | Some (b, _) =>
      if all_chars (Ascii.eqb "."%char) b then p
      else take (String.length p - String.length (basename p)) p ++ b
  | None => p
  end.

Definition path_join (a b : string) : string :=
  if String.prefix "/" b then b
  else if is_empty a then b
  else if Ascii.eqb (match get (String.length a - 1) a with
                     | Some c => c
                     | None => "/"%char
                     end) "/"%char
       then a ++ b
       else a ++ "/" ++ b.

Definition str_of_nat (n : nat) : string := str_of_int (Z.of_nat n).

(** [x in ['txt', 'both']] *)
Definition one_of (x : string) (l : list string) : bool :=
  existsb (String.eqb x) l.

Definition get_file_size (env : Env) (path : string) : IO.M string :=
  IO.perform (FileSize path) (fun h => env_file_size env h path).

Definition convert_video_to_mp3 (env : Env)
    (video_path output_folder bitrate : string) : IO.M string :=
  IO.perform (Convert video_path output_folder bitrate)
             (fun h => env_convert env h video_path output_folder bitrate).

(** The whole of [transcribe_audio_with_whisper] seen from its caller:
    the path of the transcript, the preview and the language, or the
    exception it re-raises. *)
Definition transcribe_audio_with_whisper (env : Env)
    (audio_path output_folder output_format : string)
  : IO.M (string * string * string) :=
  IO.perform (Transcribe audio_path output_folder output_format)
             (fun h => env_transcribe env h audio_path output_folder
                         output_format).

Definition read_file (env : Env) (path : string) : IO.M string :=
  IO.perform (ReadFile path) (fun h => env_read env h path).

Definition write_file (env : Env) (path content : string) : IO.M unit :=
  IO.perform (WriteFile path content) (fun h => env_write env h path content).

Definition progress_line (index total : nat) : string :=
  "PROGRESS: " ++ str_of_nat index ++ "/" ++ str_of_nat total.

Definition skipping_line (index total : nat) (video_path : string) : string :=
  "Skipping " ++ str_of_nat index ++ "/" ++ str_of_nat total
  ++ ": File not found - " ++ video_path.

(** Saving the enhanced text in one format *)
Definition save_enhanced (env : Env) (path content : string) : IO.M unit :=
  (write_file env path content ;;;
   _ <- get_file_size env path ;;
   Eff.ret tt)%eff.

(** The third step of [process_video] *)
Definition enhance (env : Env) (llm : LLM.LLMProcessor)
    (video_path output_folder transcript_path language output_format : string)
  : IO.M unit :=
  (raw_transcript <- read_file env transcript_path ;;
   enhanced_text <- LLM.process env llm raw_transcript (LLM.template llm)
                      language ;;
   match enhanced_text with
   | Some enhanced =>
       if is_empty enhanced
       then IO.print "LLM processing failed or returned empty"
       else
         let filename := splitext_root (basename video_path) in
         let video_filename := basename video_path in
         (if one_of output_format ["txt"; "both"]
          then save_enhanced env
                 (path_join output_folder (filename ++ "_enhanced.txt"))
                 (TranscriptFormatter.format_enhanced_txt video_filename
                    (LLM.provider llm) (LLM.template llm) enhanced)
          else Eff.ret tt) ;;;
         (if one_of output_format ["md"; "both"]
          then now <- IO.now env ;;
               save_enhanced env
                 (path_join output_folder (filename ++ "_enhanced.md"))
                 (TranscriptFormatter.format_enhanced_md now video_filename
                    (LLM.provider llm) (LLM.template llm) enhanced)
          else Eff.ret tt)
   | None => IO.print "LLM processing failed or returned empty"
   end)%eff.

(** Of the progress report only the [PROGRESS] line is kept; the
    diagnostics of failures are all there. *)
Definition process_video (env : Env) (video_path output_folder : string)
    (index total : nat) (llm_processor : option LLM.LLMProcessor)
    (output_format mp3_bitrate : string) : IO.M bool :=
  (IO.print (progress_line index total) ;;;
   Eff.try_except
     (mp3_path <- convert_video_to_mp3 env video_path output_folder
                    mp3_bitrate ;;
      r <- transcribe_audio_with_whisper env mp3_path output_folder
             output_format ;;
      let '(transcript_path, preview, language) := r in
      _ <- get_file_size env transcript_path ;;
      match llm_processor with
      | Some llm =>
          if negb (LLM.provider llm =? "none")%string
          then enhance env llm video_path output_folder transcript_path
                       language output_format
          else Eff.ret tt
      | None => Eff.ret tt
      end ;;;
      Eff.ret true)
     (fun e => IO.print ("Error: " ++ e) ;;; Eff.ret false))%eff.

(** The counters of [main] *)
Record Counters := mkCounters {
  successful : nat;
  failed : nat
}.

(** One turn of the loop of [main] *)
Definition main_step (env : Env) (output_folder : string) (total : nat)
    (llm_processor : option LLM.LLMProcessor)
    (output_format mp3_bitrate : string)
    (c : Counters) (index : nat) (video_path : string) : IO.M Counters :=
  (found <- IO.path_exists env video_path ;;
   if negb found then
     IO.print (skipping_line index total video_path) ;;;
     Eff.ret (mkCounters (successful c) (failed c + 1))
   else
     ok <- process_video env video_path output_folder index total
             llm_processor output_format mp3_bitrate ;;
     let c' := if ok then mkCounters (successful c + 1) (failed c)
               else mkCounters (successful c) (failed c + 1) in
     IO.print (repeat_char "-"%char 60) ;;;
     Eff.ret c')%eff.

(** [for index, video_path in enumerate(video_files, 1)] *)
Fixpoint main_loop (env : Env) (output_folder : string) (total : nat)
    (llm_processor : option LLM.LLMProcessor)
    (output_format mp3_bitrate : string)
    (items : list (nat * string)) (c : Counters) : IO.M Counters :=
  match items with
  | [] => Eff.ret c
  | (index, video_path) :: rest =>
      (c' <- main_step env output_folder total llm_processor output_format
               mp3_bitrate c index video_path ;;
       main_loop env output_folder total llm_processor output_format
                 mp3_bitrate rest c')%eff
  end.

(** [main] from [total = len(video_files)] on, the models being loaded:
    the counters when the loop ends and the status given to
    [sys.exit]. *)
Definition main (env : Env) (video_files : list string)
    (output_folder : string) (llm_processor : option LLM.LLMProcessor)
    (output_format mp3_bitrate : string) : IO.M (Counters * nat) :=
  let total := List.length video_files in
  (c <- main_loop env output_folder total llm_processor output_format
          mp3_bitrate (Search.enumerate_from 1 video_files)
          (mkCounters 0 0) ;;
   IO.print "Processing complete!" ;;;
   IO.print ("Successful: " ++ str_of_nat (successful c) ++ "/"
             ++ str_of_nat total) ;;;
   IO.print ("Failed: " ++ str_of_nat (failed c) ++ "/"
             ++ str_of_nat total) ;;;
   Eff.ret (c, if (failed c =? 0)%nat then 0 else 1))%eff.

(** ** The run in the words of the specification *)

(** What became of one item *)
Inductive Verdict : Type := Missing | Succeeded | Failed.

Definition is_succeeded (v : Verdict) : bool :=
  match v with Succeeded => true | _ => false end.

Definition count_succeeded (verdicts : list Verdict) : nat :=
  List.length (filter is_succeeded verdicts).

Definition count_failed (verdicts : list Verdict) : nat :=
  List.length (filter (fun v => negb (is_succeeded v)) verdicts).

(** An item that is processed: from the history [h], [process_video]
    announces the item, converts this very video and answers [ok],
    leaving the history [h'].  When it answers [True] the conversion, the
    transcription of the converted audio and the sizing of the transcript
    have all returned; when it answers [False] the last thing done is the
    report of the error. *)
Definition processed (env : Env) (video_path output_folder : string)
    (index total : nat) (llm_processor : option LLM.LLMProcessor)
    (output_format mp3_bitrate : string)
    (h : list Event) (ok : bool) (h' : list Event) : Prop :=
  process_video env video_path output_folder index total llm_processor
                output_format mp3_bitrate h = (Returned ok, h')
  /\ exists rest,
       h' = (h ++ Print (progress_line index total)
               :: Convert video_path output_folder mp3_bitrate :: rest)%list
       /\ if ok then
            exists mp3_path transcript_path preview language size rest',
              env_convert env (h ++ [Print (progress_line index total)])%list
                video_path output_folder mp3_bitrate = Returned mp3_path
              /\ env_transcribe env
                   (h ++ [Print (progress_line index total);
                          Convert video_path output_folder mp3_bitrate])%list
                   mp3_path output_folder output_format
                 = Returned (transcript_path, preview, language)
              /\ env_file_size env
                   (h ++ [Print (progress_line index total);
                          Convert video_path output_folder mp3_bitrate;
                          Transcribe mp3_path output_folder output_format])%list
                   transcript_path = Returned size
              /\ rest = Transcribe mp3_path output_folder output_format
                        :: FileSize transcript_path :: rest'
          else
            exists before e, rest = (before ++ [Print ("Error: " ++ e)])%list.

(** The run of the loop over [items] from the history [h]: the verdicts
    of the items in order and the history at the end.  An item whose
    file does not exist when its turn comes costs the report and nothing
    else; any other item is processed, whatever became of the items
    before it, and the rule is printed after it. *)
Inductive batch_run (env : Env) (output_folder : string) (total : nat)
    (llm_processor : option LLM.LLMProcessor)
    (output_format mp3_bitrate : string)
  : list (nat * string) -> list Event -> list Verdict -> list Event -> Prop :=
| run_done (h : list Event) :
    batch_run env output_folder total llm_processor output_format
      mp3_bitrate [] h [] h
| run_missing (index : nat) (video_path : string)
    (rest : list (nat * string)) (h : list Event)
    (verdicts : list Verdict) (h' : list Event) :
    env_exists env h video_path = false ->
    batch_run env output_folder total llm_processor output_format
      mp3_bitrate rest
      (h ++ [Print (skipping_line index total video_path)])%list verdicts h' ->
    batch_run env output_folder total llm_processor output_format
      mp3_bitrate ((index, video_path) :: rest) h (Missing :: verdicts) h'
| run_processed (index : nat) (video_path : string)
    (rest : list (nat * string)) (h : list Event) (ok : bool)
    (h1 : list Event) (verdicts : list Verdict) (h' : list Event) :
    env_exists env h video_path = true ->
    processed env video_path output_folder index total llm_processor
      output_format mp3_bitrate h ok h1 ->
    batch_run env output_folder total llm_processor output_format
      mp3_bitrate rest (h1 ++ [Print (repeat_char "-"%char 60)])%list
      verdicts h' ->
    batch_run env output_folder total llm_processor output_format
      mp3_bitrate ((index, video_path) :: rest) h
      ((if ok then Succeeded else Failed) :: verdicts) h'.

End Batch.

(* ================================================================== *)
(** * llm_processor.py: construction and the list of templates *)
(* ================================================================== *)

Module LLMInit.
Import PyStr LLM.

(** What importing the client library of a provider and building its
    client does. *)
Inductive client_outcome : Type :=
| ClientReady
| ImportFailed (msg : string)
| ClientFailed (msg : string).

(** [self.model or default] *)
Definition model_or (model : option string) (default : string)
  : option string :=
  match model with
  | Some m => if is_empty m then Some default else Some m
  | None => Some default
  end.

(** [_initialize_client]: the fields [provider] and [model] when it
    ends.  [client] tells what the library of each provider does. *)
Definition _initialize_client (client : string -> client_outcome)
    (self : LLMProcessor) : IO.M LLMProcessor :=
  let known :=
    (provider self =? "openai")%string || (provider self =? "gemini")%string
    || (provider self =? "claude")%string || (provider self =? "ollama")%string in
  if negb known then Eff.ret self
  else
    match client (provider self) with
    | ClientReady =>
        Eff.ret
          (mkLLM (provider self) (api_key self)
             (if (provider self =? "openai")%string
              then model_or (model self) "gpt-4-turbo-preview"
              else if (provider self =? "gemini")%string then model self
              else if (provider self =? "claude")%string
              then model_or (model self) "claude-3-sonnet-20240229"
              else model_or (model self) "llama3")
             (template self))
    | ImportFailed _ =>
        (IO.print ("Warning: " ++ provider self
                   ++ " library not installed. Install with: pip install "
                   ++ provider self) ;;;
         Eff.ret (mkLLM "none" (api_key self) (model self) (template self)))%eff
    | ClientFailed e =>
        (IO.print ("Warning: Failed to initialize " ++ provider self ++ ": "
                   ++ e) ;;;
         Eff.ret (mkLLM "none" (api_key self) (model self) (template self)))%eff
    end.

(** [LLMProcessor(provider, api_key, model)].  The attribute [template]
    is assigned by the callers right after; until then it is modelled as
    the empty string. *)
Definition __init__ (client : string -> client_outcome)
    (provider : string) (api_key model : option string)
  : IO.M LLMProcessor :=
  let self := mkLLM (lower provider) api_key model EmptyString in
  if negb (LLM.provider self =? "none")%string
  then _initialize_client client self
  else Eff.ret self.

(** The keys of [get_templates()] with their descriptions *)
Definition get_templates : list (string * string) :=
  [ ("clean", "Clean & Correct - Fix grammar and formatting");
    ("summary", "Summary - Create concise summary");
    ("translate_en", "Translate to English");
    ("translate_ja", "Translate to Japanese");
    ("detailed", "Detailed Analysis - Full breakdown");
    ("meeting_notes", "Meeting Notes - Professional format") ].

(** The requests to a provider recorded in a history *)
Definition requests (history : list Event) : list (string * string) :=
  flat_map (fun ev => match ev with
                      | Generate p prompt => [(p, prompt)]
                      | _ => []
                      end) history.

End LLMInit.

(* ================================================================== *)
(** * Ways of stating what the searches do *)
(* ================================================================== *)

Module SearchSpec.
Import PyStr Search.

(** The four providers [process] knows how to call *)
Definition known_provider (p : string) : bool :=
  (p =? "openai")%string || (p =? "gemini")%string
  || (p =? "claude")%string || (p =? "ollama")%string.

(** A match without its ['highlight'], the one field that is built from
    the query as it was typed, by a regular expression *)
Definition plain_match (m : Match) : Match :=
  match m with
  | KeywordMatch timestamp speaker text _ =>
      KeywordMatch timestamp speaker text EmptyString
  | _ => m
  end.

Definition plain_result (r : SearchResult) : SearchResult :=
  mkResult (res_file_name r) (res_language r)
           (map plain_match (res_matches r)) (res_match_count r)
           (res_similarity_score r) (res_llm_analysis r).

End SearchSpec.

(* ================================================================== *)
(** * search_engine.py: highlighting, over any alphabet *)
(* ================================================================== *)

Module Highlight.

Section Alphabet.

(** The characters of a Python [str] with their equality, whatever they
    are; [star] is the asterisk.  [fold_eq p c] tells whether a pattern
    compiled with [re.IGNORECASE] lets the character [p] of the escaped
    query match the character [c] of the text: the pattern is a
    sequence of literals, each of which is compared with one character
    of the text.  Nothing is assumed of [fold_eq]: it need not be the
    equality of lower-case forms. *)
Variable C : Type.
Variable eqb : C -> C -> bool.
Variable fold_eq : C -> C -> bool.
Variable star : C.

Definition same (case_sensitive : bool) : C -> C -> bool :=
  if case_sensitive then eqb else fold_eq.

(** Does the pattern match at the start of [s]? *)
Fixpoint matches_here (case_sensitive : bool) (query s : list C) : bool :=
  match query with
  | [] => true
  | p :: query' =>
      match s with
      | [] => false
      | c :: s' =>
          same case_sensitive p c && matches_here case_sensitive query' s'
      end
  end.

(** [pattern.sub(lambda m: f"**{m.group()}**", text)] for a non-empty
    [query]: occurrences are taken from left to right without overlap;
    [inside] counts the characters of the current occurrence still to be
    copied before the closing marker. *)
Fixpoint highlight_from (query : list C) (case_sensitive : bool)
    (inside : nat) (s : list C) : list C :=
  match s with
  | [] => []
  | a :: s' =>
      match inside with
      | S O => a :: star :: star :: highlight_from query case_sensitive 0 s'
      | S k => a :: highlight_from query case_sensitive k s'
      | O =>
          if matches_here case_sensitive query s
          then match List.length query with
               | S O | O =>
                   star :: star :: a :: star :: star
                     :: highlight_from query case_sensitive 0 s'
               | S k =>
                   star :: star :: a
                     :: highlight_from query case_sensitive k s'
               end
          else a :: highlight_from query case_sensitive 0 s'
      end
  end.

(** With an empty [query] the pattern matches the empty string at every
    position, the end included. *)
Fixpoint highlight_empty (s : list C) : list C :=
  match s with
  | [] => [star; star; star; star]
  | a :: s' => star :: star :: star :: star :: a :: highlight_empty s'
  end.

Definition _highlight_text (text query : list C) (case_sensitive : bool)
  : list C :=
  match query with
  | [] => highlight_empty text
  | _ => highlight_from query case_sensitive 0 text
  end.

(** [pattern.search(text) is not None] *)
Fixpoint found (case_sensitive : bool) (query s : list C) : bool :=
  matches_here case_sensitive query s
  || match s with
     | [] => false
     | _ :: s' => found case_sensitive query s'
     end.

(** [s] without its asterisks *)
Definition erase (s : list C) : list C :=
  filter (fun a => negb (eqb a star)) s.

(** Two asterisks in a row somewhere in [s] *)
Fixpoint has_marker (s : list C) : bool :=
  match s with
  | [] => false
  | a :: s' =>
      match s' with
      | b :: _ => (eqb a star && eqb b star) || has_marker s'
      | [] => false
      end
  end.

End Alphabet.

(** An alphabet for the examples: code points as numbers, compared
    without case as [re.IGNORECASE] does on the letters used here, where
    the dotless i (305) and the dotted capital I (304) go with i. *)
Definition fold_code (c : N) : N :=
  if ((65 <=? c) && (c <=? 90))%N then (c + 32)%N
  else if ((c =? 304) || (c =? 305))%N then 105%N
  else c.

Definition fold_eq_code (p c : N) : bool :=
  (fold_code p =? fold_code c)%N.

End Highlight.

(* ================================================================== *)
(** * batch_processor.py: sizes for the reader *)
(* ================================================================== *)

Module Sizes.
Import PyStr.

(** The nearest integer, a tie going to the even one: how a float whose
    binary value is exact is rounded when it is printed. *)
Definition round_half_even (q : Q) : Z :=
  let f := Qfloor q in
  match (q - inject_Z f ?= 1 # 2)%Q with
  | Lt => f
  | Gt => (f + 1)%Z
  | Eq => if Z.even f then f else (f + 1)%Z
  end.

(** [f"{x:.1f}"] for [x >= 0], the only case here. *)
Definition format_1f (x : Q) : string :=
  let t := round_half_even (x * 10)%Q in
  str_of_int (t / 10)%Z ++ "." ++ str_of_int (t mod 10)%Z.

(** The loop over the units, from the unit it is at.  [size_bytes] is
    the file's size divided by 1024 once per unit passed: a size below
    2^53 is a float without error, and so are its quotients by 1024. *)
Fixpoint size_loop (units : list string) (size_bytes : Q) : string :=
  match units with
  | [] => format_1f size_bytes ++ " TB"
  | unit :: rest =>
      if negb (Qle_bool 1024 size_bytes)
      then format_1f size_bytes ++ " " ++ unit
      else size_loop rest (size_bytes / 1024)%Q
  end.

Definition units : list string := ["B"; "KB"; "MB"; "GB"].

(** [get_file_size], [getsize] being what [os.path.getsize(file_path)]
    does: return the size or raise. *)
Definition get_file_size (getsize : outcome Z) : outcome string :=
  match getsize with
  | Returned size_bytes => Returned (size_loop units (inject_Z size_bytes))
  | Raised e => Raised e
  end.

End Sizes.

(* ================================================================== *)
(** * More of Python's strings *)
(* ================================================================== *)

Module PathStr.
Import PyStr.

(** [s.endswith(suffix)] *)
Definition endswith (s suffix : string) : bool :=
  (String.length suffix <=? String.length s)%nat
  && String.eqb (drop (String.length s - String.length suffix) s) suffix.

(** [s.rsplit('.', 1)[0]] *)
Definition before_last_dot (s : string) : string :=
  match Search.rsplit_dot s with
  | Some (b, _) => b
  | None => s
  end.

(** [s.replace(old, new)] for a non-empty [old]; [skip] counts the
    characters of the current occurrence still to be passed. *)
Fixpoint replace_from (old new : string) (skip : nat) (s : string) : string :=
  match s with
  | EmptyString => EmptyString
  | String a s' =>
      match skip with
      | S k => replace_from old new k s'
      | O => if String.prefix old s
             then new ++ replace_from old new (String.length old - 1) s'
             else String a (replace_from old new 0 s')
      end
  end.

Definition replace (old new s : string) : string := replace_from old new 0 s.

End PathStr.

(* ================================================================== *)
(** * transcript_formatter.py: the Markdown transcript *)
(* ================================================================== *)

Module FormatterMd.
Import PyStr Aligner TranscriptFormatter.

(** The three lines of one segment.  [arrow] is the character U+2192 of
    the source, which lies outside the code points that the strings here
    are made of. *)
Definition segment_block (arrow : string) (segment : AlignedSegment)
  : list string :=
  [ "### " ++ start segment ++ " " ++ arrow ++ " " ++ end_ segment;
    "**" ++ speaker segment ++ ":** " ++ text segment;
    EmptyString ].

(** [generated] is [datetime.now().strftime('%Y-%m-%d %H:%M:%S')]. *)
Definition md_header (generated video_filename language duration : string)
  : list string :=
  [ "# Transcript: " ++ video_filename;
    EmptyString;
    "**Language:** " ++ language ++ "  ";
    "**Duration:** " ++ duration ++ "  ";
    "**Generated:** " ++ generated;
    EmptyString;
    "---";
    EmptyString;
    "## Transcript with Speakers";
    EmptyString ].

Definition md_footer (full_text : string) : list string :=
  [ "---"; EmptyString; "## Full Transcript"; EmptyString; full_text ].

Definition format_md (arrow generated video_filename language duration
    : string) (segments : list AlignedSegment) (full_text : string)
  : string :=
  join newline
    (md_header generated video_filename language duration
     ++ flat_map (segment_block arrow) segments
     ++ md_footer full_text)%list.

End FormatterMd.

(* ================================================================== *)
(** * batch_processor.py: one audio file, from the file to its transcript *)
(* ================================================================== *)

Module Studio.
Import PyStr PyNum Aligner TranscriptFormatter PathStr.

(** What [transcribe_audio_with_whisper] does to its surroundings *)
Inductive Act : Type :=
| Say (msg : string)
| Ffmpeg (audio_path wav_path : string)
| GetSize (path : string)
| Whisper (audio_file_path : string)
| Diarize (audio_file_path : string)
| Save (path content : string)
| Remove (path : string).

(** The dictionary [whisper_model.transcribe] returns *)
Record WhisperResult := mkWhisper {
  wr_language : option string;
  wr_text : string;
  wr_segments : list RawSegment
}.

(** How the surroundings answer, given what was done so far: ffmpeg run
    by [subprocess.run(..., check=True)], [os.path.getsize], the Whisper
    model, the diarization pipeline, [open(path, 'w')] with its [write],
    [os.path.exists], [os.remove], the clock, and the character U+2192
    that [format_md] writes. *)
Record World : Type := mkWorld {
  w_ffmpeg : list Act -> string -> string -> outcome unit;
  w_getsize : list Act -> string -> outcome Z;
  w_whisper : list Act -> string -> outcome WhisperResult;
  w_diarize : list Act -> string -> outcome (list DiarizationTurn);
  w_save : list Act -> string -> string -> outcome unit;
  w_exists : list Act -> string -> bool;
  w_remove : list Act -> string -> outcome unit;
  w_now : list Act -> string;
  w_arrow : string
}.

Definition M (A : Type) : Type := Eff.M (list Act) A.

Definition perform {A} (act : Act) (ans : list Act -> outcome A) : M A :=
  fun history => (ans history, (history ++ [act])%list).

Definition raise {A} (msg : string) : M A := Eff.lift (Raised msg).

Definition say (msg : string) : M unit :=
  perform (Say msg) (fun _ => Returned tt).

Definition ffmpeg (w : World) (audio_path wav_path : string) : M unit :=
  perform (Ffmpeg audio_path wav_path)
          (fun h => w_ffmpeg w h audio_path wav_path).

Definition get_file_size (w : World) (path : string) : M string :=
  perform (GetSize path) (fun h => Sizes.get_file_size (w_getsize w h path)).

Definition transcribe (w : World) (audio_file_path : string)
  : M WhisperResult :=
  perform (Whisper audio_file_path) (fun h => w_whisper w h audio_file_path).

(** Calling the pipeline: what it does is handed on, for the [try] of
    the alignment to deal with. *)
Definition diarize (w : World) (audio_file_path : string)
  : M (outcome (list DiarizationTurn)) :=
  perform (Diarize audio_file_path)
          (fun h => Returned (w_diarize w h audio_file_path)).

Definition save (w : World) (path content : string) : M unit :=
  perform (Save path content) (fun h => w_save w h path content).

Definition remove (w : World) (path : string) : M unit :=
  perform (Remove path) (fun h => w_remove w h path).

(** [os.path.exists] and [datetime.now()] only look. *)
Definition path_exists (w : World) (path : string) : M bool :=
  fun history => (Returned (w_exists w history path), history).

Definition now (w : World) : M string :=
  fun history => (Returned (w_now w history), history).

(** The value of [wav_path] from the first test on: the path of the
    temporary file for an MP3, [None] otherwise. *)
Definition wav_path_of (audio_path : string) : option string :=
  if endswith (lower audio_path) ".mp3"
  then Some (before_last_dot audio_path ++ "_temp.wav")
  else None.

(** [if wav_path and os.path.exists(wav_path): os.remove(wav_path)] *)
Definition cleanup (w : World) (wav_path : option string) : M unit :=
  match wav_path with
  | Some p =>
      if is_empty p then Eff.ret tt
      else (found <- path_exists w p ;;
            if found then remove w p else Eff.ret tt)%eff
  | None => Eff.ret tt
  end.

(** The alignment, with the call of the pipeline and the warning *)
Definition speakers (w : World) (has_pipeline : bool)
    (audio_file_path : string) (segments : list RawSegment)
  : M (list AlignedSegment) :=
  if has_pipeline then
    (run <- diarize w audio_file_path ;;
     match run with
     | Raised e => say ("Warning: Speaker diarization failed: " ++ e)
     | Returned _ => Eff.ret tt
     end ;;;
     Eff.ret (snd (segments_with_speakers segments (Some run))))%eff
  else Eff.ret (snd (segments_with_speakers segments None)).

(** The name the transcript files are made from *)
Definition transcript_stem (audio_path : string) : string :=
  let filename := Batch.splitext_root (Batch.basename audio_path) in
  if endswith filename "_temp"
  then take (String.length filename - 5) filename
  else filename.

Definition duration_of (segments : list RawSegment) : string :=
  match segments with
  | [] => "00:00:00"
  | s :: rest => format_timestamp (raw_end (last rest s))
  end.

Definition preview_of (full_text : string) : string :=
  if (100 <? String.length full_text)%nat then take 100 full_text
  else full_text.

(** The body of the [try].  Of what is printed only the warning of the
    alignment is kept: the progress lines and the times are left out. *)
Definition transcribe_body (w : World) (has_pipeline : bool)
    (audio_path output_folder output_format : string)
  : M (string * string * string) :=
  (audio_file_path <-
     match wav_path_of audio_path with
     | Some wav_path =>
         ffmpeg w audio_path wav_path ;;;
         _ <- get_file_size w wav_path ;;
         Eff.ret wav_path
     | None => Eff.ret audio_path
     end ;;
   result <- transcribe w audio_file_path ;;
   let language := match wr_language result with
                   | Some l => l
                   | None => "unknown"
                   end in
   let full_text := wr_text result in
   segments_with_speakers <-
     speakers w has_pipeline audio_file_path (wr_segments result) ;;
   let filename := transcript_stem audio_path in
   let video_filename :=
     Search.remove_all ".mp3" (Batch.basename audio_path) in
   let duration := duration_of (wr_segments result) in
   paths_txt <-
     (if Batch.one_of output_format ["txt"; "both"]
      then
        let transcript_path_txt :=
          Batch.path_join output_folder (filename ++ "_transcript.txt") in
        save w transcript_path_txt
             (format_txt video_filename language duration
                segments_with_speakers full_text) ;;;
        Eff.ret [transcript_path_txt]
      else Eff.ret []) ;;
   transcript_paths <-
     (if Batch.one_of output_format ["md"; "both"]
      then
        let transcript_path_md :=
          Batch.path_join output_folder (filename ++ "_transcript.md") in
        generated <- now w ;;
        save w transcript_path_md
             (FormatterMd.format_md (w_arrow w) generated video_filename
                language duration segments_with_speakers full_text) ;;;
        Eff.ret (paths_txt ++ [transcript_path_md])%list
      else Eff.ret paths_txt) ;;
   cleanup w (wav_path_of audio_path) ;;;
   match transcript_paths with
   | first :: _ => Eff.ret (first, preview_of full_text, language)
   | [] => raise "list index out of range"
   end)%eff.

Definition transcribe_audio_with_whisper (w : World) (has_pipeline : bool)
    (audio_path output_folder output_format : string)
  : M (string * string * string) :=
  Eff.try_except
    (transcribe_body w has_pipeline audio_path output_folder output_format)
    (fun e =>
       (cleanup w (wav_path_of audio_path) ;;;
        raise ("Error transcribing " ++ audio_path ++ ": " ++ e))%eff).

(** What a run adds to the history *)
Definition added_by {A} (m : M A) (P : list Act -> Prop) : Prop :=
  forall history, exists added,
    snd (m history) = (history ++ added)%list /\ P added.

(** Every act of a run satisfies [P]. *)
Definition keeps {A} (P : Act -> Prop) (m : M A) : Prop :=
  added_by m (Forall P).

(** The only file removed is the temporary one, and ffmpeg is run on the
    given audio to make it. *)
Definition removes_only (audio_path : string) (act : Act) : Prop :=
  match act with
  | Remove p => wav_path_of audio_path = Some p
  | Ffmpeg a b => a = audio_path /\ wav_path_of audio_path = Some b
  | _ => True
  end.

(** The files written in a history, in order *)
Definition saves (history : list Act) : list (string * string) :=
  flat_map (fun act => match act with
                       | Save p content => [(p, content)]
                       | _ => []
                       end) history.

End Studio.

(* ================================================================== *)
(** * search_engine.py: indexing a folder *)
(* ================================================================== *)

Module Indexer.
Import PyStr PathStr Search.

(** [basename] in the loop that removes duplicates *)
Definition base_of (file_path : string) : string :=
  remove_all "_transcript.md" (remove_all "_transcript.txt" file_path).

(** [txt_path] in the same loop *)
Definition txt_path_of (file_path : string) : string :=
  replace "_transcript.md" "_transcript.txt" file_path.

(** The loop that removes duplicates, from the file it is at;
    [seen_basenames] is used for membership only. *)
Fixpoint unique_loop (env : Env) (transcript_files : list string)
    (seen_basenames unique_files : list string) : IO.M (list string) :=
  match transcript_files with
  | [] => Eff.ret unique_files
  | file_path :: rest =>
      let basename := base_of file_path in
      if existsb (String.eqb basename) seen_basenames
      then unique_loop env rest seen_basenames unique_files
      else
        (found <- IO.path_exists env (txt_path_of file_path) ;;
         unique_loop env rest (seen_basenames ++ [basename])%list
           (unique_files
            ++ [if found then txt_path_of file_path else file_path])%list)%eff
  end.

(** [self.embedding_model.encode(text)]: it returns the vector that
    [env_encode] gives, or it raises; [encode_raises text] is the
    message of the exception when it does. *)
Definition encode (env : Env) (encode_raises : string -> option string)
    (text : string) : outcome Vec :=
  match encode_raises text with
  | Some e => Raised e
  | None => Returned (env_encode env text)
  end.

(** The state of the loop that reads the files: the history and the
    list [self.transcripts], which the loop appends to. *)
Definition St : Type := (list Event * list TranscriptRecord)%type.

Definition M (A : Type) : Type := Eff.M St A.

(** An action on the surroundings; the transcripts are left alone. *)
Definition io {A} (m : IO.M A) : M A :=
  fun st => let (o, h) := m (fst st) in (o, (h, snd st)).

(** [self.transcripts.append(transcript_data)] *)
Definition append_transcript (transcript_data : TranscriptRecord) : M unit :=
  Eff.modify (fun st => (fst st, snd st ++ [transcript_data])%list).

Definition with_embedding (t : TranscriptRecord) (embedding : Vec)
  : TranscriptRecord :=
  mkRecord (file_path t) (file_name t) (language t) (segments t)
           (full_text t) (Some embedding).

Fixpoint set_last_embedding (l : list TranscriptRecord) (embedding : Vec)
  : list TranscriptRecord :=
  match l with
  | [] => []
  | t :: l' =>
      match l' with
      | [] => [with_embedding t embedding]
      | _ => t :: set_last_embedding l' embedding
      end
  end.

(** [transcript_data['embedding'] = embedding]: the dictionary written to
    is the one that was just appended, the last of the list. *)
Definition set_embedding (embedding : Vec) : M unit :=
  Eff.modify (fun st => (fst st, set_last_embedding (snd st) embedding)).

(** One turn of the loop that reads the files.  The record is appended
    before the embedding is asked for, so a record stays without
    embedding, and the error is printed, when [encode] raises. *)
Definition index_one (env : Env) (encode_raises : string -> option string)
    (with_embeddings : bool) (file_path : string) : M unit :=
  Eff.try_except
    (content <- io (Batch.read_file env file_path) ;;
     let transcript_data := _parse_transcript content file_path in
     append_transcript transcript_data ;;;
     if with_embeddings
     then embedding <- Eff.lift (encode env encode_raises
                                   (full_text transcript_data)) ;;
          set_embedding embedding
     else Eff.ret tt)%eff
    (fun e => io (IO.print ("Error indexing " ++ file_path ++ ": " ++ e))).

Definition index_loop (env : Env) (encode_raises : string -> option string)
    (with_embeddings : bool) (unique_files : list string) : M unit :=
  Eff.for_each unique_files (index_one env encode_raises with_embeddings).

(** The body of [index_transcripts]; [glob_txt] and [glob_md] are what
    the two calls of [output_path.glob] yield. *)
Definition index_body (env : Env) (encode_raises : string -> option string)
    (with_embeddings : bool) (output_folder : string)
    (glob_txt glob_md : list string) : M unit :=
  (Eff.modify (fun st : St => (fst st, [])) ;;;
   found <- io (IO.path_exists env output_folder) ;;
   if negb found then Eff.ret tt
   else
     unique_files <- io (unique_loop env (glob_txt ++ glob_md)%list [] []) ;;
     index_loop env encode_raises with_embeddings unique_files ;;;
     (fun st : St =>
        io (IO.print ("Indexed " ++ Batch.str_of_nat (List.length (snd st))
                      ++ " transcripts")) st))%eff.

(** [index_transcripts] on the engine [self]: the engine with its new
    list of transcripts is returned. *)
Definition index_transcripts (env : Env)
    (encode_raises : string -> option string)
    (self : TranscriptSearchEngine) (output_folder : string)
    (glob_txt glob_md : list string) : IO.M TranscriptSearchEngine :=
  fun history =>
    match index_body env encode_raises (embeddings_available self)
            output_folder glob_txt glob_md (history, transcripts self) with
    | (Returned _, (history', transcripts')) =>
        (Returned (mkEngine (llm_processor self) transcripts'
                            (embeddings_available self)), history')
    | (Raised e, (history', _)) => (Raised e, history')
    end.

Definition lacks_embedding (t : TranscriptRecord) : bool :=
  match embedding t with
  | None => true
  | Some _ => false
  end.

(** The file that is read for a file of the folder: its txt form when
    there is one *)
Definition chosen (env : Env) (history : list Event) (file_path : string)
  : string :=
  if env_exists env history (txt_path_of file_path)
  then txt_path_of file_path else file_path.

(** The lines printed in a history *)
Definition printed (history : list Event) : list string :=
  flat_map (fun ev => match ev with
                      | Print msg => [msg]
                      | _ => []
                      end) history.

End Indexer.

(* ================================================================== *)
(** * batch_processor.py: loading the Whisper model *)
(* ================================================================== *)

Module Loader.
Import PyStr.

(** What [load_whisper_model] does to its surroundings.  Of what it
    prints the first line is kept; the lines about the device, which
    hold characters outside the strings here, are left out. *)
Inductive LoadAct : Type :=
| Tell (msg : string)
| LoadModel (model_size device : string).

(** The machine: [torch.cuda.is_available()],
    [torch.backends.mps.is_available()] and what
    [whisper.load_model(model_size, device=device)] does. *)
Record Machine (Model : Type) : Type := mkMachine {
  cuda_available : bool;
  mps_available : bool;
  load_model : list LoadAct -> string -> string -> outcome Model
}.
Arguments cuda_available {Model} _.
Arguments mps_available {Model} _.
Arguments load_model {Model} _ _ _ _.

Definition model_sizes : list (string * string) :=
  [ ("tiny", "39 MB"); ("base", "74 MB"); ("small", "244 MB");
    ("medium", "769 MB"); ("large", "2.9 GB") ].

(** [d.get(key, default)] *)
Fixpoint get_or (d : list (string * string)) (key default : string)
  : string :=
  match d with
  | [] => default
  | (k, v) :: rest => if (k =? key)%string then v else get_or rest key default
  end.

Definition preferred_device {Model} (mc : Machine Model) : string :=
  if cuda_available mc then "cuda"
  else if mps_available mc then "mps"
  else "cpu".

Definition load {Model} (mc : Machine Model) (model_size device : string)
  : Eff.M (list LoadAct) Model :=
  fun history =>
    (load_model mc history model_size device,
     (history ++ [LoadModel model_size device])%list).

Definition loading_line (model_size : string) : string :=
  "  Loading Whisper '" ++ model_size ++ "' model ("
  ++ get_or model_sizes model_size "unknown size" ++ ")...".

Definition load_whisper_model {Model} (mc : Machine Model)
    (model_size : string) : Eff.M (list LoadAct) Model :=
  (Eff.modify (fun history => history ++ [Tell (loading_line model_size)])%list
   ;;;
   let device := preferred_device mc in
   Eff.try_except
     (load mc model_size device)
     (fun e =>
        if negb (device =? "cpu")%string
        then load mc model_size "cpu"
        else Eff.lift (Raised e)))%eff.

End Loader.

(* ================================================================== *)
(** * model_config.py: clearing the caches *)
(* ================================================================== *)

Module ModelCache.
Import PyStr.

Inductive CacheAct : Type :=
| Rmtree (path : string)
| Mkdir (path : string).

(** The four directories of a [ModelConfig] *)
Record ModelConfig := mkConfig {
  whisper_path : string;
  pyannote_path : string;
  sentence_transformers_path : string;
  ollama_path : string
}.

(** [path.exists()], [shutil.rmtree(path)] and
    [path.mkdir(parents=True, exist_ok=True)] *)
Record Disk : Type := mkDisk {
  d_exists : list CacheAct -> string -> bool;
  d_rmtree : list CacheAct -> string -> outcome unit;
  d_mkdir : list CacheAct -> string -> outcome unit
}.

Definition M (A : Type) : Type := Eff.M (list CacheAct) A.

Definition path_exists (disk : Disk) (path : string) : M bool :=
  fun history => (Returned (d_exists disk history path), history).

Definition rmtree (disk : Disk) (path : string) : M unit :=
  fun history => (d_rmtree disk history path, (history ++ [Rmtree path])%list).

Definition mkdir (disk : Disk) (path : string) : M unit :=
  fun history => (d_mkdir disk history path, (history ++ [Mkdir path])%list).

Definition paths_to_clear (self : ModelConfig) : list (string * string) :=
  [ ("whisper", whisper_path self);
    ("pyannote", pyannote_path self);
    ("sentence_transformers", sentence_transformers_path self);
    ("ollama", ollama_path self) ].

(** [d[key]] for a key that may be missing *)
Fixpoint lookup (d : list (string * string)) (key : string)
  : option string :=
  match d with
  | [] => None
  | (k, v) :: rest => if (k =? key)%string then Some v else lookup rest key
  end.

(** The loop that clears everything *)
Fixpoint clear_all (disk : Disk) (items : list (string * string)) : M unit :=
  match items with
  | [] => Eff.ret tt
  | (_, path) :: rest =>
      (found <- path_exists disk path ;;
       (if found then rmtree disk path ;;; mkdir disk path
        else Eff.ret tt) ;;;
       clear_all disk rest)%eff
  end.

Definition clear_cache (disk : Disk) (self : ModelConfig)
    (model_type : option string) : M string :=
  let unknown (t : string) : M string :=
    Eff.ret ("Unknown model type: " ++ t) in
  match model_type with
  | Some t =>
      if is_empty t
      then (clear_all disk (paths_to_clear self) ;;;
            Eff.ret "Cleared all model caches")%eff
      else
        match lookup (paths_to_clear self) t with
        | Some path =>
            (found <- path_exists disk path ;;
             if found
             then rmtree disk path ;;;
                  mkdir disk path ;;;
                  Eff.ret ("Cleared " ++ t ++ " cache")
             else unknown t)%eff
        | None => unknown t
        end
  | None =>
      (clear_all disk (paths_to_clear self) ;;;
       Eff.ret "Cleared all model caches")%eff
  end.

(** The directory an act is about *)
Definition act_path (act : CacheAct) : string :=
  match act with
  | Rmtree p => p
  | Mkdir p => p
  end.

End ModelCache.

(* ================================================================== *)
(** * verify_model.py *)
(* ================================================================== *)

Module VerifyModel.
Import PyStr PathStr.

(** What the function looks at: [os.path.exists], [os.listdir(cache_dir)]
    and [os.path.getsize].  It changes nothing. *)
Record Files : Type := mkFiles {
  f_exists : string -> bool;
  f_listdir : outcome (list string);
  f_getsize : string -> outcome Z
}.

(** The dictionary returned; a key that is absent or [None] is [None]. *)
Record Status := mkStatus {
  st_exists : bool;
  st_path : option string;
  st_cache_dir : option string;
  st_size : option string;
  st_size_bytes : option Z;
  st_message : string
}.


(** [f"{size_bytes / (1024 * 1024):.1f} MB"] *)
Definition size_mb (size_bytes : Z) : string :=
  Sizes.format_1f (inject_Z size_bytes / inject_Z (1024 * 1024)) ++ " MB".

(** The dictionary for a model file that was found *)
Definition found (files : Files) (cache_dir model_path message : string)
  : outcome Status :=
  match f_getsize files model_path with
  | Returned size_bytes =>
      Returned (mkStatus true (Some model_path) (Some cache_dir)
                         (Some (size_mb size_bytes)) (Some size_bytes)
                         message)
  | Raised e => Raised e
  end.



End VerifyModel.

(* ================================================================== *)
(** * Sample surroundings *)
(* ================================================================== *)

Module Samples.

(** Files exist as [found] says, the stages before the language model
    succeed, the provider answers every request with [answer], and the
    similarity of two vectors is the first component of the second. *)
Definition env_with (found : string -> bool)
    (answer : outcome (option string)) (encode : string -> Vec) : Env :=
  mkEnv (fun _ p => found p)
        (fun _ p _ _ => Returned (p ++ ".mp3"))
        (fun _ p _ _ => Returned (p ++ "_transcript.txt", "preview", "en"))
        (fun _ _ => Returned "1.0 KB")
        (fun _ _ => Returned "text of the transcript")
        (fun _ _ _ => Returned tt)
        (fun _ _ _ => answer)
        (fun _ => "2024-01-01 00:00:00")
        encode
        (fun _ b => match b with x :: _ => x | [] => 0%Q end).

Definition no_embedding : string -> Vec := fun _ => [].

Definition openai : LLM.LLMProcessor :=
  LLM.mkLLM "openai" None (Some "gpt-4-turbo-preview") "clean".

Definition inert : LLM.LLMProcessor := LLM.mkLLM "none" None None "clean".

End Samples.

(* ================================================================== *)
(** * Facts about strings, lists and effects *)
(* ================================================================== *)

Module StrFacts.
Import PyStr.

Lemma append_nil_r (s : string) : s ++ EmptyString = s.
Proof. induction s as [|a s IH]; simpl; [reflexivity | now rewrite IH]. Qed.

Lemma append_assoc (s t u : string) : (s ++ t) ++ u = s ++ t ++ u.
Proof. induction s as [|a s IH]; simpl; [reflexivity | now rewrite IH]. Qed.

Lemma length_append (s t : string) :
  String.length (s ++ t) = String.length s + String.length t.
Proof. induction s as [|a s IH]; simpl; [reflexivity | now rewrite IH]. Qed.


Lemma is_empty_false (s : string) : is_empty s = false <-> s <> EmptyString.
Proof. destruct s; simpl; split; intros H; congruence. Qed.

Lemma append_eq_nil (s t : string) :
  s ++ t = EmptyString -> s = EmptyString /\ t = EmptyString.
Proof. destruct s; simpl; intros H; [auto | discriminate]. Qed.

(** ** Stripping *)

Lemma rstrip_snoc_space (s : string) (c : ascii) :
  is_space c = true -> rstrip (s ++ String c EmptyString) = rstrip s.
Proof.
  intros Hc. induction s as [|a s IH]; simpl.
  - now rewrite Hc.
  - now rewrite IH.
Qed.

Lemma strip_snoc_space (s : string) (c : ascii) :
  is_space c = true -> strip (s ++ String c EmptyString) = strip s.
Proof. intros Hc. unfold strip. now rewrite rstrip_snoc_space. Qed.

Lemma rstrip_rstrip (s : string) : rstrip (rstrip s) = rstrip s.
Proof.
  induction s as [|c s IH]; cbn [rstrip]; [reflexivity|].
  destruct (rstrip s) as [|d r] eqn:E.
  - destruct (is_space c) eqn:Hc; cbn [rstrip]; [reflexivity|].
    now rewrite Hc.
  - cbn [rstrip]. cbn [rstrip] in IH. now rewrite IH.
Qed.

Lemma lstrip_lstrip (s : string) : lstrip (lstrip s) = lstrip s.
Proof.
  induction s as [|c s IH]; cbn [lstrip]; [reflexivity|].
  destruct (is_space c) eqn:Hc; [exact IH|].
  cbn [lstrip]. now rewrite Hc.
Qed.

Lemma rstrip_lstrip (s : string) :
  rstrip s = s -> rstrip (lstrip s) = lstrip s.
Proof.
  induction s as [|c s IH]; cbn [lstrip]; [reflexivity|].
  intros H. destruct (is_space c) eqn:Hc; [|exact H].
  apply IH. cbn [rstrip] in H. destruct (rstrip s) as [|d r].
  - rewrite Hc in H. discriminate.
  - now injection H.
Qed.

(** Stripping twice is stripping once. *)
Lemma strip_strip (s : string) : strip (strip s) = strip s.
Proof.
  unfold strip.
  rewrite (rstrip_lstrip (rstrip s) (rstrip_rstrip s)).
  apply lstrip_lstrip.
Qed.

Lemma all_chars_lstrip (p : ascii -> bool) (s : string) :
  all_chars p s = true -> all_chars p (lstrip s) = true.
Proof.
  induction s as [|c s IH]; cbn [lstrip all_chars]; [reflexivity|].
  intros H. destruct (is_space c); [|exact H].
  apply andb_true_iff in H. now apply IH.
Qed.

Lemma all_chars_rstrip (p : ascii -> bool) (s : string) :
  all_chars p s = true -> all_chars p (rstrip s) = true.
Proof.
  induction s as [|c s IH]; cbn [rstrip all_chars]; [reflexivity|].
  intros H. apply andb_true_iff in H. destruct H as [Hc Hs].
  specialize (IH Hs). destruct (rstrip s) as [|d r].
  - destruct (is_space c); cbn [all_chars]; [reflexivity|].
    now rewrite Hc.
  - cbn [all_chars] in *. now rewrite Hc, IH.
Qed.

Lemma all_chars_strip (p : ascii -> bool) (s : string) :
  all_chars p s = true -> all_chars p (strip s) = true.
Proof. intros H. now apply all_chars_lstrip, all_chars_rstrip. Qed.

Lemma all_chars_append (p : ascii -> bool) (s t : string) :
  all_chars p (s ++ t) = all_chars p s && all_chars p t.
Proof.
  induction s as [|a s IH]; cbn [append all_chars]; [reflexivity|].
  now rewrite IH, andb_assoc.
Qed.

Lemma all_chars_impl (p q : ascii -> bool) (s : string) :
  (forall c, p c = true -> q c = true) ->
  all_chars p s = true -> all_chars q s = true.
Proof.
  intros I. induction s as [|a s IH]; cbn [all_chars]; [reflexivity|].
  intros H. apply andb_true_iff in H. destruct H as [Ha Hs].
  now rewrite (I a Ha), IH.
Qed.

(** ** Prefixes and occurrences *)

Lemma prefix_nil (s : string) : String.prefix EmptyString s = true.
Proof. destruct s; reflexivity. Qed.

Lemma prefix_append (p s : string) : String.prefix p (p ++ s) = true.
Proof.
  induction p as [|a p IH]; simpl.
  - apply prefix_nil.
  - destruct (ascii_dec a a); [exact IH | congruence].
Qed.

Lemma prefix_split (p s : string) :
  String.prefix p s = true -> exists r, s = p ++ r.
Proof.
  revert s. induction p as [|a p IH]; intros s H.
  - exists s. reflexivity.
  - destruct s as [|b s]; simpl in H; [discriminate|].
    destruct (ascii_dec a b) as [->|]; [|discriminate].
    destruct (IH s H) as [r ->]. exists r. reflexivity.
Qed.

Lemma contains_prefix (n h : string) :
  String.prefix n h = true -> contains n h = true.
Proof.
  destruct h; intros H; cbn [contains].
  - exact H.
  - rewrite H. reflexivity.
Qed.

Lemma contains_skip (n u h : string) :
  contains n h = true -> contains n (u ++ h) = true.
Proof.
  intros H. induction u as [|a u IH]; [exact H|].
  cbn [append contains]. rewrite IH. apply orb_true_r.
Qed.

Lemma contains_middle (n u v : string) : contains n (u ++ n ++ v) = true.
Proof. apply contains_skip, contains_prefix, prefix_append. Qed.

Lemma contains_spec (n h : string) :
  contains n h = true <-> exists u v, h = u ++ n ++ v.
Proof.
  split.
  - induction h as [|a h IH]; intros H; cbn [contains] in H.
    + destruct n; [|discriminate].
      exists EmptyString, EmptyString. reflexivity.
    + apply orb_true_iff in H. destruct H as [H|H].
      * apply prefix_split in H. destruct H as [r Hr].
        exists EmptyString, r. exact Hr.
      * destruct (IH H) as (u & v & ->). exists (String a u), v. reflexivity.
  - intros (u & v & ->). apply contains_middle.
Qed.

End StrFacts.

Module ListFacts.

Lemma fold_left_snoc {A B} (f : B -> list A) (l : list B) (acc : list A) :
  fold_left (fun acc x => (acc ++ f x)%list) l acc
  = (acc ++ flat_map f l)%list.
Proof.
  revert acc. induction l as [|x l IH]; intros acc; simpl.
  - now rewrite app_nil_r.
  - rewrite IH. now rewrite <- app_assoc.
Qed.

Lemma fold_left_ext {A B} (f g : A -> B -> A) (l : list B) (a : A) :
  (forall a x, f a x = g a x) -> fold_left f l a = fold_left g l a.
Proof.
  intros E. revert a. induction l as [|x l IH]; intros a; simpl.
  - reflexivity.
  - now rewrite E, IH.
Qed.

Lemma flat_map_filter_map {A B} (p : A -> bool) (f : A -> B) (l : list A) :
  flat_map (fun x => if p x then [f x] else []) l = map f (filter p l).
Proof.
  induction l as [|x l IH]; simpl; [reflexivity|].
  destruct (p x); simpl; now rewrite IH.
Qed.

Lemma flat_map_singleton {A B} (f : A -> B) (l : list A) :
  flat_map (fun x => [f x]) l = map f l.
Proof. induction l as [|x l IH]; simpl; [reflexivity | now rewrite IH]. Qed.

Lemma in_firstn {A} (n : nat) (l : list A) (y : A) :
  In y (firstn n l) -> In y l.
Proof.
  revert n. induction l as [|z l IH]; intros [|n]; cbn; try tauto.
  intros [H|H]; [now left | right; now apply (IH n)].
Qed.

End ListFacts.

Module EffFacts.

Lemma for_each_modify {S X} (f : X -> S -> S) (l : list X) (s : S) :
  Eff.for_each l (fun x => Eff.modify (f x)) s
  = (Returned tt, fold_left (fun s x => f x s) l s).
Proof.
  revert s. induction l as [|x l IH]; intros s; simpl.
  - reflexivity.
  - unfold Eff.bind, Eff.modify at 1. apply IH.
Qed.

Lemma total_ret {A} (a : A) : IO.total (Eff.ret a).
Proof. intros h. exists a. reflexivity. Qed.

Lemma total_bind {A B} (m : IO.M A) (k : A -> IO.M B) :
  IO.total m -> (forall a, IO.total (k a)) -> IO.total (Eff.bind m k).
Proof.
  intros Hm Hk h. unfold Eff.bind. destruct (Hm h) as [a Ha].
  destruct (m h) as [[a'|e] h']; cbn [fst] in Ha; [|discriminate].
  apply Hk.
Qed.

(** A handler that never raises makes the whole [try] never raise. *)
Lemma total_try_except {A} (body : IO.M A) (handler : string -> IO.M A) :
  (forall e, IO.total (handler e)) -> IO.total (Eff.try_except body handler).
Proof.
  intros Hh h. unfold Eff.try_except.
  destruct (body h) as [[a|e] h'].
  - exists a. reflexivity.
  - apply Hh.
Qed.

Lemma total_print (msg : string) : IO.total (IO.print msg).
Proof. intros h. exists tt. reflexivity. Qed.

Lemma total_path_exists (env : Env) (p : string) :
  IO.total (IO.path_exists env p).
Proof. intros h. eexists. reflexivity. Qed.

Lemma appends_ret {A} (a : A) : IO.appends (Eff.ret a).
Proof. intros h. exists []. cbn. now rewrite app_nil_r. Qed.

Lemma appends_bind {A B} (m : IO.M A) (k : A -> IO.M B) :
  IO.appends m -> (forall a, IO.appends (k a)) -> IO.appends (Eff.bind m k).
Proof.
  intros Hm Hk h. unfold Eff.bind. destruct (Hm h) as [x Hx].
  destruct (m h) as [[a|e] h']; cbn [snd] in Hx; subst h'.
  - destruct (Hk a (h ++ x)%list) as [y Hy]. exists (x ++ y)%list.
    now rewrite Hy, app_assoc.
  - exists x. reflexivity.
Qed.

Lemma appends_try_except {A} (body : IO.M A) (handler : string -> IO.M A) :
  IO.appends body -> (forall e, IO.appends (handler e)) ->
  IO.appends (Eff.try_except body handler).
Proof.
  intros Hb Hh h. unfold Eff.try_except. destruct (Hb h) as [x Hx].
  destruct (body h) as [[a|e] h']; cbn [snd] in Hx; subst h'.
  - exists x. reflexivity.
  - destruct (Hh e (h ++ x)%list) as [y Hy]. exists (x ++ y)%list.
    now rewrite Hy, app_assoc.
Qed.

Lemma appends_perform {A} (ev : Event) (ans : list Event -> outcome A) :
  IO.appends (IO.perform ev ans).
Proof. intros h. exists [ev]. reflexivity. Qed.

Lemma appends_print (msg : string) : IO.appends (IO.print msg).
Proof. apply appends_perform. Qed.

Lemma appends_path_exists (env : Env) (p : string) :
  IO.appends (IO.path_exists env p).
Proof. intros h. exists []. cbn. now rewrite app_nil_r. Qed.

Lemma appends_now (env : Env) : IO.appends (IO.now env).
Proof. intros h. exists []. cbn. now rewrite app_nil_r. Qed.

End EffFacts.

(* ================================================================== *)
(** * Timestamps *)
(* ================================================================== *)

Module TimestampFacts.
Import PyStr PyNum Aligner.

Lemma Qfloor_div_pos (q : Q) (d : positive) :
  Qfloor (q / inject_Z (Zpos d))%Q = (Qfloor q / Zpos d)%Z.
Proof.
  destruct q as [n m]. unfold Qdiv, Qinv, Qmult, Qfloor, inject_Z; simpl.
  rewrite Z.mul_1_r, Pos2Z.inj_mul. rewrite Z.div_div by lia. reflexivity.
Qed.

Lemma Qfloor_sub_Z (q : Q) (k : Z) :
  Qfloor (q - inject_Z k)%Q = (Qfloor q - k)%Z.
Proof.
  destruct q as [n m]. unfold Qminus, Qplus, Qopp, Qfloor, inject_Z; simpl.
  rewrite Pos.mul_1_r, Z.mul_1_r.
  replace (n + - k * Z.pos m)%Z with (n + (- k) * Z.pos m)%Z by lia.
  rewrite Z.div_add by lia. lia.
Qed.

Lemma int_inject_Z (z : Z) : int (inject_Z z) = z.
Proof.
  unfold int. destruct (Qle_bool 0 (inject_Z z)).
  - apply Qfloor_Z.
  - apply Qceiling_Z.
Qed.

Lemma int_nonneg (q : Q) : (0 <= q)%Q -> int q = Qfloor q.
Proof.
  intros H. unfold int. apply Qle_bool_iff in H. now rewrite H.
Qed.

Lemma floordiv_pos (q : Q) (d : positive) :
  floordiv q (inject_Z (Zpos d)) = inject_Z (Qfloor q / Zpos d).
Proof. unfold floordiv. now rewrite Qfloor_div_pos. Qed.

Lemma Qfloor_pymod (q : Q) (d : positive) :
  Qfloor (pymod q (inject_Z (Zpos d))) = (Qfloor q mod Zpos d)%Z.
Proof.
  unfold pymod. rewrite floordiv_pos.
  assert (E : (q - inject_Z (Z.pos d) * inject_Z (Qfloor q / Z.pos d)
               == q - inject_Z (Z.pos d * (Qfloor q / Z.pos d)))%Q).
  { rewrite inject_Z_mult. reflexivity. }
  rewrite E, Qfloor_sub_Z. rewrite Z.mod_eq by lia. reflexivity.
Qed.

Lemma pymod_nonneg (q : Q) (d : positive) :
  (0 <= q)%Q -> (0 <= pymod q (inject_Z (Zpos d)))%Q.
Proof.
  intros H. unfold pymod. rewrite floordiv_pos.
  assert (L : (inject_Z (Z.pos d) * inject_Z (Qfloor q / Z.pos d) <= q)%Q).
  { rewrite <- inject_Z_mult.
    apply Qle_trans with (inject_Z (Qfloor q)); [|apply Qfloor_le].
    rewrite <- Zle_Qle. apply Z.mul_div_le. lia. }
  unfold Qminus. rewrite <- (Qplus_opp_r q) at 1.
  apply Qplus_le_r. apply Qopp_le_compat. exact L.
Qed.

(** The three fields are the hours, minutes and seconds of the whole
    number of seconds. *)
Lemma format_timestamp_fields (seconds : Q) :
  (0 <= seconds)%Q ->
  format_timestamp seconds
  = pad2 (Qfloor seconds / 3600) ++ ":"
    ++ pad2 ((Qfloor seconds / 60) mod 60) ++ ":"
    ++ pad2 (Qfloor seconds mod 60).
Proof.
  intros H. unfold format_timestamp.
  change 3600%Q with (inject_Z (Zpos 3600)).
  change 60%Q with (inject_Z (Zpos 60)).
  rewrite !floordiv_pos, !int_inject_Z.
  rewrite (int_nonneg _ (pymod_nonneg _ _ H)).
  rewrite !Qfloor_pymod.
  replace ((Qfloor seconds mod 3600) / 60)%Z
    with ((Qfloor seconds / 60) mod 60)%Z; [reflexivity|].
  change 3600%Z with (60 * 60)%Z.
  rewrite Z.rem_mul_r by lia.
  rewrite Z.mul_comm, Z.div_add by lia.
  rewrite (Z.div_small (Qfloor seconds mod 60)); [lia|].
  apply Z.mod_pos_bound; lia.
Qed.

Lemma below_100 (z : Z) :
  (0 <= z < 100)%Z -> In z (map Z.of_nat (seq 0 100)).
Proof.
  intros H. apply in_map_iff. exists (Z.to_nat z). split; [lia|].
  apply in_seq. lia.
Qed.

(** Two digits for every value below 100 *)
Lemma pad2_two_digits (z : Z) :
  (0 <= z < 100)%Z ->
  String.length (pad2 z) = 2 /\ all_chars is_digit (pad2 z) = true.
Proof.
  intros H. apply below_100 in H.
  assert (A : forallb (fun z => (String.length (pad2 z) =? 2)%nat
                                && all_chars is_digit (pad2 z))
                      (map Z.of_nat (seq 0 100)) = true)
    by (vm_compute; reflexivity).
  rewrite forallb_forall in A. specialize (A z H).
  apply andb_true_iff in A. destruct A as [A1 A2].
  apply Nat.eqb_eq in A1. auto.
Qed.

Lemma uint_digits (d : Decimal.uint) :
  all_chars is_digit (NilEmpty.string_of_uint d) = true.
Proof. induction d; cbn [NilEmpty.string_of_uint all_chars]; auto. Qed.

Lemma str_of_int_digits (z : Z) :
  (0 <= z)%Z -> all_chars is_digit (str_of_int z) = true.
Proof.
  intros H. unfold str_of_int, NilZero.string_of_int.
  destruct z as [|p|p]; [reflexivity| |lia].
  cbn [Z.to_int]. unfold NilZero.string_of_uint.
  destruct (Pos.to_uint p); try reflexivity; apply uint_digits.
Qed.

Lemma pad2_digits (z : Z) :
  (0 <= z)%Z -> all_chars is_digit (pad2 z) = true.
Proof.
  intros H. unfold pad2. destruct (_ <? 2)%nat; cbn [all_chars];
    now rewrite str_of_int_digits.
Qed.

(** The stamp of a non-negative time is made of digits and colons. *)
Lemma format_timestamp_stamp (seconds : Q) :
  (0 <= seconds)%Q -> Search.wf_stamp (format_timestamp seconds).
Proof.
  intros H. rewrite (format_timestamp_fields _ H).
  assert (Hn : (0 <= Qfloor seconds)%Z).
  { rewrite <- (Qfloor_Z 0). now apply Qfloor_resp_le. }
  assert (D : forall z, (0 <= z)%Z ->
                        all_chars Search.is_stamp_char (pad2 z) = true).
  { intros z Hz. apply (StrFacts.all_chars_impl is_digit); [|now apply pad2_digits].
    intros c Hc. unfold Search.is_stamp_char. now rewrite Hc. }
  split.
  - intros E. apply StrFacts.append_eq_nil in E. destruct E as [_ E].
    discriminate.
  - rewrite !StrFacts.all_chars_append.
    rewrite (D (Qfloor seconds / 3600)%Z) by (apply Z.div_pos; lia).
    rewrite (D ((Qfloor seconds / 60) mod 60)%Z)
      by (apply Z.mod_pos_bound; lia).
    rewrite (D (Qfloor seconds mod 60)%Z) by (apply Z.mod_pos_bound; lia).
    reflexivity.
Qed.

(** C9.  For a non-negative number of seconds the timestamp is the
    zero-padded hours, minutes and seconds of the number truncated to a
    whole second: the three fields add up to the floor of the input,
    which never exceeds the input, minutes and seconds take two digits
    each, below a hundred hours the whole stamp takes eight characters,
    and 59.9 seconds gives 00:00:59. *)
Theorem format_timestamp_truncates (seconds : Q) :
  (0 <= seconds)%Q ->
  let n := Qfloor seconds in
  let h := (n / 3600)%Z in
  let m := ((n / 60) mod 60)%Z in
  let s := (n mod 60)%Z in
  format_timestamp seconds = pad2 h ++ ":" ++ pad2 m ++ ":" ++ pad2 s
  /\ (0 <= h /\ 0 <= m < 60 /\ 0 <= s < 60)%Z
  /\ (3600 * h + 60 * m + s = n)%Z
  /\ (inject_Z n <= seconds < inject_Z (n + 1))%Q
  /\ String.length (pad2 m) = 2 /\ String.length (pad2 s) = 2
  /\ ((h < 100)%Z -> String.length (format_timestamp seconds) = 8)
  /\ format_timestamp (599 # 10) = "00:00:59".
Proof.
  intros H n h m s.
  assert (Hn : (0 <= n)%Z).
  { unfold n. rewrite <- (Qfloor_Z 0). now apply Qfloor_resp_le. }
  assert (Hh : (0 <= h)%Z) by (apply Z.div_pos; lia).
  assert (Hm : (0 <= m < 60)%Z) by (apply Z.mod_pos_bound; lia).
  assert (Hs : (0 <= s < 60)%Z) by (apply Z.mod_pos_bound; lia).
  assert (Lm : String.length (pad2 m) = 2) by (apply pad2_two_digits; lia).
  assert (Ls : String.length (pad2 s) = 2) by (apply pad2_two_digits; lia).
  split; [now apply format_timestamp_fields|].
  split; [auto|].
  split.
  { unfold h, m, s.
    pose proof (Z.div_mod n 60 ltac:(lia)).
    pose proof (Z.div_mod (n / 60) 60 ltac:(lia)).
    replace (n / 3600)%Z with (n / 60 / 60)%Z
      by (rewrite Z.div_div by lia; reflexivity).
    lia. }
  split; [split; [apply Qfloor_le | apply Qlt_floor]|].
  split; [exact Lm|]. split; [exact Ls|].
  split; [|vm_compute; reflexivity].
  intros Hlt. rewrite (format_timestamp_fields _ H).
  fold n h m s.
  assert (Lh : String.length (pad2 h) = 2) by (apply pad2_two_digits; lia).
  rewrite !StrFacts.length_append, Lh, Lm, Ls. reflexivity.
Qed.

Lemma format_timestamp_truncates_witness :
  (0 <= 599 # 10)%Q /\ format_timestamp (599 # 10) = "00:00:59".
Proof.
  assert (H : (0 <= 599 # 10)%Q) by (unfold Qle; simpl; lia).
  split; [exact H|].
  destruct (format_timestamp_truncates (599 # 10) H)
    as (_ & _ & _ & _ & _ & _ & _ & T).
  exact T.
Defined.

End TimestampFacts.

(* ================================================================== *)
(** * Speaker alignment *)
(* ================================================================== *)

Module AlignerFacts.
Import PyStr Aligner.

Lemma concat_trailing (l : list string) :
  String.concat EmptyString (map (fun x => x ++ " ") l)
  = match l with
    | [] => EmptyString
    | _ => join " " l ++ " "
    end.
Proof.
  induction l as [|x l IH]; [reflexivity|].
  destruct l as [|y l].
  - reflexivity.
  - cbn [map String.concat] in *. unfold join in *. cbn [String.concat] in *.
    rewrite IH. now rewrite !StrFacts.append_assoc.
Qed.

Lemma segment_text_fold (segments : list RawSegment) (ts te : Q)
    (acc : string) :
  fold_left
    (fun acc w =>
       if Qle_bool ts (raw_start w) && Qle_bool (raw_end w) te
       then acc ++ raw_text w ++ " " else acc)
    segments acc
  = acc ++ String.concat EmptyString
             (map (fun x => x ++ " ") (map raw_text (contained segments ts te))).
Proof.
  revert acc. induction segments as [|w l IH]; intros acc.
  - simpl. now rewrite StrFacts.append_nil_r.
  - cbn [fold_left contained filter]. rewrite IH. fold (contained l ts te).
    destruct (Qle_bool ts (raw_start w) && Qle_bool (raw_end w) te);
      [|reflexivity].
    cbn [map]. rewrite StrFacts.append_assoc.
    generalize (map (fun x => x ++ " ") (map raw_text (contained l ts te))).
    intros r. destruct r as [|y r]; cbn [String.concat].
    + now rewrite !StrFacts.append_nil_r.
    + now rewrite !StrFacts.append_assoc.
Qed.

(** The accumulated text and the space-joined text differ by a final
    space only. *)
Lemma strip_segment_text (segments : list RawSegment) (ts te : Q) :
  strip (segment_text segments ts te) = strip (space_joined segments ts te).
Proof.
  unfold segment_text. rewrite segment_text_fold. cbn [append].
  rewrite concat_trailing. unfold space_joined.
  destruct (map raw_text (contained segments ts te)) as [|x l] eqn:E.
  - reflexivity.
  - now apply StrFacts.strip_snoc_space.
Qed.

Lemma diarized_step_spec (segments : list RawSegment) (t : DiarizationTurn)
    (acc : list AlignedSegment) :
  diarized_step segments t acc
  = (Returned tt, (acc ++ turn_segment segments t)%list).
Proof.
  unfold diarized_step, turn_segment. rewrite strip_segment_text.
  destruct (is_empty _).
  - unfold Eff.ret. now rewrite app_nil_r.
  - reflexivity.
Qed.

Lemma diarized_loop_spec (segments : list RawSegment)
    (turns : list DiarizationTurn) (acc : list AlignedSegment) :
  Eff.for_each turns (diarized_step segments) acc
  = (Returned tt, (acc ++ flat_map (turn_segment segments) turns)%list).
Proof.
  revert acc. induction turns as [|t turns IH]; intros acc.
  - simpl. unfold Eff.ret. now rewrite app_nil_r.
  - cbn [Eff.for_each flat_map]. unfold Eff.bind.
    rewrite diarized_step_spec, IH. now rewrite <- app_assoc.
Qed.

Lemma fallback_loop_spec (segments : list RawSegment)
    (acc : list AlignedSegment) :
  fallback_loop segments acc
  = (Returned tt, (acc ++ map fallback_segment segments)%list).
Proof.
  unfold fallback_loop, append_segment.
  rewrite (EffFacts.for_each_modify
             (fun s acc => (acc ++ [fallback_segment s])%list)).
  rewrite (ListFacts.fold_left_snoc (fun s => [fallback_segment s])).
  now rewrite ListFacts.flat_map_singleton.
Qed.

(** C1, as the code has it.  When the diarization returns its turns, the
    aligned output is, turn by turn and in turn order, what [turn_segment]
    gives: for a turn whose contained raw segments (in their order) have a
    space-joined text that is not blank, exactly one segment carrying the
    formatted bounds of the turn, its speaker, and that text with the
    white space at both ends removed; for any other turn, nothing. *)
Theorem diarized_alignment (segments : list RawSegment)
    (turns : list DiarizationTurn) :
  segments_with_speakers segments (Some (Returned turns))
  = (Returned tt, flat_map (turn_segment segments) turns).
Proof.
  unfold segments_with_speakers, align, Eff.try_except, Eff.bind, Eff.lift.
  now rewrite diarized_loop_spec.
Qed.

(** C1, as stated, fails: the text of an aligned segment is not the
    space-joined text itself when that text starts or ends with white
    space (Whisper texts start with a space), and a turn whose contained
    text is not empty but blank is dropped. *)
Lemma diarized_text_not_exact_join :
  snd (segments_with_speakers [mkRaw 0 1 " hi"]
         (Some (Returned [mkTurn 0 2 "A"])))
  = [mkAligned "00:00:00" "00:00:02" "A" "hi"]
  /\ space_joined [mkRaw 0 1 " hi"] 0 2 = " hi"
  /\ "hi" <> " hi"
  /\ snd (segments_with_speakers [mkRaw 0 1 " "]
            (Some (Returned [mkTurn 0 2 "A"]))) = []
  /\ space_joined [mkRaw 0 1 " "] 0 2 <> EmptyString.
Proof.
  repeat split; try (vm_compute; reflexivity); vm_compute; discriminate.
Qed.

(** C3.  When the diarization pipeline is absent, or raises when it is
    called, the alignment returns normally and the output is exactly one
    segment per raw segment, in the order of the raw segments, each with
    the speaker SPEAKER_00. *)
Theorem fallback_alignment (segments : list RawSegment)
    (diarization_pipeline : option (outcome (list DiarizationTurn))) :
  (diarization_pipeline = None
   \/ exists e, diarization_pipeline = Some (Raised e)) ->
  let out := snd (segments_with_speakers segments diarization_pipeline) in
  fst (segments_with_speakers segments diarization_pipeline) = Returned tt
  /\ out = map fallback_segment segments
  /\ List.length out = List.length segments
  /\ Forall (fun a => speaker a = "SPEAKER_00") out.
Proof.
  intros H.
  assert (E : segments_with_speakers segments diarization_pipeline
              = (Returned tt, map fallback_segment segments)).
  { unfold segments_with_speakers, align.
    destruct H as [->|[e ->]].
    - now rewrite fallback_loop_spec.
    - unfold Eff.try_except, Eff.bind, Eff.lift.
      now rewrite fallback_loop_spec. }
  cbv zeta. rewrite E. cbn [fst snd].
  split; [reflexivity|]. split; [reflexivity|].
  split; [apply length_map|].
  apply Forall_forall. intros a Ha. apply in_map_iff in Ha.
  destruct Ha as (s0 & <- & _). reflexivity.
Qed.

Lemma fallback_alignment_witness :
  let failing : option (outcome (list DiarizationTurn)) :=
    Some (Raised "pipeline failed") in
  (failing = None \/ exists e, failing = Some (Raised e))
  /\ segments_with_speakers [mkRaw 0 1 " a"; mkRaw 1 2 " b"] failing
     = (Returned tt,
        [mkAligned "00:00:00" "00:00:01" "SPEAKER_00" "a";
         mkAligned "00:00:01" "00:00:02" "SPEAKER_00" "b"]).
Proof.
  intros failing.
  assert (H : failing = None \/ exists e, failing = Some (Raised e))
    by (right; exists "pipeline failed"; reflexivity).
  split; [exact H|].
  destruct (fallback_alignment [mkRaw 0 1 " a"; mkRaw 1 2 " b"] failing H)
    as (F & O & _).
  cbv zeta in O.
  destruct (segments_with_speakers _ failing) as [o l].
  cbn [fst snd] in F, O. rewrite F, O. vm_compute. reflexivity.
Defined.

End AlignerFacts.

(* ================================================================== *)
(** * The language-model gateway *)
(* ================================================================== *)

Module LLMFacts.
Import PyStr LLM.

Lemma request_run (env : Env) (backend prompt : string) (h : list Event) :
  request env backend prompt h
  = (env_generate env h backend prompt, (h ++ [Generate backend prompt])%list).
Proof. reflexivity. Qed.

(** What [process] does, case by case. *)
Lemma process_run (env : Env) (self : LLMProcessor)
    (transcript template language : string) (h : list Event) :
  let prompt := _build_prompt transcript template language in
  process env self transcript template language h
  = if (provider self =? "none")%string then (Returned None, h)
    else if (provider self =? "openai")%string
            || (provider self =? "gemini")%string
            || (provider self =? "claude")%string
            || (provider self =? "ollama")%string
    then match env_generate env h (provider self) prompt with
         | Returned r =>
             (Returned r, (h ++ [Generate (provider self) prompt])%list)
         | Raised e =>
             (Returned None,
              (h ++ [Generate (provider self) prompt;
                     Print ("Error processing with " ++ provider self
                            ++ ": " ++ e)])%list)
         end
    else (Returned None, h).
Proof.
  intros prompt. unfold process. fold prompt.
  destruct (provider self =? "none")%string; [reflexivity|].
  unfold Eff.try_except, _process_openai, _process_gemini, _process_claude,
    _process_ollama.
  destruct (provider self =? "openai")%string eqn:E1.
  { apply String.eqb_eq in E1. rewrite E1, request_run. cbn [orb].
    destruct (env_generate env h "openai" prompt); [reflexivity|].
    cbn. now rewrite <- app_assoc. }
  destruct (provider self =? "gemini")%string eqn:E2.
  { apply String.eqb_eq in E2. rewrite E2, request_run. cbn [orb].
    destruct (env_generate env h "gemini" prompt); [reflexivity|].
    cbn. now rewrite <- app_assoc. }
  destruct (provider self =? "claude")%string eqn:E3.
  { apply String.eqb_eq in E3. rewrite E3, request_run. cbn [orb].
    destruct (env_generate env h "claude" prompt); [reflexivity|].
    cbn. now rewrite <- app_assoc. }
  destruct (provider self =? "ollama")%string eqn:E4.
  { apply String.eqb_eq in E4. rewrite E4, request_run. cbn [orb].
    destruct (env_generate env h "ollama" prompt); [reflexivity|].
    cbn. now rewrite <- app_assoc. }
  reflexivity.
Qed.

Lemma process_total (env : Env) (self : LLMProcessor)
    (transcript template language : string) :
  IO.total (process env self transcript template language).
Proof.
  intros h. rewrite process_run. cbv zeta.
  destruct (provider self =? "none")%string; [eexists; reflexivity|].
  destruct (_ || _); [|eexists; reflexivity].
  destruct (env_generate _ _ _ _); eexists; reflexivity.
Qed.

Lemma process_appends (env : Env) (self : LLMProcessor)
    (transcript template language : string) :
  IO.appends (process env self transcript template language).
Proof.
  intros h. rewrite process_run. cbv zeta.
  destruct (provider self =? "none")%string;
    [exists []; cbn; now rewrite app_nil_r|].
  destruct (_ || _); [|exists []; cbn; now rewrite app_nil_r].
  destruct (env_generate _ _ _ _); eexists; reflexivity.
Qed.

(** C4.  Whatever the provider, the texts and the behaviour of the
    client, [process] returns to its caller: it gives a text or none and
    never an exception; when the request to the provider raises, the
    result is none; and on the provider "none" the result is none and
    nothing is done: no request, no output. *)
Theorem process_never_raises (env : Env) (self : LLMProcessor)
    (transcript template language : string) (h : list Event) :
  (exists result, fst (process env self transcript template language h)
                  = Returned result)
  /\ (forall e,
        env_generate env h (provider self)
          (_build_prompt transcript template language) = Raised e ->
        fst (process env self transcript template language h)
        = Returned None)
  /\ (provider self = "none" ->
      process env self transcript template language h = (Returned None, h)).
Proof.
  split; [apply process_total|]. split.
  - intros e He. rewrite process_run. cbv zeta.
    destruct (provider self =? "none")%string; [reflexivity|].
    destruct (_ || _); [|reflexivity].
    now rewrite He.
  - intros E. rewrite process_run. cbv zeta. now rewrite E.
Qed.

Lemma process_never_raises_witness :
  let env := Samples.env_with (fun _ => true) (Raised "timeout")
               Samples.no_embedding in
  env_generate env [] "openai" (_build_prompt "hello" "summary" "en")
  = Raised "timeout"
  /\ fst (process env Samples.openai "hello" "summary" "en" [])
     = Returned None
  /\ process env Samples.inert "hello" "summary" "en" []
     = (Returned None, []).
Proof.
  intros env. split; [reflexivity|]. split.
  - exact (proj1 (proj2 (process_never_raises env Samples.openai
                           "hello" "summary" "en" []))
             "timeout" eq_refl).
  - exact (proj2 (proj2 (process_never_raises env Samples.inert
                           "hello" "summary" "en" []))
             eq_refl).
Defined.

End LLMFacts.

(* ================================================================== *)
(** * The batch controller *)
(* ================================================================== *)

Module BatchFacts.
Import PyStr Batch.

Lemma save_enhanced_appends (env : Env) (path content : string) :
  IO.appends (save_enhanced env path content).
Proof.
  unfold save_enhanced, write_file, get_file_size.
  apply EffFacts.appends_bind; [apply EffFacts.appends_perform|]. intros _.
  apply EffFacts.appends_bind; [apply EffFacts.appends_perform|]. intros _.
  apply EffFacts.appends_ret.
Qed.

Lemma enhance_appends (env : Env) (llm : LLM.LLMProcessor)
    (video_path output_folder transcript_path language output_format
       : string) :
  IO.appends (enhance env llm video_path output_folder transcript_path
                      language output_format).
Proof.
  unfold enhance, read_file.
  apply EffFacts.appends_bind; [apply EffFacts.appends_perform|]. intros raw.
  apply EffFacts.appends_bind; [apply LLMFacts.process_appends|].
  intros [enhanced|]; [|apply EffFacts.appends_print].
  destruct (is_empty enhanced); [apply EffFacts.appends_print|].
  apply EffFacts.appends_bind.
  - destruct (one_of output_format ["txt"; "both"]);
      [apply save_enhanced_appends | apply EffFacts.appends_ret].
  - intros _. destruct (one_of output_format ["md"; "both"]);
      [|apply EffFacts.appends_ret].
    apply EffFacts.appends_bind; [apply EffFacts.appends_now|]. intros now.
    apply save_enhanced_appends.
Qed.

(** [process_video] catches whatever its stages raise: it answers [True]
    or [False], after announcing the item. *)
Lemma process_video_run (env : Env) (video_path output_folder : string)
    (index total : nat) (llm_processor : option LLM.LLMProcessor)
    (output_format mp3_bitrate : string) (h : list Event) :
  exists ok added,
    process_video env video_path output_folder index total llm_processor
                  output_format mp3_bitrate h
    = (Returned ok,
       (h ++ Print (progress_line index total) :: added)%list).
Proof.
  unfold process_video. unfold Eff.bind at 1. cbn [IO.print IO.perform].
  set (h1 := (h ++ [Print (progress_line index total)])%list).
  match goal with
  | |- context [Eff.try_except ?b ?k] => set (body := b); set (handler := k)
  end.
  assert (T : IO.total (Eff.try_except body handler)).
  { apply EffFacts.total_try_except. intros e. unfold handler.
    apply EffFacts.total_bind; [apply EffFacts.total_print|].
    intros _. apply EffFacts.total_ret. }
  assert (A : IO.appends (Eff.try_except body handler)).
  { apply EffFacts.appends_try_except.
    - unfold body, convert_video_to_mp3, transcribe_audio_with_whisper,
        get_file_size.
      apply EffFacts.appends_bind; [apply EffFacts.appends_perform|].
      intros mp3.
      apply EffFacts.appends_bind; [apply EffFacts.appends_perform|].
      intros [[tp pv] lang].
      apply EffFacts.appends_bind; [apply EffFacts.appends_perform|].
      intros _.
      apply EffFacts.appends_bind; [|intros _; apply EffFacts.appends_ret].
      destruct llm_processor as [llm|]; [|apply EffFacts.appends_ret].
      destruct (negb _); [apply enhance_appends | apply EffFacts.appends_ret].
    - intros e. unfold handler.
      apply EffFacts.appends_bind; [apply EffFacts.appends_print|].
      intros _. apply EffFacts.appends_ret. }
  destruct (T h1) as [ok Hok]. destruct (A h1) as [added Hadd].
  exists ok, added.
  destruct (Eff.try_except body handler h1) as [o h2].
  cbn [fst snd] in Hok, Hadd. subst o h2. unfold h1.
  now rewrite <- app_assoc.
Qed.

(** What [process_video] does from any history, stage by stage. *)
Lemma process_video_processed (env : Env) (video_path output_folder : string)
    (index total : nat) (llm_processor : option LLM.LLMProcessor)
    (output_format mp3_bitrate : string) (h : list Event) :
  exists ok h',
    processed env video_path output_folder index total llm_processor
      output_format mp3_bitrate h ok h'.
Proof.
  unfold processed, process_video.
  unfold Eff.bind at 1. cbn [IO.print IO.perform].
  unfold Eff.try_except.
  unfold Eff.bind at 1, convert_video_to_mp3 at 1, IO.perform at 1.
  set (h1 := (h ++ [Print (progress_line index total)])%list).
  destruct (env_convert env h1 video_path output_folder mp3_bitrate)
    as [mp3_path|e] eqn:Ec.
  2:{ exists false. eexists. split; [reflexivity|].
      exists [Print ("Error: " ++ e)]. split.
      - unfold IO.print, IO.perform, Eff.bind, Eff.ret, h1. cbn.
        now rewrite <- !app_assoc.
      - now exists [], e. }
  unfold Eff.bind at 1, transcribe_audio_with_whisper at 1, IO.perform at 1.
  set (c := Convert video_path output_folder mp3_bitrate).
  destruct (env_transcribe env (h1 ++ [c])%list mp3_path output_folder
              output_format) as [[[transcript_path preview] language]|e]
    eqn:Et.
  2:{ exists false. eexists. split; [reflexivity|].
      exists [Transcribe mp3_path output_folder output_format;
              Print ("Error: " ++ e)]. split.
      - unfold IO.print, IO.perform, Eff.bind, Eff.ret, h1. cbn.
        now rewrite <- !app_assoc.
      - now exists [Transcribe mp3_path output_folder output_format], e. }
  unfold Eff.bind at 1, get_file_size at 1, IO.perform at 1.
  set (t := Transcribe mp3_path output_folder output_format).
  destruct (env_file_size env ((h1 ++ [c]) ++ [t])%list transcript_path)
    as [size|e] eqn:Es.
  2:{ exists false. eexists. split; [reflexivity|].
      exists [t; FileSize transcript_path; Print ("Error: " ++ e)]. split.
      - unfold IO.print, IO.perform, Eff.bind, Eff.ret, h1. cbn.
        now rewrite <- !app_assoc.
      - now exists [t; FileSize transcript_path], e. }
  set (h4 := (((h1 ++ [c]) ++ [t]) ++ [FileSize transcript_path])%list).
  match goal with
  | |- context [Eff.bind ?m (fun _ => Eff.ret true)] => set (rest_m := m)
  end.
  assert (A : IO.appends rest_m).
  { unfold rest_m. destruct llm_processor as [llm|];
      [|apply EffFacts.appends_ret].
    destruct (negb _); [apply enhance_appends | apply EffFacts.appends_ret]. }
  destruct (A h4) as [added Ha]. unfold Eff.bind at 1.
  destruct (rest_m h4) as [[[]|e] h5]; cbn [snd] in Ha; subst h5.
  - exists true. eexists. split; [reflexivity|].
    exists (t :: FileSize transcript_path :: added). split.
    + unfold h4, h1. now rewrite <- !app_assoc.
    + exists mp3_path, transcript_path, preview, language, size, added.
      split; [first [exact Ec | reflexivity]|]. split.
      * replace (h ++ [Print (progress_line index total); c])%list
          with (h1 ++ [c])%list
          by (unfold h1; now rewrite <- !app_assoc).
        first [exact Et | reflexivity].
      * split; [|reflexivity]. fold t.
        replace (h ++ [Print (progress_line index total); c; t])%list
          with ((h1 ++ [c]) ++ [t])%list
          by (unfold h1; now rewrite <- !app_assoc).
        first [exact Es | reflexivity].
  - exists false. eexists. split; [reflexivity|].
    exists (t :: FileSize transcript_path
              :: added ++ [Print ("Error: " ++ e)])%list. split.
    + unfold IO.print, IO.perform, Eff.bind, Eff.ret, h4, h1. cbn.
      now rewrite <- !app_assoc.
    + exists (t :: FileSize transcript_path :: added), e. reflexivity.
Qed.

Lemma count_verdicts (verdicts : list Verdict) :
  count_succeeded verdicts + count_failed verdicts = List.length verdicts.
Proof.
  unfold count_succeeded, count_failed.
  induction verdicts as [|v verdicts IH]; [reflexivity|].
  cbn [filter]. destruct (is_succeeded v); cbn [negb List.length]; lia.
Qed.

(** The loop is the run of the specification, and its counters count
    the verdicts. *)
Lemma main_loop_run (env : Env) (output_folder : string) (total : nat)
    (llm_processor : option LLM.LLMProcessor)
    (output_format mp3_bitrate : string)
    (items : list (nat * string)) (c : Counters) (h : list Event) :
  exists verdicts h',
    batch_run env output_folder total llm_processor output_format
      mp3_bitrate items h verdicts h'
    /\ main_loop env output_folder total llm_processor output_format
         mp3_bitrate items c h
       = (Returned (mkCounters (successful c + count_succeeded verdicts)
                               (failed c + count_failed verdicts)), h')
    /\ List.length verdicts = List.length items.
Proof.
  revert c h. induction items as [|[index video_path] rest IH]; intros c h.
  - exists [], h. split; [constructor|]. split; [|reflexivity].
    cbn. unfold Eff.ret. rewrite !Nat.add_0_r. now destruct c.
  - cbn [main_loop]. unfold Eff.bind at 1, main_step.
    unfold Eff.bind at 1, IO.path_exists at 1.
    destruct (env_exists env h video_path) eqn:X; cbn [negb].
    + destruct (process_video_processed env video_path output_folder index
                  total llm_processor output_format mp3_bitrate h)
        as (ok & h1 & P).
      pose proof (proj1 P) as E. unfold Eff.bind at 1. rewrite E.
      unfold Eff.bind at 1, IO.print at 1, IO.perform at 1, Eff.ret at 1.
      destruct (IH (if ok then mkCounters (successful c + 1) (failed c)
                    else mkCounters (successful c) (failed c + 1))
                   (h1 ++ [Print (repeat_char "-"%char 60)])%list)
        as (verdicts & h' & R & L & N).
      exists ((if ok then Succeeded else Failed) :: verdicts), h'.
      split; [now apply run_processed with (h1 := h1)|].
      split; [|cbn [List.length]; now rewrite N].
      rewrite L. unfold count_succeeded, count_failed.
      destruct ok; cbn [filter is_succeeded negb List.length successful failed];
        do 2 f_equal; f_equal; lia.
    + unfold Eff.bind at 1, IO.print at 1, IO.perform at 1, Eff.ret at 1.
      destruct (IH (mkCounters (successful c) (failed c + 1))
                   (h ++ [Print (skipping_line index total video_path)])%list)
        as (verdicts & h' & R & L & N).
      exists (Missing :: verdicts), h'.
      split; [now apply run_missing|].
      split; [|cbn [List.length]; now rewrite N].
      rewrite L. unfold count_succeeded, count_failed.
      cbn [filter is_succeeded negb List.length successful failed].
      do 2 f_equal; f_equal; lia.
Qed.

Lemma length_enumerate_from {A} (l : list A) (i : nat) :
  List.length (Search.enumerate_from i l) = List.length l.
Proof.
  revert i. induction l as [|y l IH]; intros i; cbn; [reflexivity|].
  now rewrite IH.
Qed.

(** C5.  For every list of N input items and whatever the surroundings
    do, the run of [main] is the run of the specification over the items
    numbered from 1: every item gets its turn in order, whatever became
    of the items before it; an item whose file does not exist when its
    turn comes is reported and nothing else is done for it, no
    conversion, no transcription, no request to a language model; every
    other item is processed by [process_video], which converts this very
    video and answers [True] only after conversion, transcription and
    sizing have returned, and [False] after reporting the error.  The
    run never raises; the counters it reports are the number of items
    that succeeded and the number of the others, missing ones included,
    which add up to N; and the exit status is 0 exactly when no item
    failed. *)
Theorem batch_counts_and_status (env : Env) (video_files : list string)
    (output_folder : string) (llm_processor : option LLM.LLMProcessor)
    (output_format mp3_bitrate : string) (h : list Event) :
  let total := List.length video_files in
  exists verdicts h' c status,
    batch_run env output_folder total llm_processor output_format
      mp3_bitrate (Search.enumerate_from 1 video_files) h verdicts h'
    /\ main env video_files output_folder llm_processor output_format
         mp3_bitrate h
       = (Returned (c, status),
          (h' ++ [Print "Processing complete!";
                  Print ("Successful: " ++ str_of_nat (successful c) ++ "/"
                         ++ str_of_nat total);
                  Print ("Failed: " ++ str_of_nat (failed c) ++ "/"
                         ++ str_of_nat total)])%list)
    /\ List.length verdicts = total
    /\ successful c = count_succeeded verdicts
    /\ failed c = count_failed verdicts
    /\ successful c + failed c = total
    /\ (status = 0 <-> failed c = 0).
Proof.
  intros total. unfold main. fold total.
  destruct (main_loop_run env output_folder total llm_processor
              output_format mp3_bitrate
              (Search.enumerate_from 1 video_files) (mkCounters 0 0) h)
    as (verdicts & h' & R & L & N).
  rewrite length_enumerate_from in N. fold total in N.
  cbn [successful failed Nat.add] in L.
  exists verdicts, h',
    (mkCounters (count_succeeded verdicts) (count_failed verdicts)),
    (if (count_failed verdicts =? 0)%nat then 0 else 1).
  split; [exact R|]. split.
  { unfold Eff.bind at 1. rewrite L.
    unfold Eff.bind, IO.print, IO.perform, Eff.ret.
    cbn [successful failed]. now rewrite <- !app_assoc. }
  split; [exact N|]. cbn [successful failed].
  split; [reflexivity|]. split; [reflexivity|]. split.
  - rewrite <- N. apply count_verdicts.
  - destruct (count_failed verdicts =? 0)%nat eqn:F.
    + apply Nat.eqb_eq in F. tauto.
    + apply Nat.eqb_neq in F. split; intros; [discriminate | tauto].
Qed.

(** Two items, the second of which has no file: the first is processed
    and succeeds, the second is reported missing, and the status is 1. *)
Lemma batch_counts_and_status_witness :
  let env := Samples.env_with (fun p => negb (p =? "b.mp4")%string)
               (Returned (Some "ok")) Samples.no_embedding in
  fst (main env ["a.mp4"; "b.mp4"] "out" None "txt" "128k" [])
  = Returned (mkCounters 1 1, 1)
  /\ exists verdicts h' c status,
       batch_run env "out" 2 None "txt" "128k"
         [(1, "a.mp4"); (2, "b.mp4")] [] verdicts h'
       /\ fst (main env ["a.mp4"; "b.mp4"] "out" None "txt" "128k" [])
          = Returned (c, status)
       /\ successful c = count_succeeded verdicts
       /\ failed c = count_failed verdicts
       /\ (status = 0 <-> failed c = 0).
Proof.
  intros env. split; [vm_compute; reflexivity|].
  destruct (batch_counts_and_status env ["a.mp4"; "b.mp4"] "out" None "txt"
              "128k" [])
    as (verdicts & h' & c & status & R & M & _ & S & F & _ & X).
  exists verdicts, h', c, status.
  split; [exact R|]. split; [now rewrite M|]. auto.
Defined.

End BatchFacts.

(* ================================================================== *)
(** * Keyword search *)
(* ================================================================== *)

Module KeywordFacts.
Import PyStr Aligner Search.

Lemma keyword_loop (query : string) (case_sensitive : bool)
    (p : AlignedSegment -> bool) (l : list AlignedSegment) :
  fold_left
    (fun matches segment =>
       if p segment
       then (matches ++ [keyword_match query case_sensitive segment])%list
       else matches)
    l []
  = map (keyword_match query case_sensitive) (filter p l).
Proof.
  rewrite (ListFacts.fold_left_ext _
             (fun matches segment =>
                (matches ++ (if p segment
                             then [keyword_match query case_sensitive segment]
                             else []))%list)).
  - rewrite ListFacts.fold_left_snoc. cbn [app].
    apply ListFacts.flat_map_filter_map.
  - intros a x. destruct (p x); [reflexivity | now rewrite app_nil_r].
Qed.

(** The matches of one record: its segments that contain the query,
    provided the full text contains it as well. *)
Lemma keyword_matches_spec (query : string) (case_sensitive : bool)
    (t : TranscriptRecord) :
  keyword_matches query case_sensitive t
  = if hit query case_sensitive (full_text t)
    then map (keyword_match query case_sensitive)
             (segment_hits query case_sensitive t)
    else [].
Proof.
  unfold keyword_matches, hit, segment_hits.
  destruct case_sensitive; cbn [negb].
  - destruct (contains query (full_text t)); [|reflexivity].
    apply keyword_loop.
  - destruct (contains (lower query) (lower (full_text t))); [|reflexivity].
    apply (keyword_loop query false
             (fun segment => contains (lower query) (lower (text segment)))).
Qed.

(** What one record contributes to the results *)
Lemma keyword_search_spec (self : TranscriptSearchEngine) (query : string)
    (case_sensitive : bool) :
  keyword_search self query case_sensitive
  = flat_map
      (fun t =>
         match keyword_matches query case_sensitive t with
         | [] => []
         | matches => [keyword_result t matches]
         end)
      (transcripts self).
Proof.
  unfold keyword_search.
  rewrite (ListFacts.fold_left_ext _
             (fun results t =>
                (results ++ match keyword_matches query case_sensitive t with
                            | [] => []
                            | matches => [keyword_result t matches]
                            end)%list)).
  - now rewrite ListFacts.fold_left_snoc.
  - intros a t. destruct (keyword_matches query case_sensitive t);
      [now rewrite app_nil_r | reflexivity].
Qed.

Lemma no_hit_no_segment (query : string) (case_sensitive : bool)
    (t : TranscriptRecord) :
  (forall segment, In segment (segments t) ->
                   hit query case_sensitive (text segment) = false) ->
  segment_hits query case_sensitive t = [].
Proof.
  unfold segment_hits. induction (segments t) as [|g l IH]; intros H.
  - reflexivity.
  - cbn [filter]. rewrite (H g (or_introl eq_refl)).
    apply IH. intros g' Hg'. apply H. now right.
Qed.

(** C10.  Keyword search goes through the records in order and a record
    contributes a result only when one of its parsed segments contains
    the query (under the case rule of the search): every result comes
    from a record with such a segment and lists exactly those segments,
    and a record none of whose segments contains the query contributes
    nothing, whatever its full text holds.  So a query found only in the
    full-text block of a record without segments, or running across two
    adjacent segment texts, leaves the record out. *)
Theorem keyword_search_needs_segment_hit (self : TranscriptSearchEngine)
    (query : string) (case_sensitive : bool) :
  keyword_search self query case_sensitive
  = flat_map
      (fun t =>
         match keyword_matches query case_sensitive t with
         | [] => []
         | matches => [keyword_result t matches]
         end)
      (transcripts self)
  /\ (forall r,
        In r (keyword_search self query case_sensitive) ->
        exists t segment,
          In t (transcripts self)
          /\ r = keyword_result t
                   (map (keyword_match query case_sensitive)
                        (segment_hits query case_sensitive t))
          /\ In segment (segments t)
          /\ hit query case_sensitive (text segment) = true)
  /\ (forall t,
        (forall segment, In segment (segments t) ->
                         hit query case_sensitive (text segment) = false) ->
        keyword_matches query case_sensitive t = [])
  /\ keyword_search
       (mkEngine None
          [mkRecord "a_transcript.txt" "a" "en" [] "the budget was cut" None]
          false)
       "budget" case_sensitive = []
  /\ keyword_search
       (mkEngine None
          [mkRecord "a_transcript.txt" "a" "en"
             [mkAligned "00:00:00" "00:00:01" "SPEAKER_00" "the budget";
              mkAligned "00:00:01" "00:00:02" "SPEAKER_00" "was cut"]
             "the budget was cut" None]
          false)
       "budget was" case_sensitive = [].
Proof.
  split; [apply keyword_search_spec|]. split; [|split].
  - intros r Hr. rewrite keyword_search_spec in Hr.
    apply in_flat_map in Hr. destruct Hr as (t & Ht & Hr).
    rewrite keyword_matches_spec in Hr.
    destruct (hit query case_sensitive (full_text t)); [|destruct Hr].
    destruct (segment_hits query case_sensitive t) as [|g l] eqn:E;
      [destruct Hr|].
    cbn [map] in Hr. destruct Hr as [<-|[]].
    assert (Hg : In g (segment_hits query case_sensitive t))
      by (rewrite E; now left).
    unfold segment_hits in Hg. apply filter_In in Hg.
    exists t, g. split; [exact Ht|]. split; [now rewrite E|]. exact Hg.
  - intros t H. rewrite keyword_matches_spec.
    rewrite (no_hit_no_segment _ _ _ H). now destruct (hit _ _ _).
  - split; destruct case_sensitive; vm_compute; reflexivity.
Qed.

Lemma keyword_search_needs_segment_hit_witness :
  let t := mkRecord "a_transcript.txt" "a" "en"
             [mkAligned "00:00:00" "00:00:01" "SPEAKER_00" "the budget";
              mkAligned "00:00:01" "00:00:02" "SPEAKER_00" "was cut"]
             "the budget was cut" None in
  (forall segment, In segment (segments t) ->
                   hit "Budget Was" false (text segment) = false)
  /\ keyword_matches "Budget Was" false t = [].
Proof.
  intros t.
  assert (H : forall segment, In segment (segments t) ->
                              hit "Budget Was" false (text segment) = false).
  { intros g [<-|[<-|[]]]; vm_compute; reflexivity. }
  split; [exact H|].
  exact (proj1 (proj2 (proj2 (keyword_search_needs_segment_hit
                                (mkEngine None [t] false) "Budget Was" false)))
           t H).
Defined.

End KeywordFacts.

(* ================================================================== *)
(** * Semantic search *)
(* ================================================================== *)

Module SemanticFacts.
Import PyStr Aligner Search.

Lemma above_threshold_spec (score : Q) :
  above_threshold score = true <-> (threshold < score)%Q.
Proof.
  unfold above_threshold. rewrite negb_true_iff. split; intros H.
  - apply Qnot_le_lt. intros L. apply Qle_bool_iff in L. congruence.
  - destruct (Qle_bool score threshold) eqn:E; [|reflexivity].
    apply Qle_bool_iff in E. exfalso. exact (Qlt_not_le _ _ H E).
Qed.

Section Ranking.
Context {A : Type} (key : A -> Q).

Lemma insert_desc_In (x y : A) (l : list A) :
  In y (insert_desc key x l) <-> y = x \/ In y l.
Proof.
  induction l as [|z l IH]; cbn [insert_desc].
  - cbn. intuition.
  - destruct (negb (Qle_bool (key z) (key x))); cbn [In].
    + rewrite IH. intuition.
    + intuition.
Qed.

Lemma sort_desc_In (y : A) (l : list A) :
  In y (sort_desc key l) <-> In y l.
Proof.
  induction l as [|x l IH]; cbn [sort_desc fold_right].
  - reflexivity.
  - fold (sort_desc key l). rewrite insert_desc_In, IH. cbn. intuition.
Qed.

Lemma insert_desc_length (x : A) (l : list A) :
  List.length (insert_desc key x l) = S (List.length l).
Proof.
  induction l as [|z l IH]; cbn [insert_desc]; [reflexivity|].
  destruct (negb _); cbn [List.length]; [now rewrite IH | reflexivity].
Qed.

Lemma insert_desc_sorted (x : A) (l : list A) :
  StronglySorted (desc key) l ->
  StronglySorted (desc key) (insert_desc key x l).
Proof.
  induction 1 as [|z l S IH F]; cbn [insert_desc].
  - constructor; constructor.
  - destruct (Qle_bool (key z) (key x)) eqn:E; cbn [negb].
    + apply Qle_bool_iff in E. constructor; [now constructor|].
      constructor; [exact E|].
      apply Forall_forall. intros w Hw. unfold desc.
      rewrite Forall_forall in F. specialize (F w Hw). unfold desc in F.
      now apply Qle_trans with (key z).
    + constructor; [exact IH|].
      apply Forall_forall. intros w Hw. apply insert_desc_In in Hw.
      destruct Hw as [->|Hw].
      * unfold desc. apply Qlt_le_weak, Qnot_le_lt. intros L.
        apply Qle_bool_iff in L. congruence.
      * rewrite Forall_forall in F. now apply F.
Qed.

(** The sorted list is in non-increasing order of the key. *)
Lemma sort_desc_sorted (l : list A) : StronglySorted (desc key) (sort_desc key l).
Proof.
  induction l as [|x l IH]; cbn [sort_desc fold_right].
  - constructor.
  - now apply insert_desc_sorted.
Qed.

Lemma firstn_sorted (R : A -> A -> Prop) (n : nat) (l : list A) :
  StronglySorted R l -> StronglySorted R (firstn n l).
Proof.
  intros H. revert n. induction H as [|x l S IH F]; intros n.
  - rewrite firstn_nil. constructor.
  - destruct n as [|n]; cbn [firstn]; [constructor|].
    constructor; [apply IH|].
    apply Forall_forall. intros y Hy. rewrite Forall_forall in F.
    apply F. revert Hy. apply ListFacts.in_firstn.
Qed.

Lemma filter_sorted (R : A -> A -> Prop) (p : A -> bool) (l : list A) :
  StronglySorted R l -> StronglySorted R (filter p l).
Proof.
  induction 1 as [|x l S IH F]; cbn [filter]; [constructor|].
  destruct (p x); [|exact IH].
  constructor; [exact IH|].
  apply Forall_forall. intros y Hy. apply filter_In in Hy.
  rewrite Forall_forall in F. now apply F.
Qed.

End Ranking.

(** A ranking survives a step that keeps at most one image per element
    and carries the order over. *)
Lemma flat_map_sorted {A B} (R : A -> A -> Prop) (R' : B -> B -> Prop)
    (f : A -> list B) (l : list A) :
  (forall x, List.length (f x) <= 1) ->
  (forall x y x' y', R x y -> In x' (f x) -> In y' (f y) -> R' x' y') ->
  StronglySorted R l -> StronglySorted R' (flat_map f l).
Proof.
  intros L C. induction 1 as [|a l S IH F]; cbn [flat_map]; [constructor|].
  specialize (L a). destruct (f a) as [|b [|b' r]] eqn:E; cbn [app].
  - exact IH.
  - constructor; [exact IH|].
    apply Forall_forall. intros y' Hy'. apply in_flat_map in Hy'.
    destruct Hy' as (y & Hy & Hy').
    rewrite Forall_forall in F.
    apply (C a y b y' (F y Hy)); [rewrite E; now left | exact Hy'].
  - cbn in L. lia.
Qed.

Lemma map_sorted {A B} (R : A -> A -> Prop) (R' : B -> B -> Prop)
    (f : A -> B) (l : list A) :
  (forall x y, R x y -> R' (f x) (f y)) ->
  StronglySorted R l -> StronglySorted R' (map f l).
Proof.
  intros C. induction 1 as [|a l S IH F]; cbn [map]; constructor;
    [exact IH|].
  apply Forall_forall. intros y Hy. apply in_map_iff in Hy.
  destruct Hy as (x & <- & Hx). rewrite Forall_forall in F.
  apply C, F, Hx.
Qed.

Lemma flat_map_length_le {A B} (f : A -> list B) (l : list A) :
  (forall x, List.length (f x) <= 1) ->
  List.length (flat_map f l) <= List.length l.
Proof.
  intros L. induction l as [|a l IH]; cbn [flat_map List.length]; [lia|].
  rewrite length_app. specialize (L a). lia.
Qed.

Lemma enumerate_from_In {A} (l : list A) (k i : nat) (x : A) :
  In (i, x) (enumerate_from k l) -> nth_error l (i - k) = Some x /\ k <= i.
Proof.
  revert k. induction l as [|y l IH]; intros k H; cbn in H; [tauto|].
  destruct H as [H|H].
  - injection H as <- <-. rewrite Nat.sub_diag. split; [reflexivity | lia].
  - apply IH in H. destruct H as [H L].
    replace (i - k) with (S (i - S k)) by lia. split; [exact H | lia].
Qed.

(** The scored records: a score for every record that has an embedding,
    under the index of the record. *)
Lemma embedding_scores_In (env : Env) (self : TranscriptSearchEngine)
    (query : string) (i : nat) (score : Q) :
  In (i, score) (embedding_scores env self query) ->
  exists t e,
    nth_error (transcripts self) i = Some t
    /\ embedding t = Some e
    /\ score = similarity env (env_encode env query) e.
Proof.
  unfold embedding_scores.
  rewrite (ListFacts.fold_left_ext _
             (fun scores it =>
                (scores ++ match embedding (snd it) with
                           | Some e =>
                               [(fst it,
                                 similarity env (env_encode env query) e)]
                           | None => []
                           end)%list)).
  - rewrite ListFacts.fold_left_snoc. cbn [app]. intros H.
    apply in_flat_map in H. destruct H as ([j t] & Hj & H). cbn [fst snd] in H.
    destruct (embedding t) as [e|] eqn:E; [|destruct H].
    destruct H as [H|[]]. injection H as -> <-.
    apply enumerate_from_In in Hj. rewrite Nat.sub_0_r in Hj.
    exists t, e. tauto.
  - intros a [j t]. cbn [fst snd].
    destruct (embedding t); [reflexivity | now rewrite app_nil_r].
Qed.

(** What one scored record contributes to the results *)
Lemma embedding_search_spec (env : Env) (self : TranscriptSearchEngine)
    (query : string) (top_k : nat) :
  _embedding_search env self query top_k
  = flat_map
      (fun p =>
         if above_threshold (snd p) then
           match nth_error (transcripts self) (fst p) with
           | Some t => [embedding_result env self query t (snd p)]
           | None => []
           end
         else [])
      (firstn top_k (sort_desc snd (embedding_scores env self query))).
Proof.
  unfold _embedding_search.
  rewrite (ListFacts.fold_left_ext _
             (fun results p =>
                (results ++
                 (if above_threshold (snd p) then
                    match nth_error (transcripts self) (fst p) with
                    | Some t => [embedding_result env self query t (snd p)]
                    | None => []
                    end
                  else []))%list)).
  - now rewrite ListFacts.fold_left_snoc.
  - intros a p. destruct (above_threshold (snd p));
      [|now rewrite app_nil_r].
    destruct (nth_error _ _); [reflexivity | now rewrite app_nil_r].
Qed.

(** The excerpts of one record when embeddings are available *)
Lemma relevant_segments_spec (env : Env) (self : TranscriptSearchEngine)
    (t : TranscriptRecord) (query : string) (top_n : nat) :
  embeddings_available self = true ->
  let score segment :=
    similarity env (env_encode env query) (env_encode env (text segment)) in
  let found := _find_relevant_segments env self t query top_n in
  List.length found <= top_n
  /\ StronglySorted (desc match_score) found
  /\ Forall
       (fun m =>
          exists segment,
            In segment (segments t)
            /\ m = RelevantMatch (timestamp_of segment) (speaker segment)
                                 (text segment) (score segment)
            /\ (threshold < score segment)%Q)
       found.
Proof.
  intros Ha score found.
  set (scored := map (fun segment => (segment, score segment)) (segments t)).
  set (top := firstn top_n (sort_desc snd scored)).
  set (mk := fun p : AlignedSegment * Q =>
               RelevantMatch (timestamp_of (fst p)) (speaker (fst p))
                             (text (fst p)) (snd p)).
  assert (E : found
              = map mk (filter (fun p => above_threshold (snd p)) top)).
  { unfold found, _find_relevant_segments. rewrite Ha. reflexivity. }
  rewrite E. clear E found.
  assert (St : StronglySorted (desc snd) top)
    by (apply firstn_sorted, sort_desc_sorted).
  split; [|split].
  - rewrite length_map.
    apply Nat.le_trans with (List.length top).
    + apply filter_length_le.
    + apply firstn_le_length.
  - apply map_sorted with (R := desc snd).
    + intros x y Hxy. exact Hxy.
    + now apply filter_sorted.
  - apply Forall_forall. intros m Hm. apply in_map_iff in Hm.
    destruct Hm as ([g q] & <- & Hp). apply filter_In in Hp.
    destruct Hp as [Hp Hq]. cbn [fst snd] in *.
    assert (Hin : In (g, q) scored).
    { apply (proj1 (sort_desc_In snd (g, q) scored)). unfold top in Hp.
      revert Hp. apply ListFacts.in_firstn. }
    unfold scored in Hin. apply in_map_iff in Hin.
    destruct Hin as (g' & Hg' & Hin). injection Hg' as -> <-.
    exists g. split; [exact Hin|]. split; [reflexivity|].
    now apply above_threshold_spec.
Qed.

(** C8.  With embeddings available, semantic search leaves the history
    untouched and returns at most [top_k] results in non-increasing order
    of similarity; every result belongs to an indexed record that has an
    embedding, carries the cosine similarity of the query to that
    embedding, and this similarity exceeds the threshold 0.3; its matches
    are segments of that record whose own similarity to the query exceeds
    the same threshold, at most three of them, most similar first. *)
Theorem semantic_search_with_embeddings (env : Env)
    (self : TranscriptSearchEngine) (query : string) (top_k : nat)
    (h : list Event) :
  embeddings_available self = true ->
  let q := env_encode env query in
  exists results,
    semantic_search env self query top_k h = (Returned results, h)
    /\ List.length results <= top_k
    /\ StronglySorted (desc result_score) results
    /\ Forall
         (fun r =>
            exists i t e,
              nth_error (transcripts self) i = Some t
              /\ embedding t = Some e
              /\ res_file_name r = file_name t
              /\ res_language r = language t
              /\ res_similarity_score r = Some (similarity env q e)
              /\ (threshold < similarity env q e)%Q
              /\ List.length (res_matches r) <= 3
              /\ StronglySorted (desc match_score) (res_matches r)
              /\ Forall
                   (fun m =>
                      exists segment,
                        In segment (segments t)
                        /\ m = RelevantMatch
                                 (timestamp_of segment) (speaker segment)
                                 (text segment)
                                 (similarity env q
                                    (env_encode env (text segment)))
                        /\ (threshold
                            < similarity env q
                                (env_encode env (text segment)))%Q)
                   (res_matches r))
         results.
Proof.
  intros Ha q. exists (_embedding_search env self query top_k).
  split; [unfold semantic_search; now rewrite Ha|].
  rewrite embedding_search_spec.
  set (f := fun p : nat * Q =>
              if above_threshold (snd p) then
                match nth_error (transcripts self) (fst p) with
                | Some t => [embedding_result env self query t (snd p)]
                | None => []
                end
              else []).
  set (ranked := sort_desc snd (embedding_scores env self query)).
  assert (L1 : forall p, List.length (f p) <= 1).
  { intros p. unfold f. destruct (above_threshold (snd p)); [|cbn; lia].
    destruct (nth_error _ _); cbn; lia. }
  assert (Sc : forall p r, In r (f p) -> result_score r = snd p).
  { intros p r. unfold f. destruct (above_threshold (snd p)); [|intros []].
    destruct (nth_error _ _); [|intros []]. intros [<-|[]]. reflexivity. }
  split; [|split].
  - apply Nat.le_trans with (List.length (firstn top_k ranked)).
    + now apply flat_map_length_le.
    + apply firstn_le_length.
  - apply flat_map_sorted with (R := desc snd); [exact L1| |].
    + intros x y x' y' Hxy Hx Hy. unfold desc in *.
      now rewrite (Sc x x' Hx), (Sc y y' Hy).
    + apply firstn_sorted, sort_desc_sorted.
  - apply Forall_forall. intros r Hr. apply in_flat_map in Hr.
    destruct Hr as ([i score] & Hp & Hr).
    apply ListFacts.in_firstn in Hp. unfold ranked in Hp.
    apply (proj1 (sort_desc_In snd _ _)) in Hp.
    apply embedding_scores_In in Hp. destruct Hp as (t & e & Ht & He & Hs).
    unfold f in Hr. cbn [fst snd] in Hr.
    destruct (above_threshold score) eqn:Ab; [|destruct Hr].
    rewrite Ht in Hr. destruct Hr as [<-|[]].
    apply above_threshold_spec in Ab. fold q in Hs. subst score.
    destruct (relevant_segments_spec env self t query 3 Ha) as (R1 & R2 & R3).
    exists i, t, e. cbn [embedding_result res_file_name res_language
                         res_similarity_score res_matches].
    repeat (split; [first [exact Ht | exact He | reflexivity | exact Ab
                          | exact R1 | exact R2]|]).
    exact R3.
Qed.

Lemma semantic_search_with_embeddings_witness :
  let env := Samples.env_with (fun _ => true) (Returned None)
               (fun s => [inject_Z (Z.of_nat (String.length s)) / 10]%Q) in
  let t1 := mkRecord "a_transcript.txt" "a" "en"
              [mkAligned "00:00:00" "00:00:01" "SPEAKER_00" "hello";
               mkAligned "00:00:01" "00:00:02" "SPEAKER_00" "hi"]
              "hello hi" (Some [(8 # 10)%Q]) in
  let t2 := mkRecord "b_transcript.txt" "b" "en" [] "x" (Some [(1 # 10)%Q]) in
  let self := mkEngine None [t2; t1] true in
  embeddings_available self = true
  /\ exists results,
       semantic_search env self "q" 5 [] = (Returned results, [])
       /\ List.length results <= 5.
Proof.
  intros env t1 t2 self. split; [reflexivity|].
  destruct (semantic_search_with_embeddings env self "q" 5 [] eq_refl)
    as (results & E & L & _).
  exists results. split; [exact E | exact L].
Defined.

(** On the sample above the one record over the threshold is returned
    with the one segment over the threshold. *)
Lemma semantic_search_sample :
  let env := Samples.env_with (fun _ => true) (Returned None)
               (fun s => [inject_Z (Z.of_nat (String.length s)) / 10]%Q) in
  let t1 := mkRecord "a_transcript.txt" "a" "en"
              [mkAligned "00:00:00" "00:00:01" "SPEAKER_00" "hello";
               mkAligned "00:00:01" "00:00:02" "SPEAKER_00" "hi"]
              "hello hi" (Some [(8 # 10)%Q]) in
  let t2 := mkRecord "b_transcript.txt" "b" "en" [] "x" (Some [(1 # 10)%Q]) in
  map res_file_name
      (_embedding_search env (mkEngine None [t2; t1] true) "q" 5) = ["a"]
  /\ map (map match_text)
         (map res_matches
              (_embedding_search env (mkEngine None [t2; t1] true) "q" 5))
     = [["hello"]].
Proof. split; vm_compute; reflexivity. Qed.

End SemanticFacts.

(* ================================================================== *)
(** * Question answering *)
(* ================================================================== *)

Module AskFacts.
Import PyStr Aligner Search.

(** [process] catches what the request raises, so the [try] around its
    call in [ask_question] never reaches its handler. *)
Lemma try_process (env : Env) (llm : LLM.LLMProcessor)
    (prompt template language : string)
    (handler : string -> IO.M (option string)) (h : list Event) :
  Eff.try_except (LLM.process env llm prompt template language) handler h
  = LLM.process env llm prompt template language h.
Proof.
  unfold Eff.try_except.
  destruct (LLMFacts.process_total env llm prompt template language h)
    as [a Ha].
  destruct (LLM.process env llm prompt template language h) as [[x|e] h2];
    cbn [fst] in Ha; [reflexivity | discriminate Ha].
Qed.

(** C6, on the code.  Without an active language model [ask_question]
    returns the fixed message and does nothing else.  With one, it runs
    semantic search for three records; when the search returns nothing
    it returns the other fixed message and issues no request for an
    answer.  When the search returns records, [ask_question] issues the
    request for the answer and returns whatever [process] returns, as it
    is: the handler that would build the text "Error generating answer"
    is never reached, and when [process] returns none, none is what
    [ask_question] returns, not an error string.  (What the search does
    when the embedding model raises is outside this statement: it is
    stated of the runs in which the search returns.) *)
Theorem ask_question_returns_none (env : Env) (self : TranscriptSearchEngine)
    (question : string) (h : list Event) :
  (LLM.active (llm_processor self) = false ->
   ask_question env self question h
   = (Returned (Some msg_llm_disabled), h))
  /\ (forall llm relevant h',
        llm_processor self = Some llm ->
        LLM.provider llm <> "none" ->
        semantic_search env self question 3 h = (Returned relevant, h') ->
        (relevant = [] ->
         ask_question env self question h
         = (Returned (Some msg_nothing_relevant), h'))
        /\ (relevant <> [] ->
            ask_question env self question h
            = LLM.process env llm
                (question_prompt question (build_context relevant))
                "clean" "auto" h'
            /\ forall h'',
                 LLM.process env llm
                   (question_prompt question (build_context relevant))
                   "clean" "auto" h'
                 = (Returned None, h'') ->
                 ask_question env self question h = (Returned None, h''))).
Proof.
  split.
  - unfold LLM.active, ask_question.
    destruct (llm_processor self) as [llm|]; [|reflexivity].
    destruct (LLM.provider llm =? "none")%string; [reflexivity|].
    discriminate.
  - intros llm relevant h' Hl Hp Hs.
    apply String.eqb_neq in Hp. split.
    + intros ->. unfold ask_question. rewrite Hl, Hp.
      unfold Eff.bind. now rewrite Hs.
    + intros Hne.
      assert (E : ask_question env self question h
                  = LLM.process env llm
                      (question_prompt question (build_context relevant))
                      "clean" "auto" h').
      { unfold ask_question. rewrite Hl, Hp.
        unfold Eff.bind. rewrite Hs.
        destruct relevant as [|r relevant]; [congruence|].
        apply try_process. }
      split; [exact E|]. intros h'' Hn. now rewrite E.
Qed.

(** The failing input: the engine has the embedding model and one record
    close to the question, the gateway is active, and the request for
    the answer fails with a timeout.  [process] reports the failure and
    returns none, and none is what [ask_question] returns. *)
Lemma ask_question_returns_none_witness :
  let env := Samples.env_with (fun _ => true) (Raised "timeout")
               (fun _ => [(8 # 10)%Q]) in
  let t := mkRecord "a_transcript.txt" "a" "en"
             [mkAligned "00:00:00" "00:00:01" "SPEAKER_00" "hello"]
             "hello" (Some [(8 # 10)%Q]) in
  let self := mkEngine (Some Samples.openai) [t] true in
  let relevant := _embedding_search env self "who spoke?" 3 in
  let prompt :=
    LLM._build_prompt (question_prompt "who spoke?" (build_context relevant))
      "clean" "auto" in
  List.length relevant = 1
  /\ ask_question env self "who spoke?" []
     = (Returned None,
        [Generate "openai" prompt;
         Print "Error processing with openai: timeout"]).
Proof.
  intros env t self relevant prompt.
  split; [vm_compute; reflexivity|].
  refine (proj2 (proj2 (proj2 (ask_question_returns_none env self
                                 "who spoke?" [])
                          Samples.openai relevant [] eq_refl _ eq_refl) _)
            _ _).
  - discriminate.
  - vm_compute. discriminate.
  - vm_compute. reflexivity.
Defined.

End AskFacts.

(* ================================================================== *)
(** * Writing a transcript and reading it back *)
(* ================================================================== *)

Module ParserFacts.
Import PyStr Aligner Search TranscriptFormatter.

(** ** The loop of the parser *)

Lemma parse_line_spec (st : ParseState) (line : string) :
  st_in_segments st = false ->
  parse_line st line
  = mkParse (st_segments st ++ line_segment line)%list false
            (st_full_text st ++ spaced (map text (line_segment line))).
Proof.
  intros F. unfold parse_line, line_segment.
  destruct (startswith line "[" && contains "->" line && contains "]" line).
  - destruct (segment_match line) as [[[[a b] c] d]|].
    + rewrite F. unfold spaced. cbn [map String.concat text].
      reflexivity.
    + destruct st as [g i f]. cbn in *. subst i.
      now rewrite app_nil_r, StrFacts.append_nil_r.
  - destruct st as [g i f]. cbn in *. subst i. cbn [andb].
    rewrite app_nil_r, StrFacts.append_nil_r.
    now destruct (contains "FULL TRANSCRIPT:" line).
Qed.

Lemma spaced_app (l1 l2 : list string) :
  spaced (l1 ++ l2)%list = spaced l1 ++ spaced l2.
Proof.
  unfold spaced. induction l1 as [|x l1 IH]; [reflexivity|].
  cbn [app map]. 
  assert (C : forall y r, String.concat EmptyString (y :: r)
                          = y ++ String.concat EmptyString r).
  { intros y [|z r]; cbn [String.concat]; [now rewrite StrFacts.append_nil_r|reflexivity]. }
  rewrite !C, IH. now rewrite !StrFacts.append_assoc.
Qed.

Lemma parse_fold_spec (lines : list string) (st : ParseState) :
  st_in_segments st = false ->
  fold_left parse_line lines st
  = mkParse (st_segments st ++ flat_map line_segment lines)%list false
            (st_full_text st
             ++ spaced (map text (flat_map line_segment lines))).
Proof.
  revert st. induction lines as [|line lines IH]; intros st F.
  - destruct st as [g i f]. cbn in *. subst i.
    now rewrite app_nil_r, StrFacts.append_nil_r.
  - cbn [fold_left flat_map]. rewrite (parse_line_spec st line F).
    rewrite IH by reflexivity. cbn [st_segments st_full_text].
    rewrite <- app_assoc, map_app, spaced_app.
    now rewrite StrFacts.append_assoc.
Qed.

(** ** Pieces of the segment pattern *)

Lemma span_stop (p : ascii -> bool) (u : string) (c : ascii) (v : string) :
  all_chars p u = true -> p c = false ->
  span p (u ++ String c v) = (u, String c v).
Proof.
  intros Hu Hc. induction u as [|a u IH]; cbn [append span].
  - now rewrite Hc.
  - cbn [all_chars] in Hu. apply andb_true_iff in Hu. destruct Hu as [Ha Hu].
    now rewrite Ha, (IH Hu).
Qed.

Lemma span_all (p : ascii -> bool) (u : string) :
  all_chars p u = true -> span p u = (u, EmptyString).
Proof.
  intros Hu. induction u as [|a u IH]; cbn [span]; [reflexivity|].
  cbn [all_chars] in Hu. apply andb_true_iff in Hu. destruct Hu as [Ha Hu].
  now rewrite Ha, (IH Hu).
Qed.

Lemma expect_append (lit s : string) : expect lit (lit ++ s) = Some s.
Proof.
  induction lit as [|a lit IH]; cbn [append expect].
  - now destruct s.
  - now rewrite Ascii.eqb_refl.
Qed.

Lemma stamp_char_one_line (c : ascii) :
  is_stamp_char c = true -> is_not_newline c = true.
Proof.
  unfold is_not_newline. destruct (Ascii.eqb c nl) eqn:E; [|reflexivity].
  apply Ascii.eqb_eq in E. subst c. vm_compute. discriminate.
Qed.

(** ** The pattern without backtracking *)

Lemma span_nil (class : ascii -> bool) (s : string) :
  fst (span class s) = EmptyString -> span class s = (EmptyString, s).
Proof.
  destruct s as [|a s]; cbn [span]; [reflexivity|].
  destruct (class a); [|reflexivity].
  destruct (span class s). discriminate.
Qed.

(** Every way to stop a run short of the longest leaves a character of
    the class in front. *)
Lemma runs_shorter (class : ascii -> bool) (s : string) :
  match runs class s with
  | [] => fst (span class s) = EmptyString
  | longest :: shorter =>
      longest = span class s
      /\ fst longest <> EmptyString
      /\ Forall (fun uv => exists a v, snd uv = String a v /\ class a = true)
                shorter
  end.
Proof.
  induction s as [|a s IH]; cbn [runs span]; [reflexivity|].
  destruct (class a) eqn:Ca; [|reflexivity].
  destruct (runs class s) as [|[u v] shorter] eqn:R; cbn [map app].
  - rewrite (span_nil _ _ IH).
    split; [reflexivity|]. split; [discriminate | constructor].
  - destruct IH as (E & N & F). rewrite <- E. cbn [fst snd].
    split; [reflexivity|]. split; [discriminate|].
    apply Forall_app. split.
    + apply Forall_forall. intros uv Huv. apply in_map_iff in Huv.
      destruct Huv as ([u' v'] & <- & Hin). cbn [fst snd].
      rewrite Forall_forall in F. exact (F (u', v') Hin).
    + constructor; [|constructor]. cbn [snd].
      destruct s as [|b s]; [discriminate R|].
      cbn [runs] in R. destruct (class b) eqn:Cb; [|discriminate R].
      exists b, s. auto.
Qed.

Lemma first_some_none {A B} (f : A -> option B) (l : list A) :
  Forall (fun x => f x = None) l -> first_some f l = None.
Proof.
  induction 1 as [|x l E _ IH]; [reflexivity|].
  cbn [first_some]. now rewrite E.
Qed.

(** A group followed by a literal that starts outside the class takes
    the longest run or fails. *)
Lemma group_then_literal (class : ascii -> bool) (c : ascii)
    (lit : string) (rest : list piece) (s : string) :
  class c = false ->
  re_match (Group class :: Lit (String c lit) :: rest) s
  = let (u, v) := span class s in
    if is_empty u then None
    else option_map (cons u) (re_match (Lit (String c lit) :: rest) v).
Proof.
  intros Hc. cbn [re_match]. pose proof (runs_shorter class s) as R.
  destruct (runs class s) as [|[u v] shorter].
  - destruct (span class s) as [u v]. cbn [fst] in R. now subst u.
  - destruct R as (E & N & F). rewrite <- E. cbn [first_some fst snd] in *.
    apply StrFacts.is_empty_false in N. rewrite N.
    destruct (expect (String c lit) v) as [v'|] eqn:Ev.
    + destruct (re_match rest v'); cbn [option_map]; [reflexivity|].
      apply first_some_none. revert F. apply Forall_impl.
      intros [u' w] (a & w' & -> & Ca). cbn [fst snd expect].
      destruct (Ascii.eqb c a) eqn:Eca; [|reflexivity].
      apply Ascii.eqb_eq in Eca. congruence.
    + cbn [option_map]. apply first_some_none. revert F. apply Forall_impl.
      intros [u' w] (a & w' & -> & Ca). cbn [fst snd expect].
      destruct (Ascii.eqb c a) eqn:Eca; [|reflexivity].
      apply Ascii.eqb_eq in Eca. congruence.
Qed.

(** A group at the end of the pattern takes the longest run. *)
Lemma group_at_end (class : ascii -> bool) (s : string) :
  re_match [Group class] s
  = let (u, _) := span class s in
    if is_empty u then None else Some [u].
Proof.
  cbn [re_match]. pose proof (runs_shorter class s) as R.
  destruct (runs class s) as [|[u v] shorter].
  - destruct (span class s) as [u v]. cbn [fst] in R. now subst u.
  - destruct R as (E & N & _). rewrite <- E. cbn [first_some fst snd] in *.
    apply StrFacts.is_empty_false in N. now rewrite N.
Qed.

Lemma re_match_lit (lit : string) (rest : list piece) (s : string) :
  re_match (Lit lit :: rest) s
  = match expect lit s with
    | Some s' => re_match rest s'
    | None => None
    end.
Proof. reflexivity. Qed.

(** The segment pattern read from left to right: every group is the
    longest run of its class and must not be empty. *)
Lemma segment_match_spans (line : string) :
  segment_match line
  = match expect "[" line with
    | None => None
    | Some r0 =>
      let (g1, r1) := span is_stamp_char r0 in
      if is_empty g1 then None else
      match expect " -> " r1 with
      | None => None
      | Some r2 =>
        let (g2, r3) := span is_stamp_char r2 in
        if is_empty g2 then None else
        match expect "] " r3 with
        | None => None
        | Some r4 =>
          let (g3, r5) := span is_not_colon r4 in
          if is_empty g3 then None else
          match expect ": " r5 with
          | None => None
          | Some r6 =>
            let (g4, _) := span is_not_newline r6 in
            if is_empty g4 then None else Some (g1, g2, g3, g4)
          end
        end
      end
    end.
Proof.
  unfold segment_match, segment_pattern.
  rewrite re_match_lit.
  destruct (expect "[" line) as [r0|]; [|reflexivity].
  rewrite (group_then_literal is_stamp_char " "%char) by reflexivity.
  destruct (span is_stamp_char r0) as [g1 r1].
  destruct (is_empty g1); [reflexivity|].
  rewrite re_match_lit.
  destruct (expect " -> " r1) as [r2|]; [|reflexivity].
  rewrite (group_then_literal is_stamp_char "]"%char) by reflexivity.
  destruct (span is_stamp_char r2) as [g2 r3].
  destruct (is_empty g2); [reflexivity|].
  rewrite re_match_lit.
  destruct (expect "] " r3) as [r4|]; [|reflexivity].
  rewrite (group_then_literal is_not_colon ":"%char) by reflexivity.
  destruct (span is_not_colon r4) as [g3 r5].
  destruct (is_empty g3); [reflexivity|].
  rewrite re_match_lit.
  destruct (expect ": " r5) as [r6|]; [|reflexivity].
  rewrite group_at_end.
  destruct (span is_not_newline r6) as [g4 r7].
  destruct (is_empty g4); reflexivity.
Qed.

(** A well-formed segment is read back from its line. *)
Lemma segment_match_line (g : AlignedSegment) :
  wf_segment g ->
  segment_match (segment_line g)
  = Some (start g, end_ g, speaker g, text g).
Proof.
  intros ((S1 & S2) & (E1 & E2) & (P1 & P2 & P3) & (T1 & T2 & T3)).
  rewrite segment_match_spans. unfold segment_line.
  change ("[" ++ start g ++ " -> " ++ end_ g ++ "] " ++ speaker g
          ++ ": " ++ text g)
    with ("[" ++ (start g ++ String " " ("-> " ++ end_ g ++ "] "
                    ++ speaker g ++ ": " ++ text g))).
  rewrite expect_append.
  rewrite (span_stop is_stamp_char (start g) " "%char _ S2 eq_refl).
  apply StrFacts.is_empty_false in S1. rewrite S1.
  change (String " " ("-> " ++ end_ g ++ "] " ++ speaker g ++ ": " ++ text g))
    with (" -> " ++ (end_ g ++ String "]" (" " ++ speaker g ++ ": "
                                             ++ text g))).
  rewrite expect_append.
  rewrite (span_stop is_stamp_char (end_ g) "]"%char _ E2 eq_refl).
  apply StrFacts.is_empty_false in E1. rewrite E1.
  change (String "]" (" " ++ speaker g ++ ": " ++ text g))
    with ("] " ++ (speaker g ++ String ":" (" " ++ text g))).
  rewrite expect_append.
  rewrite (span_stop is_not_colon (speaker g) ":"%char _ P2 eq_refl).
  apply StrFacts.is_empty_false in P1. rewrite P1.
  change (String ":" (" " ++ text g)) with (": " ++ text g).
  rewrite expect_append.
  rewrite (span_all is_not_newline (text g) T2).
  apply StrFacts.is_empty_false in T1. now rewrite T1.
Qed.

Lemma line_segment_line (g : AlignedSegment) :
  wf_segment g -> line_segment (segment_line g) = [g].
Proof.
  intros W. unfold line_segment. rewrite (segment_match_line g W).
  assert (A : startswith (segment_line g) "[" = true)
    by (unfold startswith, segment_line; apply StrFacts.prefix_append).
  assert (B : contains "->" (segment_line g) = true).
  { apply StrFacts.contains_spec.
    exists ("[" ++ start g ++ " "),
           (" " ++ end_ g ++ "] " ++ speaker g ++ ": " ++ text g).
    unfold segment_line. now rewrite !StrFacts.append_assoc. }
  assert (C : contains "]" (segment_line g) = true).
  { apply StrFacts.contains_spec.
    exists ("[" ++ start g ++ " -> " ++ end_ g),
           (" " ++ speaker g ++ ": " ++ text g).
    unfold segment_line. now rewrite !StrFacts.append_assoc. }
  rewrite A, B, C. cbn [andb].
  destruct W as (_ & _ & _ & (_ & _ & T3)). rewrite T3.
  now destruct g.
Qed.

Lemma segment_line_one_line (g : AlignedSegment) :
  wf_segment g -> one_line (segment_line g).
Proof.
  intros ((S1 & S2) & (E1 & E2) & (P1 & P2 & P3) & (T1 & T2 & T3)).
  unfold one_line, segment_line. rewrite !StrFacts.all_chars_append.
  rewrite (StrFacts.all_chars_impl _ _ _ stamp_char_one_line S2).
  rewrite (StrFacts.all_chars_impl _ _ _ stamp_char_one_line E2).
  unfold one_line in P3, T2. rewrite P3, T2. reflexivity.
Qed.

(** ** Lines of a written file *)

Lemma split_not_nil (c : ascii) (s : string) : split c s <> [].
Proof.
  destruct s as [|a s]; cbn [split]; [discriminate|].
  destruct (Ascii.eqb a c); [discriminate|].
  destruct (split c s); discriminate.
Qed.

Lemma split_append (a b : string) :
  split nl (a ++ String nl b) = (split nl a ++ split nl b)%list.
Proof.
  induction a as [|c a IH]; cbn [append split].
  - now rewrite Ascii.eqb_refl.
  - rewrite IH. destruct (Ascii.eqb c nl); [reflexivity|].
    pose proof (split_not_nil nl a) as N.
    destruct (split nl a) as [|h t]; [congruence | reflexivity].
Qed.

Lemma split_one_line (l : string) : one_line l -> split nl l = [l].
Proof.
  unfold one_line. induction l as [|a l IH]; cbn [split all_chars];
    [reflexivity|].
  intros H. apply andb_true_iff in H. destruct H as [Ha Hl].
  unfold is_not_newline in Ha. apply negb_true_iff in Ha.
  now rewrite Ha, (IH Hl).
Qed.

Lemma join_cons (sep x : string) (r : list string) :
  r <> [] -> join sep (x :: r) = x ++ sep ++ join sep r.
Proof. destruct r; [congruence | reflexivity]. Qed.

(** The lines of a joined text are the lines of its parts. *)
Lemma split_join (ls : list string) :
  ls <> [] -> split nl (join newline ls) = flat_map (split nl) ls.
Proof.
  induction ls as [|l ls IH]; [congruence|]. intros _.
  destruct ls as [|l' ls].
  - cbn. now rewrite app_nil_r.
  - rewrite join_cons by discriminate.
    unfold newline at 1. cbn [append]. rewrite split_append.
    rewrite IH by discriminate. reflexivity.
Qed.

Lemma line_segment_other (c : ascii) (s : string) :
  Ascii.eqb c "["%char = false -> line_segment (String c s) = [].
Proof.
  intros H. unfold line_segment, startswith. cbn [String.prefix].
  destruct (ascii_dec "[" c) as [<-|_]; [discriminate | reflexivity].
Qed.

Lemma flat_map_segment_lines (segs : list AlignedSegment) :
  Forall wf_segment segs ->
  flat_map line_segment (map segment_line segs) = segs.
Proof.
  induction 1 as [|g segs W _ IH]; [reflexivity|].
  cbn [map flat_map]. now rewrite (line_segment_line g W), IH.
Qed.

Lemma flat_map_none {A B} (f : A -> list B) (l : list A) :
  Forall (fun x => f x = []) l -> flat_map f l = [].
Proof.
  induction 1 as [|x l E _ IH]; [reflexivity|].
  cbn [flat_map]. now rewrite E, IH.
Qed.

Lemma flat_map_split_segment_lines (segs : list AlignedSegment) :
  Forall wf_segment segs ->
  flat_map (split nl) (map segment_line segs) = map segment_line segs.
Proof.
  induction 1 as [|g segs W _ IH]; [reflexivity|].
  cbn [map flat_map].
  now rewrite (split_one_line _ (segment_line_one_line g W)), IH.
Qed.

(** The lines of a written transcript: those of the header, the segment
    lines, the fixed lines, those of the full text. *)
Lemma format_txt_lines (video_filename language duration : string)
    (segs : list AlignedSegment) (full_text : string) :
  Forall wf_segment segs ->
  split nl (format_txt video_filename language duration segs full_text)
  = (split nl ("Detected Language: " ++ language)
     ++ split nl ("Total Duration: " ++ duration)
     ++ [EmptyString; "TRANSCRIPT WITH SPEAKERS:"; rule; EmptyString]
     ++ map segment_line segs
     ++ [EmptyString; rule; "FULL TRANSCRIPT:"; rule; EmptyString]
     ++ split nl full_text)%list.
Proof.
  intros Hs. unfold format_txt.
  rewrite split_join by (unfold header; discriminate).
  rewrite !flat_map_app, (flat_map_split_segment_lines segs Hs).
  unfold header, footer. cbn [flat_map].
  change (split nl EmptyString) with [EmptyString].
  change (split nl "TRANSCRIPT WITH SPEAKERS:")
    with ["TRANSCRIPT WITH SPEAKERS:"].
  change (split nl "FULL TRANSCRIPT:") with ["FULL TRANSCRIPT:"].
  replace (split nl rule) with [rule] by (vm_compute; reflexivity).
  rewrite (app_nil_r (split nl full_text)).
  rewrite <- !app_assoc. cbn [app]. reflexivity.
Qed.

(** The segments read back from a written transcript *)
Lemma parse_format_txt_segments (video_filename language duration : string)
    (segs : list AlignedSegment) (full_text file_path : string) :
  no_segment_line ("Detected Language: " ++ language) ->
  no_segment_line ("Total Duration: " ++ duration) ->
  Forall wf_segment segs -> no_segment_line full_text ->
  segments (_parse_transcript
              (format_txt video_filename language duration segs full_text)
              file_path) = segs.
Proof.
  intros Hl Hd Hs Hf. unfold _parse_transcript. cbn [segments].
  rewrite (format_txt_lines _ _ _ _ _ Hs).
  rewrite parse_fold_spec by reflexivity. cbn [st_segments parse_init].
  rewrite !flat_map_app.
  rewrite (flat_map_none line_segment _ Hl).
  rewrite (flat_map_none line_segment _ Hd).
  rewrite (flat_map_segment_lines segs Hs).
  rewrite (flat_map_none line_segment (split nl full_text) Hf).
  replace (flat_map line_segment
             [EmptyString; "TRANSCRIPT WITH SPEAKERS:"; rule; EmptyString])
    with (@nil AlignedSegment) by (vm_compute; reflexivity).
  replace (flat_map line_segment
             [EmptyString; rule; "FULL TRANSCRIPT:"; rule; EmptyString])
    with (@nil AlignedSegment) by (vm_compute; reflexivity).
  cbn [app]. now rewrite app_nil_r.
Qed.

(** A header line that holds no line break brings no segment. *)
Lemma header_line_clean (c : ascii) (label value : string) :
  Ascii.eqb c "["%char = false ->
  one_line (String c label ++ value) ->
  no_segment_line (String c label ++ value).
Proof.
  intros Hc Hl. unfold no_segment_line. rewrite (split_one_line _ Hl).
  constructor; [|constructor]. cbn [append]. now apply line_segment_other.
Qed.

(** C2, as the code has it.  A transcript whose language and duration
    bring no line of the segment shape into the header, whose segments
    have stamps made of digits and colons, a speaker without colon or
    line break and a text without line break or white space at its ends,
    none of them empty, and whose full text has no line of the segment
    shape, is read back from its full-detail file with the very segments
    it was written with: same number, same speakers, same texts, hence
    the same concatenated text. *)
Theorem roundtrip_segments (video_filename language duration : string)
    (segs : list AlignedSegment) (full_text file_path : string) :
  no_segment_line ("Detected Language: " ++ language) ->
  no_segment_line ("Total Duration: " ++ duration) ->
  Forall wf_segment segs -> no_segment_line full_text ->
  let r := _parse_transcript
             (format_txt video_filename language duration segs full_text)
             file_path in
  segments r = segs
  /\ List.length (segments r) = List.length segs
  /\ map speaker (segments r) = map speaker segs
  /\ join " " (map text (segments r)) = join " " (map text segs).
Proof.
  intros Hl Hd Hs Hf r.
  assert (E : segments r = segs)
    by now apply parse_format_txt_segments.
  rewrite E. auto.
Qed.

(** The segments written without diarization meet the conditions as soon
    as their times are not negative and their texts are on one line and
    not blank. *)
Lemma fallback_segment_wf (segment : RawSegment) :
  (0 <= raw_start segment)%Q -> (0 <= raw_end segment)%Q ->
  one_line (raw_text segment) ->
  strip (raw_text segment) <> EmptyString ->
  wf_segment (fallback_segment segment).
Proof.
  intros Hs He Hl Hn. unfold wf_segment, fallback_segment.
  cbn [start end_ speaker text].
  split; [now apply TimestampFacts.format_timestamp_stamp|].
  split; [now apply TimestampFacts.format_timestamp_stamp|].
  split; [repeat split; discriminate|].
  split; [exact Hn|]. split.
  - now apply StrFacts.all_chars_strip.
  - apply StrFacts.strip_strip.
Qed.

(** So a transcript written without diarization is read back whole when
    the language is on one line, the times are not negative, the texts
    are on one line and not blank, and no line of the full text has the
    segment shape. *)
Lemma fallback_transcript_read_back (video_filename language : string)
    (raws : list RawSegment) (duration : Q) (full_text file_path : string) :
  one_line language -> (0 <= duration)%Q ->
  Forall (fun w => (0 <= raw_start w)%Q /\ (0 <= raw_end w)%Q
                   /\ one_line (raw_text w)
                   /\ strip (raw_text w) <> EmptyString) raws ->
  no_segment_line full_text ->
  segments (_parse_transcript
              (format_txt video_filename language (format_timestamp duration)
                 (snd (segments_with_speakers raws None)) full_text)
              file_path)
  = map fallback_segment raws.
Proof.
  intros Hl Hd Hr Hf.
  assert (E : snd (segments_with_speakers raws None)
              = map fallback_segment raws).
  { unfold segments_with_speakers, align.
    now rewrite AlignerFacts.fallback_loop_spec. }
  rewrite E. apply parse_format_txt_segments.
  - apply header_line_clean; [reflexivity|].
    unfold one_line. rewrite StrFacts.all_chars_append. exact Hl.
  - apply header_line_clean; [reflexivity|].
    unfold one_line. rewrite StrFacts.all_chars_append. cbn [andb all_chars].
    destruct (TimestampFacts.format_timestamp_stamp duration Hd) as [_ D].
    exact (StrFacts.all_chars_impl _ _ _ stamp_char_one_line D).
  - apply Forall_forall. intros g Hg. apply in_map_iff in Hg.
    destruct Hg as (w & <- & Hw). rewrite Forall_forall in Hr.
    destruct (Hr w Hw) as (A & B & C & D).
    now apply fallback_segment_wf.
  - exact Hf.
Qed.

Lemma roundtrip_segments_witness :
  let segs := [mkAligned "00:00:00" "00:00:02" "SPEAKER_00" "hello there";
               mkAligned "00:00:02" "00:00:05" "SPEAKER_01" "hi"] in
  (no_segment_line ("Detected Language: " ++ "en")
   /\ no_segment_line ("Total Duration: " ++ "00:00:05")
   /\ Forall wf_segment segs
   /\ no_segment_line "hello there hi")
  /\ segments (_parse_transcript
                 (format_txt "talk.mp4" "en" "00:00:05" segs "hello there hi")
                 "out/talk_transcript.txt") = segs.
Proof.
  intros segs.
  assert (Hl : no_segment_line ("Detected Language: " ++ "en"))
    by (repeat constructor).
  assert (Hd : no_segment_line ("Total Duration: " ++ "00:00:05"))
    by (repeat constructor).
  assert (Hs : Forall wf_segment segs).
  { repeat constructor; try discriminate; reflexivity. }
  assert (Hf : no_segment_line "hello there hi")
    by (repeat constructor).
  split; [auto|].
  exact (proj1 (roundtrip_segments "talk.mp4" "en" "00:00:05" segs
                  "hello there hi" "out/talk_transcript.txt" Hl Hd Hs Hf)).
Defined.

(** C2, as stated, fails: without diarization a raw segment with blank
    text becomes an aligned segment with empty text, its line ends after
    the colon and the space, the pattern wants at least one more
    character, and the segment is not read back. *)
Lemma roundtrip_loses_blank_segment :
  let segs := snd (segments_with_speakers [mkRaw 0 1 " "] None) in
  segs = [mkAligned "00:00:00" "00:00:01" "SPEAKER_00" EmptyString]
  /\ segments (_parse_transcript
                 (format_txt "talk.mp4" "en" "00:00:01" segs " ")
                 "out/talk_transcript.txt") = []
  /\ List.length
       (segments (_parse_transcript
                    (format_txt "talk.mp4" "en" "00:00:01" segs " ")
                    "out/talk_transcript.txt"))
     <> List.length segs.
Proof.
  intros segs. split; [vm_compute; reflexivity|].
  split; [vm_compute; reflexivity | vm_compute; discriminate].
Qed.

(** Each of the other conditions is needed as well: a colon in the
    speaker moves the boundary between speaker and text, a line break in
    a text cuts it, a line of the full text in the segment shape is read
    as one more segment, and so is such a line brought in by the
    language. *)
Lemma roundtrip_conditions_needed :
  map speaker
      (segments (_parse_transcript
                   (format_txt "t.mp4" "en" "00:00:02"
                      [mkAligned "00:00:00" "00:00:02" "Dr: Who" "hi"] "hi")
                   "t_transcript.txt")) = ["Dr"]
  /\ map text
         (segments (_parse_transcript
                      (format_txt "t.mp4" "en" "00:00:02"
                         [mkAligned "00:00:00" "00:00:02" "A"
                            ("one" ++ String nl "two")] "one two")
                      "t_transcript.txt")) = ["one"]
  /\ List.length
       (segments (_parse_transcript
                    (format_txt "t.mp4" "en" "00:00:02"
                       [mkAligned "00:00:00" "00:00:02" "A" "hi"]
                       "[1 -> 2] B: said")
                    "t_transcript.txt")) = 2
  /\ List.length
       (segments (_parse_transcript
                    (format_txt "t.mp4" ("en" ++ String nl "[1 -> 2] B: x")
                       "00:00:02"
                       [mkAligned "00:00:00" "00:00:02" "A" "hi"] "hi")
                    "t_transcript.txt")) = 2.
Proof. repeat split; vm_compute; reflexivity. Qed.

(** ** What the parser does with the other lines *)

Lemma parse_flag_stays_false (lines : list string) :
  st_in_segments (fold_left parse_line lines parse_init) = false.
Proof. now rewrite parse_fold_spec. Qed.

Lemma parse_segments_spec (content file_path : string) :
  segments (_parse_transcript content file_path)
  = flat_map line_segment (split nl content).
Proof.
  unfold _parse_transcript. cbn [segments].
  now rewrite parse_fold_spec.
Qed.

(** A file without segment lines that has the full-text marker gives a
    record without segments whose full text is what follows the last
    marker. *)
Lemma parse_without_segment_lines (content file_path : string) :
  flat_map line_segment (split nl content) = [] ->
  contains "FULL TRANSCRIPT:" content = true ->
  segments (_parse_transcript content file_path) = []
  /\ exists tail,
       after_last "FULL TRANSCRIPT:" content = Some tail
       /\ full_text (_parse_transcript content file_path)
          = strip (strip tail).
Proof.
  intros Hn Hc. split; [now rewrite parse_segments_spec|].
  assert (A : exists tail, after_last "FULL TRANSCRIPT:" content = Some tail).
  { clear Hn. induction content as [|a s IH]; [discriminate|].
    cbn [contains] in Hc. cbn [after_last].
    destruct (after_last "FULL TRANSCRIPT:" s) as [t|] eqn:E;
      [now exists t|].
    destruct (String.prefix "FULL TRANSCRIPT:" (String a s)) eqn:P;
      [eexists; reflexivity|].
    cbn [orb] in Hc. destruct (IH Hc) as [t Ht]. discriminate. }
  destruct A as [tail Ht]. exists tail. split; [exact Ht|].
  unfold _parse_transcript. cbn [full_text].
  rewrite parse_fold_spec by reflexivity. cbn [st_segments parse_init app].
  now rewrite Hn, Hc, Ht.
Qed.

(** The language is taken from the first line that starts with the
    header. *)
Lemma parse_language_header (language : string) (rest : list string) :
  find_language (("Detected Language: " ++ language) :: rest)
  = strip language.
Proof.
  cbn [find_language]. unfold startswith.
  change ("Detected Language: " ++ language)
    with ("Detected Language:" ++ String " " language).
  rewrite StrFacts.prefix_append.
  change ("Detected Language:" ++ String " " language)
    with ("Detected Language" ++ String colon (String " " language)).
  assert (A : forall u v, all_chars is_not_colon u = true ->
                          after_first colon (u ++ String colon v) = Some v).
  { intros u v. induction u as [|a u IH]; cbn [append after_first all_chars].
    - now rewrite Ascii.eqb_refl.
    - intros H. apply andb_true_iff in H. destruct H as [Ha Hu].
      unfold is_not_colon in Ha. apply negb_true_iff in Ha.
      now rewrite Ha, IH. }
  rewrite A by reflexivity.
  unfold strip. cbn [rstrip].
  destruct (rstrip language) eqn:E.
  - destruct (is_space " "); reflexivity.
  - reflexivity.
Qed.

(** C7, on the code.  In the parsing loop the flag [in_segments] is
    false from start to end, so the branch that would add an
    unrecognized line to the full text is never taken: the segments are
    those of the lines of the segment shape, one per such line in order,
    and as soon as there is one the full text is made of the segment
    texts alone.  A file written by [format_txt] with one segment "hi"
    and the full text "hi and more words" is read back with the full
    text "hi". *)
Theorem parse_drops_unrecognized_lines (content file_path : string) :
  let r := _parse_transcript content file_path in
  st_in_segments (fold_left parse_line (split nl content) parse_init) = false
  /\ segments r = flat_map line_segment (split nl content)
  /\ (segments r <> [] ->
      full_text r = strip (spaced (map text (segments r))))
  /\ full_text
       (_parse_transcript
          (format_txt "v.mp4" "en" "00:00:02"
             [mkAligned "00:00:00" "00:00:02" "SPEAKER_00" "hi"]
             "hi and more words")
          "out/v_transcript.txt") = "hi".
Proof.
  intros r. split; [apply parse_flag_stays_false|].
  split; [apply parse_segments_spec|].
  split; [|vm_compute; reflexivity].
  unfold r, _parse_transcript. cbn [segments full_text].
  rewrite parse_fold_spec by reflexivity.
  cbn [st_segments st_full_text parse_init app append].
  intros Hne.
  destruct (flat_map line_segment (split nl content)); [congruence|].
  reflexivity.
Qed.

Lemma parse_drops_unrecognized_lines_witness :
  let content :=
    format_txt "v.mp4" "en" "00:00:02"
      [mkAligned "00:00:00" "00:00:02" "SPEAKER_00" "hi"]
      "hi and more words" in
  segments (_parse_transcript content "out/v_transcript.txt") <> []
  /\ full_text (_parse_transcript content "out/v_transcript.txt")
     = strip (spaced
                (map text
                   (segments
                      (_parse_transcript content "out/v_transcript.txt")))).
Proof.
  intros content.
  assert (H : segments (_parse_transcript content "out/v_transcript.txt")
              <> []) by (vm_compute; discriminate).
  split; [exact H|].
  exact (proj1 (proj2 (proj2 (parse_drops_unrecognized_lines content
                                "out/v_transcript.txt"))) H).
Defined.

End ParserFacts.


(* ================================================================== *)
(** * More on the language-model gateway *)
(* ================================================================== *)

Module LLMInitFacts.
Import PyStr LLM LLMInit.

Lemma join_contains (sep : string) (l : list string) (t : string) :
  In t l -> contains t (join sep l) = true.
Proof.
  unfold join. induction l as [|x l IH]; [intros []|].
  intros [->|H]; cbn [String.concat].
  - destruct l.
    + apply StrFacts.contains_prefix.
      rewrite <- (StrFacts.append_nil_r t) at 2. apply StrFacts.prefix_append.
    + apply StrFacts.contains_prefix, StrFacts.prefix_append.
  - destruct l as [|y r]; [destruct H|].
    apply StrFacts.contains_skip, StrFacts.contains_skip. exact (IH H).
Qed.

(** X1.  Whatever the template name and the language, the prompt built
    for a transcript contains the transcript as it is; and a template
    name that [get_templates] does not list gives the same prompt as
    "clean". *)
Theorem build_prompt_holds_transcript (transcript template language : string) :
  contains transcript (_build_prompt transcript template language) = true
  /\ (existsb (String.eqb template) (map fst get_templates) = false ->
      _build_prompt transcript template language
      = _build_prompt transcript "clean" language).
Proof.
  split.
  - unfold _build_prompt.
    repeat match goal with
           | |- context [if ?b then _ else _] => destruct b
           end;
      unfold template_clean, template_summary, template_translate,
        template_detailed, template_meeting_notes, lines;
      apply join_contains; cbn [In]; tauto.
  - cbn [get_templates map fst existsb]. intros H.
    repeat (apply orb_false_iff in H; destruct H as [? H]).
    unfold _build_prompt.
    repeat match goal with
           | E : (template =? ?n)%string = false
             |- context [(template =? ?n)%string] => rewrite E
           end.
    rewrite String.eqb_sym in H0.
    destruct (template =? "clean")%string; reflexivity.
Qed.

Lemma build_prompt_holds_transcript_witness :
  existsb (String.eqb "haiku") (map fst get_templates) = false
  /\ _build_prompt "hello" "haiku" "en" = _build_prompt "hello" "clean" "en".
Proof.
  split; [reflexivity|].
  exact (proj2 (build_prompt_holds_transcript "hello" "haiku" "en") eq_refl).
Defined.

(** X2.  The templates that [get_templates] offers are told apart by
    [_build_prompt]: for one transcript, two listed names give the same
    prompt only when they are the same name. *)
Theorem listed_templates_differ (transcript language n1 n2 : string) :
  In n1 (map fst get_templates) -> In n2 (map fst get_templates) ->
  _build_prompt transcript n1 language = _build_prompt transcript n2 language ->
  n1 = n2.
Proof.
  cbn [get_templates map fst In]. intros H1 H2.
  repeat (destruct H1 as [<-|H1]); try destruct H1;
    repeat (destruct H2 as [<-|H2]); try destruct H2;
    try reflexivity;
    cbn; intros E; discriminate E.
Qed.

Lemma listed_templates_differ_witness :
  In "summary" (map fst get_templates)
  /\ In "detailed" (map fst get_templates)
  /\ _build_prompt "hello" "summary" "en"
     <> _build_prompt "hello" "detailed" "en".
Proof.
  assert (H1 : In "summary" (map fst get_templates)) by (cbn; tauto).
  assert (H2 : In "detailed" (map fst get_templates)) by (cbn; tauto).
  split; [exact H1|]. split; [exact H2|].
  intros E.
  pose proof (listed_templates_differ "hello" "en" "summary" "detailed"
                H1 H2 E) as N.
  discriminate N.
Defined.

Lemma process_inert (env : Env) (self : LLMProcessor)
    (transcript template language : string) (h : list Event) :
  SearchSpec.known_provider (provider self) = false ->
  process env self transcript template language h = (Returned None, h).
Proof.
  intros K. rewrite LLMFacts.process_run. cbv zeta.
  unfold SearchSpec.known_provider in K. rewrite K.
  now destruct (provider self =? "none")%string.
Qed.

(** X3.  Constructing a processor never raises.  When the provider name,
    in lower case, is not one of the four known ones (as is "none" in any
    casing), or when importing its library or building its client fails,
    the processor obtained is inert: [process] returns none on it and
    does nothing, whatever the surroundings.  A model name given by the
    caller is kept. *)
Theorem construction_degrades_to_inert (client : string -> client_outcome)
    (provider_name : string) (api_key model : option string)
    (h : list Event) :
  exists self h',
    __init__ client provider_name api_key model h = (Returned self, h')
    /\ (SearchSpec.known_provider (lower provider_name) = false
        \/ client (lower provider_name) <> ClientReady ->
        forall env transcript template language h2,
          process env self transcript template language h2
          = (Returned None, h2))
    /\ (forall m, model = Some m -> m <> EmptyString ->
                  LLM.model self = Some m).
Proof.
  unfold __init__. cbn [provider].
  destruct (lower provider_name =? "none")%string eqn:N; cbn [negb].
  - apply String.eqb_eq in N. eexists _, _. split; [reflexivity|]. split.
    + intros _ env t tpl l h2. apply process_inert. cbn [provider].
      now rewrite N.
    + intros m -> _. reflexivity.
  - unfold _initialize_client. cbn [LLM.provider LLM.api_key LLM.model LLM.template].
    fold (SearchSpec.known_provider (lower provider_name)).
    destruct (SearchSpec.known_provider (lower provider_name)) eqn:K;
      cbn [negb].
    + destruct (client (lower provider_name)) eqn:C.
      * eexists _, _. split; [reflexivity|]. split.
        -- intros [H|H]; [discriminate | congruence].
        -- intros m -> Hm. cbn [LLM.model].
           apply StrFacts.is_empty_false in Hm. unfold model_or.
           rewrite Hm.
           repeat match goal with
                  | |- context [if ?b then _ else _] => destruct b
                  end; reflexivity.
      * eexists _, _. split; [reflexivity|]. split.
        -- intros _ env t tpl l h2. now apply process_inert.
        -- intros m -> _. reflexivity.
      * eexists _, _. split; [reflexivity|]. split.
        -- intros _ env t tpl l h2. now apply process_inert.
        -- intros m -> _. reflexivity.
    + eexists _, _. split; [reflexivity|]. split.
      * intros _ env t tpl l h2. now apply process_inert.
      * intros m -> _. reflexivity.
Qed.

Lemma construction_degrades_to_inert_witness :
  let client := fun _ : string => ImportFailed "No module named openai" in
  (SearchSpec.known_provider (lower "OpenAI") = false
   \/ client (lower "OpenAI") <> ClientReady)
  /\ exists self h',
       __init__ client "OpenAI" None None [] = (Returned self, h')
       /\ process (Samples.env_with (fun _ => true) (Returned (Some "text"))
                     Samples.no_embedding)
            self "hello" "clean" "en" h'
          = (Returned None, h').
Proof.
  intros client.
  assert (H : SearchSpec.known_provider (lower "OpenAI") = false
              \/ client (lower "OpenAI") <> ClientReady)
    by (right; discriminate).
  split; [exact H|].
  destruct (construction_degrades_to_inert client "OpenAI" None None [])
    as (self & h' & E & I & _).
  exists self, h'. split; [exact E|]. now apply I.
Defined.

End LLMInitFacts.

(* ================================================================== *)
(** * More on keyword search *)
(* ================================================================== *)

Module LowerFacts.
Import PyStr.

Lemma lower_append (s t : string) : lower (s ++ t) = lower s ++ lower t.
Proof.
  induction s as [|a s IH]; cbn [append lower]; [reflexivity|].
  now rewrite IH.
Qed.

Lemma lower_length (s : string) : String.length (lower s) = String.length s.
Proof. induction s as [|a s IH]; cbn; [reflexivity | now rewrite IH]. Qed.

End LowerFacts.

Module HighlightFacts.

Section Alphabet.

Variable C : Type.
Variable eqb : C -> C -> bool.
Variable fold_eq : C -> C -> bool.
Variable star : C.

Hypothesis star_is_star : eqb star star = true.

Local Abbreviation matches_here := (Highlight.matches_here C eqb fold_eq).
Local Abbreviation highlight_from := (Highlight.highlight_from C eqb fold_eq star).
Local Abbreviation highlight_empty := (Highlight.highlight_empty C star).
Local Abbreviation _highlight_text :=
  (Highlight._highlight_text C eqb fold_eq star).
Local Abbreviation found := (Highlight.found C eqb fold_eq).
Local Abbreviation erase := (Highlight.erase C eqb star).
Local Abbreviation has_marker := (Highlight.has_marker C eqb star).

Lemma erase_star (s : list C) : erase (star :: s) = erase s.
Proof. unfold Highlight.erase. cbn [filter]. now rewrite star_is_star. Qed.

Lemma erase_cons (a : C) (s t : list C) :
  erase s = erase t -> erase (a :: s) = erase (a :: t).
Proof.
  unfold Highlight.erase. cbn [filter]. intros E.
  destruct (negb (eqb a star)); now rewrite E.
Qed.

Lemma erase_highlight_from (query : list C) (cs : bool) (inside : nat)
    (s : list C) :
  erase (highlight_from query cs inside s) = erase s.
Proof.
  revert inside. induction s as [|a s IH]; intros inside; [reflexivity|].
  cbn [Highlight.highlight_from].
  destruct inside as [|[|k]].
  - destruct (matches_here cs query (a :: s)).
    + destruct (List.length query) as [|[|k]];
        rewrite !erase_star; apply erase_cons;
        rewrite ?erase_star; apply IH.
    + apply erase_cons, IH.
  - apply erase_cons. rewrite !erase_star. apply IH.
  - apply erase_cons, IH.
Qed.

Lemma erase_highlight_empty (s : list C) :
  erase (highlight_empty s) = erase s.
Proof.
  induction s as [|a s IH]; cbn [Highlight.highlight_empty].
  - now rewrite !erase_star.
  - rewrite !erase_star. now apply erase_cons.
Qed.

Lemma highlight_from_not_found (query : list C) (cs : bool) (s : list C) :
  found cs query s = false -> highlight_from query cs 0 s = s.
Proof.
  induction s as [|a s IH]; [reflexivity|].
  cbn [Highlight.found]. intros H. apply orb_false_iff in H.
  destruct H as [M H].
  cbn [Highlight.highlight_from]. rewrite M. now rewrite (IH H).
Qed.

Lemma has_marker_start (s : list C) : has_marker (star :: star :: s) = true.
Proof. cbn [Highlight.has_marker]. now rewrite star_is_star. Qed.

Lemma has_marker_cons (a : C) (s : list C) :
  has_marker s = true -> has_marker (a :: s) = true.
Proof.
  intros H. destruct s as [|b s]; [discriminate H|].
  change (has_marker (a :: b :: s))
    with ((eqb a star && eqb b star) || has_marker (b :: s)).
  rewrite H. apply orb_true_r.
Qed.

Lemma highlight_from_found (query : list C) (cs : bool) (s : list C) :
  query <> [] -> found cs query s = true ->
  has_marker (highlight_from query cs 0 s) = true.
Proof.
  intros N. induction s as [|a s IH].
  - destruct query as [|q0 q]; [congruence|]. discriminate.
  - cbn [Highlight.found Highlight.highlight_from].
    destruct (matches_here cs query (a :: s)); cbn [orb].
    + intros _. destruct (List.length query) as [|[|k]];
        apply has_marker_start.
    + intros H. apply has_marker_cons, IH, H.
Qed.

(** X4.  [_highlight_text] over any alphabet and for any way in which
    the compiled pattern compares characters.  Highlighting only adds
    asterisks: without its asterisks the highlighted text is the text
    without its asterisks.  When the query is not empty and the pattern
    matches nowhere in the text, the text comes back as it is; when the
    pattern matches somewhere, the result holds two asterisks in a
    row. *)
Theorem highlight_only_marks (text query : list C) (case_sensitive : bool) :
  erase (_highlight_text text query case_sensitive) = erase text
  /\ (query <> [] -> found case_sensitive query text = false ->
      _highlight_text text query case_sensitive = text)
  /\ (found case_sensitive query text = true ->
      has_marker (_highlight_text text query case_sensitive) = true).
Proof.
  unfold Highlight._highlight_text. split; [|split].
  - destruct query;
      [apply erase_highlight_empty | apply erase_highlight_from].
  - intros N H. destruct query as [|q0 q]; [congruence|].
    now apply highlight_from_not_found.
  - intros H. destruct query as [|q0 q].
    + destruct text; apply has_marker_start.
    + apply highlight_from_found; [discriminate | exact H].
Qed.

End Alphabet.

(** The words are given by their code points: the query "din" is found
    in "kadın" (with the dotless i, 305) although the lower-case forms
    differ, and is marked there; "tax" is not found in "cut". *)
Lemma highlight_only_marks_witness :
  let highlight := Highlight._highlight_text N N.eqb Highlight.fold_eq_code
                     42%N in
  let din := [100; 105; 110]%N in
  let kadin := [107; 97; 100; 305; 110]%N in
  let tax := [116; 97; 120]%N in
  let cut := [99; 117; 116]%N in
  highlight kadin din false = [107; 97; 42; 42; 100; 305; 110; 42; 42]%N
  /\ highlight kadin din true = kadin
  /\ highlight cut tax false = cut
  /\ Highlight.erase N N.eqb 42%N (highlight kadin din false) = kadin.
Proof.
  intros highlight din kadin tax cut.
  pose proof (highlight_only_marks N N.eqb Highlight.fold_eq_code 42%N
                eq_refl) as H.
  split; [vm_compute; reflexivity|]. split.
  - apply (proj1 (proj2 (H kadin din true))); [discriminate | reflexivity].
  - split.
    + apply (proj1 (proj2 (H cut tax false))); [discriminate | reflexivity].
    + exact (proj1 (H kadin din false)).
Defined.

End HighlightFacts.

Module KeywordCaseFacts.
Import PyStr Aligner Search SearchSpec.

Lemma plain_keyword_match (q q' : string) (cs cs' : bool)
    (g : AlignedSegment) :
  plain_match (keyword_match q cs g) = plain_match (keyword_match q' cs' g).
Proof. reflexivity. Qed.

Lemma plain_keyword_matches (q q' : string) (t : TranscriptRecord) :
  lower q = lower q' ->
  map plain_match (keyword_matches q false t)
  = map plain_match (keyword_matches q' false t).
Proof.
  intros E. rewrite !KeywordFacts.keyword_matches_spec.
  unfold hit, segment_hits, hit. rewrite E.
  destruct (contains (lower q') (lower (full_text t))); [|reflexivity].
  rewrite !map_map. apply map_ext. intros g.
  apply plain_keyword_match.
Qed.

(** X5.  A search that is not case sensitive depends on the query only
    through its lower-case form, the highlights apart: two queries with
    the same lower-case form give the same records in the same order,
    with the same matched segments (time stamp, speaker and text) and
    the same counts.  The highlighted texts are left out of the
    statement: they are built from the query as it was typed. *)
Theorem keyword_search_ignores_query_case (self : TranscriptSearchEngine)
    (q q' : string) :
  lower q = lower q' ->
  map plain_result (keyword_search self q false)
  = map plain_result (keyword_search self q' false).
Proof.
  intros E. rewrite !KeywordFacts.keyword_search_spec.
  induction (transcripts self) as [|t l IH]; [reflexivity|].
  cbn [flat_map]. rewrite !map_app, IH. f_equal.
  pose proof (plain_keyword_matches q q' t E) as P.
  destruct (keyword_matches q false t) as [|m ms];
    destruct (keyword_matches q' false t) as [|m' ms'];
    try reflexivity; try discriminate P.
  cbn [map]. unfold plain_result, keyword_result.
  cbn [res_file_name res_language res_matches res_match_count
       res_similarity_score res_llm_analysis].
  rewrite P. do 2 f_equal.
  apply (f_equal (@List.length Match)) in P.
  rewrite !length_map in P. now rewrite P.
Qed.

Lemma keyword_search_ignores_query_case_witness :
  let self :=
    mkEngine None
      [mkRecord "a_transcript.txt" "a" "en"
         [mkAligned "00:00:00" "00:00:01" "SPEAKER_00" "The Budget was cut"]
         "The Budget was cut" None] false in
  lower "BUDGET" = lower "budget"
  /\ map plain_result (keyword_search self "BUDGET" false)
     = map plain_result (keyword_search self "budget" false)
  /\ List.length (keyword_search self "budget" false) = 1.
Proof.
  intros self. split; [reflexivity|]. split.
  - exact (keyword_search_ignores_query_case self "BUDGET" "budget" eq_refl).
  - reflexivity.
Defined.

End KeywordCaseFacts.

(* ================================================================== *)
(** * More on semantic search *)
(* ================================================================== *)

Module LlmSearchFacts.
Import PyStr Aligner Search SearchSpec LLMInit.

Lemma requests_app (a b : list Event) :
  requests (a ++ b) = (requests a ++ requests b)%list.
Proof. unfold requests. apply flat_map_app. Qed.

(** One call of [process] on a known provider is one request. *)
Lemma process_one_request (env : Env) (llm : LLM.LLMProcessor)
    (transcript template language : string) (h : list Event) :
  known_provider (LLM.provider llm) = true ->
  exists response added,
    LLM.process env llm transcript template language h
    = (Returned response, (h ++ added)%list)
    /\ requests added
       = [(LLM.provider llm,
           LLM._build_prompt transcript template language)].
Proof.
  intros K. rewrite LLMFacts.process_run. cbv zeta.
  assert (N : (LLM.provider llm =? "none")%string = false).
  { unfold known_provider in K.
    destruct (LLM.provider llm =? "none")%string eqn:E; [|reflexivity].
    apply String.eqb_eq in E. rewrite E in K. discriminate. }
  unfold known_provider in K. rewrite N, K.
  destruct (env_generate _ _ _ _); eexists _, _; split; reflexivity.
Qed.

Lemma llm_search_loop_run (env : Env) (llm : LLM.LLMProcessor)
    (query : string) (ts : list TranscriptRecord)
    (results : list SearchResult) (h : list Event) :
  known_provider (LLM.provider llm) = true ->
  exists found added,
    llm_search_loop env llm query ts results h
    = (Returned (results ++ found)%list, (h ++ added)%list)
    /\ requests added
       = map (fun t => (LLM.provider llm,
                        LLM._build_prompt (llm_search_prompt query t)
                          "clean" (language t))) ts
    /\ Forall (fun r => exists t response,
                 In t ts
                 /\ r = llm_result t response
                 /\ contains "true" (lower response) = true) found.
Proof.
  intros K. revert results h.
  induction ts as [|t ts IH]; intros results h.
  - exists [], []. cbn. rewrite !app_nil_r. auto.
  - cbn [llm_search_loop]. unfold Eff.bind at 1. unfold Eff.try_except.
    unfold Eff.bind at 1.
    destruct (process_one_request env llm (llm_search_prompt query t)
                "clean" (language t) h K) as (response & added & E & R).
    rewrite E.
    set (step := match response with
                 | Some r =>
                     if negb (is_empty r) && contains "true" (lower r)
                     then [llm_result t r] else []
                 | None => []
                 end).
    assert (S : (match response with
                 | Some r =>
                     if negb (is_empty r) && contains "true" (lower r)
                     then Eff.ret (results ++ [llm_result t r])%list
                     else Eff.ret results
                 | None => Eff.ret results
                 end) (h ++ added)%list
                = (Returned (results ++ step)%list, (h ++ added)%list)).
    { unfold step. destruct response as [r|];
        [|cbn; now rewrite app_nil_r].
      destruct (negb (is_empty r) && contains "true" (lower r));
        [reflexivity | cbn; now rewrite app_nil_r]. }
    rewrite S.
    destruct (IH (results ++ step)%list (h ++ added)%list)
      as (found & added' & E' & R' & F').
    rewrite E'. exists (step ++ found)%list, (added ++ added')%list.
    split; [now rewrite !app_assoc|]. split.
    + rewrite requests_app, R, R'. reflexivity.
    + apply Forall_app. split.
      * unfold step. destruct response as [r|]; [|constructor].
        destruct (negb (is_empty r) && contains "true" (lower r)) eqn:C;
          [|constructor].
        constructor; [|constructor]. exists t, r.
        apply andb_true_iff in C. split; [now left|]. split; tauto.
      * revert F'. apply Forall_impl. intros r (t' & resp & I & P).
        exists t', resp. split; [now right | exact P].
Qed.

(** X7.  Without embeddings, the search through a known provider asks
    the provider exactly once per indexed record, in the order of the
    index, each time with the clean-up prompt around the relevance
    question for that record; it never raises, returns at most [top_k]
    results, and every result belongs to a record whose answer contained
    "true" in some casing. *)
Theorem llm_search_asks_once_per_record (env : Env)
    (self : TranscriptSearchEngine) (llm : LLM.LLMProcessor)
    (query : string) (top_k : nat) (h : list Event) :
  known_provider (LLM.provider llm) = true ->
  exists results added,
    _llm_search env self llm query top_k h
    = (Returned results, (h ++ added)%list)
    /\ requests added
       = map (fun t => (LLM.provider llm,
                        LLM._build_prompt (llm_search_prompt query t)
                          "clean" (language t))) (transcripts self)
    /\ List.length results <= top_k
    /\ Forall (fun r => exists t response,
                 In t (transcripts self)
                 /\ r = llm_result t response
                 /\ contains "true" (lower response) = true) results.
Proof.
  intros K. unfold _llm_search. unfold Eff.bind.
  destruct (llm_search_loop_run env llm query (transcripts self) [] h K)
    as (found & added & E & R & F).
  rewrite E. exists (firstn top_k found), added. cbn [app].
  split; [reflexivity|]. split; [exact R|].
  split; [apply firstn_le_length|].
  apply Forall_forall. intros r Hr. apply ListFacts.in_firstn in Hr.
  rewrite Forall_forall in F. now apply F.
Qed.

Lemma llm_search_asks_once_per_record_witness :
  let env := Samples.env_with (fun _ => true) (Returned (Some "True."))
               Samples.no_embedding in
  let t := mkRecord "a_transcript.txt" "a" "en"
             [mkAligned "00:00:00" "00:00:01" "SPEAKER_00" "hello"]
             "hello" None in
  let self := mkEngine (Some Samples.openai) [t; t] false in
  known_provider (LLM.provider Samples.openai) = true
  /\ exists results added,
       _llm_search env self Samples.openai "who?" 1 []
       = (Returned results, added)
       /\ List.length (requests added) = 2
       /\ List.length results <= 1.
Proof.
  intros env t self. split; [reflexivity|].
  destruct (llm_search_asks_once_per_record env self Samples.openai "who?" 1
              [] eq_refl) as (results & added & E & R & L & _).
  exists results, added. split; [exact E|]. split; [|exact L].
  rewrite R. reflexivity.
Defined.

End LlmSearchFacts.

(* ================================================================== *)
(** * More on the processing of one video *)
(* ================================================================== *)

Module VideoFacts.
Import PyStr Batch.

Ltac run_io :=
  unfold process_video, enhance, save_enhanced, convert_video_to_mp3,
    transcribe_audio_with_whisper, get_file_size, read_file, write_file,
    IO.print, IO.perform, IO.now, Eff.bind, Eff.try_except, Eff.ret.

(** X8.  A stage that raises ends the item there: when the conversion
    raises, the item is reported failed and nothing else is attempted,
    no transcription in particular; when the conversion succeeds and the
    transcription raises, the item is reported failed and neither a file
    size is asked nor a language model called. *)
Theorem failing_stage_ends_item (env : Env)
    (video_path output_folder : string) (index total : nat)
    (llm_processor : option LLM.LLMProcessor)
    (output_format mp3_bitrate : string) (h : list Event) :
  let h1 := (h ++ [Print (progress_line index total)])%list in
  let convert := Convert video_path output_folder mp3_bitrate in
  (forall e,
     env_convert env h1 video_path output_folder mp3_bitrate = Raised e ->
     process_video env video_path output_folder index total llm_processor
                   output_format mp3_bitrate h
     = (Returned false,
        (h ++ [Print (progress_line index total); convert;
               Print ("Error: " ++ e)])%list))
  /\ (forall mp3_path e,
        env_convert env h1 video_path output_folder mp3_bitrate
        = Returned mp3_path ->
        env_transcribe env (h1 ++ [convert])%list mp3_path output_folder
                       output_format = Raised e ->
        process_video env video_path output_folder index total llm_processor
                      output_format mp3_bitrate h
        = (Returned false,
           (h ++ [Print (progress_line index total); convert;
                  Transcribe mp3_path output_folder output_format;
                  Print ("Error: " ++ e)])%list)).
Proof.
  intros h1 convert. split.
  - intros e Hc. run_io. fold h1. rewrite Hc.
    unfold h1. now rewrite <- !app_assoc.
  - intros mp3 e Hc Ht. run_io. fold h1. rewrite Hc. fold convert.
    rewrite Ht. unfold h1. now rewrite <- !app_assoc.
Qed.

Lemma failing_stage_ends_item_witness :
  let env := mkEnv (fun _ _ => true)
               (fun _ _ _ _ => Raised "no audio track")
               (fun _ p _ _ => Returned (p, "preview", "en"))
               (fun _ _ => Returned "1.0 KB")
               (fun _ _ => Returned "text")
               (fun _ _ _ => Returned tt)
               (fun _ _ _ => Returned None)
               (fun _ => "now") Samples.no_embedding (fun _ _ => 0%Q) in
  env_convert env [Print (progress_line 1 1)] "a.mp4" "out" "128k"
  = Raised "no audio track"
  /\ process_video env "a.mp4" "out" 1 1 (Some Samples.openai) "txt" "128k" []
     = (Returned false,
        [Print (progress_line 1 1); Convert "a.mp4" "out" "128k";
         Print "Error: no audio track"]).
Proof.
  intros env. split; [reflexivity|].
  exact (proj1 (failing_stage_ends_item env "a.mp4" "out" 1 1
                  (Some Samples.openai) "txt" "128k" [])
           "no audio track" eq_refl).
Defined.

Lemma known_not_none (p : string) :
  SearchSpec.known_provider p = true -> (p =? "none")%string = false.
Proof.
  intros K. destruct (p =? "none")%string eqn:E; [|reflexivity].
  apply String.eqb_eq in E. subst p. discriminate.
Qed.

(** X9.  The enhancement is best effort.  When conversion, transcription,
    sizing and reading back succeed and the request to the language
    model raises, or answers nothing or the empty text, the item still
    succeeds; the provider was asked once and no file was written. *)
Theorem failed_enhancement_keeps_item (env : Env)
    (video_path output_folder : string) (index total : nat)
    (llm : LLM.LLMProcessor) (output_format mp3_bitrate : string)
    (h : list Event)
    (mp3_path transcript_path preview language size raw : string) :
  (forall h', env_convert env h' video_path output_folder mp3_bitrate
              = Returned mp3_path) ->
  (forall h', env_transcribe env h' mp3_path output_folder output_format
              = Returned (transcript_path, preview, language)) ->
  (forall h', env_file_size env h' transcript_path = Returned size) ->
  (forall h', env_read env h' transcript_path = Returned raw) ->
  SearchSpec.known_provider (LLM.provider llm) = true ->
  (forall h' text,
     env_generate env h' (LLM.provider llm)
       (LLM._build_prompt raw (LLM.template llm) language)
     = Returned (Some text) -> text = EmptyString) ->
  exists added,
    process_video env video_path output_folder index total (Some llm)
                  output_format mp3_bitrate h
    = (Returned true, (h ++ added)%list)
    /\ LLMInit.requests added
       = [(LLM.provider llm,
           LLM._build_prompt raw (LLM.template llm) language)]
    /\ Forall (fun ev => match ev with
                         | WriteFile _ _ => False
                         | _ => True
                         end) added.
Proof.
  intros Hc Ht Hs Hr K Hg. run_io.
  rewrite Hc, Ht, Hs, (known_not_none _ K). cbn [negb].
  rewrite Hr, LLMFacts.process_run. cbv zeta.
  rewrite (known_not_none _ K).
  unfold SearchSpec.known_provider in K. rewrite K.
  match goal with
  | |- context [env_generate env ?hh ?p ?q] =>
      specialize (Hg hh); destruct (env_generate env hh p q) as [[text|]|e]
  end.
  - rewrite (Hg text eq_refl). cbn [is_empty].
    eexists. rewrite <- !app_assoc. cbn [app].
    split; [reflexivity|]. split; [reflexivity|].
    repeat constructor.
  - eexists. rewrite <- !app_assoc. cbn [app].
    split; [reflexivity|]. split; [reflexivity|].
    repeat constructor.
  - eexists. rewrite <- !app_assoc. cbn [app].
    split; [reflexivity|]. split; [reflexivity|].
    repeat constructor.
Qed.

Lemma failed_enhancement_keeps_item_witness :
  let env := Samples.env_with (fun _ => true) (Raised "timeout")
               Samples.no_embedding in
  SearchSpec.known_provider (LLM.provider Samples.openai) = true
  /\ fst (process_video env "a.mp4" "out" 1 1 (Some Samples.openai) "txt"
             "128k" []) = Returned true.
Proof.
  intros env. split; [reflexivity|].
  destruct (failed_enhancement_keeps_item env "a.mp4" "out" 1 1
              Samples.openai "txt" "128k" [] "a.mp4.mp3"
              "a.mp4.mp3_transcript.txt" "preview" "en" "1.0 KB"
              "text of the transcript"
              (fun _ => eq_refl) (fun _ => eq_refl) (fun _ => eq_refl)
              (fun _ => eq_refl) eq_refl)
    as (added & E & _).
  - intros h' text H. discriminate H.
  - now rewrite E.
Defined.

(** X10.  Without a processor, or with one whose provider is "none", a
    video is only converted, transcribed and sized: the transcript is
    not read back and no language model is asked. *)
Theorem no_processor_no_enhancement (env : Env)
    (video_path output_folder : string) (index total : nat)
    (llm_processor : option LLM.LLMProcessor)
    (output_format mp3_bitrate : string) (h : list Event)
    (mp3_path transcript_path preview language size : string) :
  LLM.active llm_processor = false ->
  (forall h', env_convert env h' video_path output_folder mp3_bitrate
              = Returned mp3_path) ->
  (forall h', env_transcribe env h' mp3_path output_folder output_format
              = Returned (transcript_path, preview, language)) ->
  (forall h', env_file_size env h' transcript_path = Returned size) ->
  process_video env video_path output_folder index total llm_processor
                output_format mp3_bitrate h
  = (Returned true,
     (h ++ [Print (progress_line index total);
            Convert video_path output_folder mp3_bitrate;
            Transcribe mp3_path output_folder output_format;
            FileSize transcript_path])%list).
Proof.
  intros A Hc Ht Hs. run_io. rewrite Hc, Ht, Hs.
  unfold LLM.active in A.
  destruct llm_processor as [llm|]; [rewrite A|];
    now rewrite <- !app_assoc.
Qed.

Lemma no_processor_no_enhancement_witness :
  let env := Samples.env_with (fun _ => true) (Returned (Some "text"))
               Samples.no_embedding in
  LLM.active (Some Samples.inert) = false
  /\ process_video env "a.mp4" "out" 1 1 (Some Samples.inert) "txt" "128k" []
     = (Returned true,
        [Print (progress_line 1 1); Convert "a.mp4" "out" "128k";
         Transcribe "a.mp4.mp3" "out" "txt";
         FileSize "a.mp4.mp3_transcript.txt"]).
Proof.
  intros env. split; [reflexivity|].
  exact (no_processor_no_enhancement env "a.mp4" "out" 1 1
           (Some Samples.inert) "txt" "128k" [] "a.mp4.mp3"
           "a.mp4.mp3_transcript.txt" "preview" "en" "1.0 KB" eq_refl
           (fun _ => eq_refl) (fun _ => eq_refl) (fun _ => eq_refl)).
Defined.

(** X11.  Saving is not best effort: when everything up to the answer of
    the language model succeeds, the answer is a text that is not empty
    and the format asks for a text file, a failure to write the enhanced
    file makes the whole item fail, although its transcript is
    written. *)
Theorem failed_save_fails_item (env : Env)
    (video_path output_folder : string) (index total : nat)
    (llm : LLM.LLMProcessor) (output_format mp3_bitrate : string)
    (h : list Event)
    (mp3_path transcript_path preview language size raw enhanced e : string) :
  (forall h', env_convert env h' video_path output_folder mp3_bitrate
              = Returned mp3_path) ->
  (forall h', env_transcribe env h' mp3_path output_folder output_format
              = Returned (transcript_path, preview, language)) ->
  (forall h', env_file_size env h' transcript_path = Returned size) ->
  (forall h', env_read env h' transcript_path = Returned raw) ->
  SearchSpec.known_provider (LLM.provider llm) = true ->
  (forall h', env_generate env h' (LLM.provider llm)
                (LLM._build_prompt raw (LLM.template llm) language)
              = Returned (Some enhanced)) ->
  enhanced <> EmptyString ->
  one_of output_format ["txt"; "both"] = true ->
  (forall h' path content, env_write env h' path content = Raised e) ->
  fst (process_video env video_path output_folder index total (Some llm)
                     output_format mp3_bitrate h) = Returned false.
Proof.
  intros Hc Ht Hs Hr K Hg Ne Ho Hw. run_io.
  rewrite Hc, Ht, Hs, (known_not_none _ K). cbn [negb].
  rewrite Hr, LLMFacts.process_run. cbv zeta.
  rewrite (known_not_none _ K).
  unfold SearchSpec.known_provider in K. rewrite K, Hg.
  apply StrFacts.is_empty_false in Ne. rewrite Ne, Ho, Hw.
  reflexivity.
Qed.

Lemma failed_save_fails_item_witness :
  let env := mkEnv (fun _ _ => true)
               (fun _ p _ _ => Returned (p ++ ".mp3"))
               (fun _ p _ _ => Returned (p ++ "_transcript.txt", "preview", "en"))
               (fun _ _ => Returned "1.0 KB")
               (fun _ _ => Returned "text")
               (fun _ _ _ => Raised "disk full")
               (fun _ _ _ => Returned (Some "better text"))
               (fun _ => "now") Samples.no_embedding (fun _ _ => 0%Q) in
  ("better text" <> EmptyString /\ one_of "txt" ["txt"; "both"] = true)
  /\ fst (process_video env "a.mp4" "out" 1 1 (Some Samples.openai) "txt"
             "128k" []) = Returned false.
Proof.
  intros env.
  assert (N : "better text" <> EmptyString) by discriminate.
  split; [split; [exact N | reflexivity]|].
  exact (failed_save_fails_item env "a.mp4" "out" 1 1 Samples.openai "txt"
           "128k" [] "a.mp4.mp3" "a.mp4.mp3_transcript.txt" "preview" "en"
           "1.0 KB" "text" "better text" "disk full"
           (fun _ => eq_refl) (fun _ => eq_refl) (fun _ => eq_refl)
           (fun _ => eq_refl) eq_refl (fun _ => eq_refl) N eq_refl
           (fun _ _ _ => eq_refl)).
Defined.

End VideoFacts.

(* ================================================================== *)
(** * More on alignment and on reading transcripts back *)
(* ================================================================== *)

Module PipelineFacts.
Import PyStr Aligner Search TranscriptFormatter.

Lemma all_chars_join (p : ascii -> bool) (sep : string) (l : list string) :
  all_chars p sep = true -> Forall (fun s => all_chars p s = true) l ->
  all_chars p (join sep l) = true.
Proof.
  intros Hs. unfold join. induction 1 as [|x l Hx _ IH]; [reflexivity|].
  cbn [String.concat]. destruct l as [|y r]; [exact Hx|].
  rewrite !StrFacts.all_chars_append, Hx, Hs. exact IH.
Qed.

Lemma turn_segment_wf (raws : list RawSegment) (t : DiarizationTurn) :
  Forall (fun w => one_line (raw_text w)) raws ->
  (0 <= turn_start t)%Q -> (0 <= turn_end t)%Q ->
  wf_speaker (turn_speaker t) ->
  Forall wf_segment (turn_segment raws t).
Proof.
  intros Hr Hs He Hp. unfold turn_segment.
  destruct (is_empty _) eqn:E; constructor; [|constructor].
  unfold wf_segment. cbn [start end_ speaker text].
  split; [now apply TimestampFacts.format_timestamp_stamp|].
  split; [now apply TimestampFacts.format_timestamp_stamp|].
  split; [exact Hp|].
  split; [now apply StrFacts.is_empty_false|]. split.
  - apply StrFacts.all_chars_strip. unfold space_joined.
    apply all_chars_join; [reflexivity|].
    apply Forall_forall. intros s Hin. apply in_map_iff in Hin.
    destruct Hin as (w & <- & Hw). unfold contained in Hw.
    apply filter_In in Hw. rewrite Forall_forall in Hr. apply Hr, Hw.
  - apply StrFacts.strip_strip.
Qed.

(** X12.  What the pipeline writes in the full-detail format is read back
    by the indexer segment for segment, provided the language is on one
    line, no time is negative, the raw texts and the speaker labels are
    on one line, the labels are not empty and hold no colon, and no line
    of the full text has the segment shape.  With diarization nothing
    more is needed, since blank turns are not written; without it (no
    pipeline, or a pipeline that raises) the raw texts must not be
    blank. *)
Theorem written_transcript_read_back (video_filename language : string)
    (raws : list RawSegment)
    (pipeline : option (outcome (list DiarizationTurn)))
    (duration : Q) (full_text file_path : string) :
  one_line language -> (0 <= duration)%Q ->
  Forall (fun w => (0 <= raw_start w)%Q /\ (0 <= raw_end w)%Q
                   /\ one_line (raw_text w)) raws ->
  (forall turns, pipeline = Some (Returned turns) ->
     Forall (fun t => (0 <= turn_start t)%Q /\ (0 <= turn_end t)%Q
                      /\ wf_speaker (turn_speaker t)) turns) ->
  (pipeline = None \/ (exists e, pipeline = Some (Raised e)) ->
   Forall (fun w => strip (raw_text w) <> EmptyString) raws) ->
  no_segment_line full_text ->
  segments (_parse_transcript
              (format_txt video_filename language (format_timestamp duration)
                 (snd (segments_with_speakers raws pipeline)) full_text)
              file_path)
  = snd (segments_with_speakers raws pipeline).
Proof.
  intros Hl Hd Hr Ht Hb Hf.
  apply ParserFacts.parse_format_txt_segments; [| | |exact Hf].
  - apply ParserFacts.header_line_clean; [reflexivity|].
    unfold one_line. rewrite StrFacts.all_chars_append. exact Hl.
  - apply ParserFacts.header_line_clean; [reflexivity|].
    unfold one_line. rewrite StrFacts.all_chars_append. cbn [andb all_chars].
    destruct (TimestampFacts.format_timestamp_stamp duration Hd) as [_ D].
    exact (StrFacts.all_chars_impl _ _ _ ParserFacts.stamp_char_one_line D).
  - assert (Fb : Forall (fun w => strip (raw_text w) <> EmptyString) raws ->
                 Forall wf_segment (map fallback_segment raws)).
    { intros B. apply Forall_forall. intros g Hg. apply in_map_iff in Hg.
      destruct Hg as (w & <- & Hw). rewrite Forall_forall in Hr, B.
      destruct (Hr w Hw) as (A1 & A2 & A3).
      apply ParserFacts.fallback_segment_wf; auto. }
    unfold segments_with_speakers, align.
    destruct pipeline as [[turns|e]|].
    + unfold Eff.try_except, Eff.bind, Eff.lift.
      rewrite AlignerFacts.diarized_loop_spec. cbn [snd app].
      specialize (Ht turns eq_refl). clear Hb Fb.
      induction Ht as [|t turns (A1 & A2 & A3) _ IH]; [constructor|].
      cbn [flat_map]. apply Forall_app. split; [|exact IH].
      apply turn_segment_wf; auto.
      revert Hr. apply Forall_impl. tauto.
    + unfold Eff.try_except, Eff.bind, Eff.lift.
      rewrite AlignerFacts.fallback_loop_spec. cbn [snd app].
      apply Fb, Hb. right. now exists e.
    + rewrite AlignerFacts.fallback_loop_spec. cbn [snd app].
      apply Fb, Hb. now left.
Qed.

Lemma written_transcript_read_back_witness :
  let raws := [mkRaw 0 1 " hello"; mkRaw 1 2 " "; mkRaw 2 3 " bye"] in
  let pipeline := Some (Returned [mkTurn 0 (15 # 10) "SPEAKER_01";
                                  mkTurn (15 # 10) 3 "SPEAKER_00"]) in
  segments (_parse_transcript
              (format_txt "talk.mp4" "en" (format_timestamp 3)
                 (snd (segments_with_speakers raws pipeline)) " hello   bye")
              "out/talk_transcript.txt")
  = snd (segments_with_speakers raws pipeline)
  /\ List.length (snd (segments_with_speakers raws pipeline)) = 2.
Proof.
  intros raws pipeline. split; [|reflexivity].
  apply written_transcript_read_back.
  - reflexivity.
  - discriminate.
  - repeat constructor; try discriminate; reflexivity.
  - intros turns E. injection E as <-.
    repeat constructor; try discriminate; reflexivity.
  - intros [E|[e E]]; discriminate E.
  - repeat constructor.
Defined.

(** ** A text that is not blank survives the stripping around it *)

Lemma lstrip_keeps (c : string) (p : string) :
  lstrip c = c -> exists p', lstrip (p ++ c) = p' ++ c.
Proof.
  intros H. induction p as [|a p IH]; cbn [append lstrip].
  - exists EmptyString. exact H.
  - destruct (is_space a); [exact IH|]. now exists (String a p).
Qed.

Lemma rstrip_keeps (c : string) (q : string) :
  rstrip c = c -> c <> EmptyString -> exists q', rstrip (c ++ q) = c ++ q'.
Proof.
  induction c as [|a c IH]; [congruence|]. intros H _.
  destruct c as [|b c].
  - cbn [rstrip append] in *. destruct (is_space a) eqn:Sa; [discriminate|].
    destruct (rstrip q) as [|d r].
    + now exists EmptyString.
    + now exists (String d r).
  - assert (Hc : rstrip (String b c) = String b c).
    { change (rstrip (String a (String b c)))
        with (match rstrip (String b c) with
              | EmptyString => if is_space a then EmptyString
                               else String a EmptyString
              | r => String a r
              end) in H.
      destruct (rstrip (String b c)) as [|d r].
      - destruct (is_space a); discriminate H.
      - injection H as E1 E2. now rewrite E1, E2. }
    destruct (IH Hc ltac:(discriminate)) as [q' Eq].
    change (rstrip (String a (String b c) ++ q))
      with (match rstrip (String b c ++ q) with
            | EmptyString => if is_space a then EmptyString
                             else String a EmptyString
            | r => String a r
            end).
    rewrite Eq. cbn [append]. now exists q'.
Qed.

Lemma rstrip_after (u s : string) :
  rstrip s <> EmptyString -> rstrip (u ++ s) = u ++ rstrip s.
Proof.
  intros N. induction u as [|a u IH]; [reflexivity|].
  cbn [append rstrip]. rewrite IH.
  destruct (u ++ rstrip s) eqn:E; [|reflexivity].
  apply StrFacts.append_eq_nil in E. tauto.
Qed.

Lemma strip_shape (x : string) :
  exists a b, x = a ++ strip x ++ b.
Proof.
  assert (R : forall y, exists b, y = rstrip y ++ b).
  { induction y as [|c y [b Hb]]; [now exists EmptyString|].
    cbn [rstrip]. destruct (rstrip y) as [|d r].
    - destruct (is_space c).
      + exists (String c y). reflexivity.
      + exists b. cbn [append] in *. now rewrite <- Hb.
    - exists b. cbn [append] in *. now rewrite <- Hb. }
  assert (L : forall y, exists a, y = a ++ lstrip y).
  { induction y as [|c y [a Ha]]; [now exists EmptyString|].
    cbn [lstrip]. destruct (is_space c).
    - exists (String c a). cbn [append]. now rewrite <- Ha.
    - now exists EmptyString. }
  destruct (R x) as [b Hb]. destruct (L (rstrip x)) as [a Ha].
  exists a, b. unfold strip. rewrite <- StrFacts.append_assoc, <- Ha.
  exact Hb.
Qed.

Lemma strip_stable_parts (x : string) :
  lstrip (strip x) = strip x /\ rstrip (strip x) = strip x.
Proof.
  unfold strip. split; [apply StrFacts.lstrip_lstrip|].
  apply StrFacts.rstrip_lstrip, StrFacts.rstrip_rstrip.
Qed.

(** The stripped form of a part is found in the stripped whole. *)
Lemma strip_contains_part (u x v : string) :
  contains (strip x) (strip (u ++ x ++ v)) = true.
Proof.
  destruct (strip x) as [|c0 c] eqn:E.
  { destruct (strip (u ++ x ++ v)); reflexivity. }
  destruct (strip_shape x) as (a & b & Hx).
  destruct (strip_stable_parts x) as [Sl Sr]. rewrite E in *.
  set (core := String c0 c) in *.
  assert (Hw : u ++ x ++ v = (u ++ a) ++ core ++ (b ++ v)).
  { rewrite Hx at 1. now rewrite !StrFacts.append_assoc. }
  rewrite Hw. unfold strip.
  destruct (rstrip_keeps core (b ++ v) Sr ltac:(discriminate)) as [q' Eq].
  rewrite rstrip_after by (rewrite Eq; discriminate).
  rewrite Eq.
  assert (Sl' : lstrip (core ++ q') = core ++ q').
  { unfold core in *. cbn [append lstrip] in *.
    destruct (is_space c0); [|reflexivity].
    exfalso. clear -Sl.
    assert (Len : forall y, String.length (lstrip y) <= String.length y).
    { induction y as [|d y IH]; cbn; [lia|].
      destruct (is_space d); cbn; lia. }
    specialize (Len c). rewrite Sl in Len. cbn in Len. lia. }
  destruct (lstrip_keeps (core ++ q') (u ++ a) Sl') as [p' Ep].
  rewrite Ep. apply StrFacts.contains_middle.
Qed.

Lemma join_split (sep x : string) (l : list string) :
  In x l -> exists u v, join sep l = u ++ x ++ v.
Proof.
  intros H. apply StrFacts.contains_spec.
  now apply LLMInitFacts.join_contains.
Qed.

(** X13.  With diarization, a raw segment whose text is not blank shows
    under every turn that fully contains it: for each such turn the
    output has a segment with the bounds and the speaker of the turn
    whose text contains the stripped text of the raw segment.  A raw
    segment inside two overlapping turns is thus written twice. *)
Theorem contained_text_is_kept (raws : list RawSegment)
    (turns : list DiarizationTurn) (t : DiarizationTurn) (w : RawSegment) :
  In t turns -> In w raws ->
  (turn_start t <= raw_start w)%Q -> (raw_end w <= turn_end t)%Q ->
  strip (raw_text w) <> EmptyString ->
  exists a,
    In a (snd (segments_with_speakers raws (Some (Returned turns))))
    /\ start a = format_timestamp (turn_start t)
    /\ end_ a = format_timestamp (turn_end t)
    /\ speaker a = turn_speaker t
    /\ contains (strip (raw_text w)) (text a) = true.
Proof.
  intros Ht Hw Hs He Hn.
  assert (C : In (raw_text w)
                 (map raw_text (contained raws (turn_start t) (turn_end t)))).
  { apply in_map. unfold contained. apply filter_In. split; [exact Hw|].
    apply andb_true_iff. split; now apply Qle_bool_iff. }
  destruct (join_split " " _ _ C) as (u & v & J).
  pose proof (strip_contains_part u (raw_text w) v) as K.
  rewrite <- J in K. fold (space_joined raws (turn_start t) (turn_end t)) in K.
  assert (N : strip (space_joined raws (turn_start t) (turn_end t))
              <> EmptyString).
  { intros E. rewrite E in K. destruct (strip (raw_text w)); [congruence|].
    discriminate K. }
  exists (mkAligned (format_timestamp (turn_start t))
                    (format_timestamp (turn_end t)) (turn_speaker t)
                    (strip (space_joined raws (turn_start t) (turn_end t)))).
  split; [|cbn; auto].
  unfold segments_with_speakers, align, Eff.try_except, Eff.bind, Eff.lift.
  rewrite AlignerFacts.diarized_loop_spec. cbn [snd app].
  apply in_flat_map. exists t. split; [exact Ht|].
  unfold turn_segment. apply StrFacts.is_empty_false in N. rewrite N.
  now left.
Qed.

Lemma contained_text_is_kept_witness :
  let raws := [mkRaw 1 2 " hello"] in
  let t1 := mkTurn 0 3 "SPEAKER_00" in
  let t2 := mkTurn 1 2 "SPEAKER_01" in
  map speaker (snd (segments_with_speakers raws (Some (Returned [t1; t2]))))
  = ["SPEAKER_00"; "SPEAKER_01"]
  /\ exists a,
       In a (snd (segments_with_speakers raws (Some (Returned [t1; t2]))))
       /\ speaker a = "SPEAKER_01"
       /\ contains "hello" (text a) = true.
Proof.
  intros raws t1 t2. split; [reflexivity|].
  destruct (contained_text_is_kept raws [t1; t2] t2 (mkRaw 1 2 " hello"))
    as (a & I & _ & _ & S & C).
  - right. now left.
  - now left.
  - cbn. unfold Qle. cbn. lia.
  - cbn. unfold Qle. cbn. lia.
  - discriminate.
  - exists a. auto.
Defined.

End PipelineFacts.

(* ================================================================== *)
(** * What else a written transcript is read back with *)

Module ReadBackFacts.
Import PyStr Aligner Search TranscriptFormatter.

Lemma lstrip_first (a : ascii) (t : string) :
  lstrip (String a t) = String a t -> is_space a = false.
Proof.
  cbn [lstrip]. destruct (is_space a); [|reflexivity]. intros H. exfalso.
  assert (Len : forall y, String.length (lstrip y) <= String.length y).
  { induction y as [|d y IH]; cbn; [lia|]. destruct (is_space d); cbn; lia. }
  specialize (Len t). rewrite H in Len. cbn in Len. lia.
Qed.

Lemma lstrip_app_stable (t y : string) :
  t <> EmptyString -> lstrip t = t -> lstrip (t ++ y) = t ++ y.
Proof.
  destruct t as [|a t]; [congruence|]. intros _ H.
  apply lstrip_first in H. cbn [append lstrip]. now rewrite H.
Qed.

Lemma wf_text_parts (t : string) :
  wf_text t -> t <> EmptyString /\ lstrip t = t /\ rstrip t = t.
Proof.
  intros (N & _ & S). split; [exact N|].
  destruct (PipelineFacts.strip_stable_parts t) as [A B].
  now rewrite S in A, B.
Qed.

Lemma join_head (sep t : string) (l : list string) :
  exists y, join sep (t :: l) = t ++ y.
Proof.
  unfold join. destruct l as [|u l]; cbn [String.concat].
  - exists EmptyString. now rewrite StrFacts.append_nil_r.
  - now exists (sep ++ String.concat sep (u :: l)).
Qed.

Lemma join_not_nil (sep t : string) (l : list string) :
  t <> EmptyString -> join sep (t :: l) <> EmptyString.
Proof.
  intros N E. destruct (join_head sep t l) as [y J]. rewrite J in E.
  apply StrFacts.append_eq_nil in E. tauto.
Qed.

Lemma rstrip_join (l : list string) :
  Forall wf_text l -> rstrip (join " " l) = join " " l.
Proof.
  induction 1 as [|t l W Hl IH]; [reflexivity|].
  destruct (wf_text_parts t W) as (N & _ & R).
  destruct l as [|u l]; [exact R|].
  rewrite ParserFacts.join_cons by discriminate.
  rewrite <- StrFacts.append_assoc.
  assert (Nu : join " " (u :: l) <> EmptyString).
  { apply join_not_nil. inversion Hl as [|? ? Wu _]; subst.
    now destruct (wf_text_parts u Wu). }
  rewrite PipelineFacts.rstrip_after; rewrite IH; [reflexivity | exact Nu].
Qed.

Lemma strip_join (l : list string) :
  Forall wf_text l -> strip (join " " l) = join " " l.
Proof.
  intros H. unfold strip. rewrite (rstrip_join l H).
  destruct H as [|t l W _]; [reflexivity|].
  destruct (wf_text_parts t W) as (N & L & _).
  destruct (join_head " " t l) as [y J]. rewrite J.
  now apply lstrip_app_stable.
Qed.

Lemma spaced_join (l : list string) :
  l <> [] -> spaced l = join " " l ++ " ".
Proof.
  induction l as [|t l IH]; [congruence|]. intros _.
  change (t :: l) with ([t] ++ l)%list at 1. rewrite ParserFacts.spaced_app.
  destruct l as [|u l].
  - cbn. now rewrite StrFacts.append_nil_r.
  - rewrite IH by discriminate.
    rewrite (ParserFacts.join_cons " " t (u :: l)) by discriminate.
    unfold spaced. cbn [map String.concat].
    now rewrite !StrFacts.append_assoc.
Qed.

Lemma written_lines_segments (video_filename lang duration : string)
    (segs : list AlignedSegment) (body : string) :
  one_line lang -> no_segment_line ("Total Duration: " ++ duration) ->
  Forall wf_segment segs -> no_segment_line body ->
  flat_map line_segment
    (split nl (format_txt video_filename lang duration segs body)) = segs.
Proof.
  intros Hl Hd Hs Hb.
  rewrite <- (ParserFacts.parse_segments_spec _ EmptyString).
  apply ParserFacts.parse_format_txt_segments; auto.
  apply ParserFacts.header_line_clean; [reflexivity|].
  unfold one_line. rewrite StrFacts.all_chars_append. exact Hl.
Qed.

Lemma written_language (video_filename lang duration : string)
    (segs : list AlignedSegment) (body file_path : string) :
  one_line lang -> Forall wf_segment segs ->
  language (_parse_transcript
              (format_txt video_filename lang duration segs body) file_path)
  = strip lang.
Proof.
  intros Hl Hs. unfold _parse_transcript. cbn [language].
  rewrite (ParserFacts.format_txt_lines _ _ _ _ _ Hs).
  rewrite (ParserFacts.split_one_line ("Detected Language: " ++ lang)).
  - cbn [app]. apply ParserFacts.parse_language_header.
  - unfold one_line. rewrite StrFacts.all_chars_append. exact Hl.
Qed.

(** X14.  A full-detail file written with at least one segment is read
    back with the language it was written with, stripped, and with a
    full text that is the texts of its segments joined by single spaces:
    the full text that was written after the last rule is not read. *)
Theorem read_back_text_is_segment_texts
    (video_filename lang duration : string)
    (segs : list AlignedSegment) (body file_path : string) :
  one_line lang -> no_segment_line ("Total Duration: " ++ duration) ->
  Forall wf_segment segs -> segs <> [] -> no_segment_line body ->
  let r := _parse_transcript
             (format_txt video_filename lang duration segs body) file_path in
  language r = strip lang
  /\ full_text r = join " " (map text segs).
Proof.
  intros Hl Hd Hs Hn Hb r. split; [now apply written_language|].
  unfold r, _parse_transcript. cbn [full_text].
  rewrite ParserFacts.parse_fold_spec by reflexivity.
  cbn [st_segments st_full_text parse_init app append].
  rewrite (written_lines_segments _ _ _ _ _ Hl Hd Hs Hb).
  destruct segs as [|g segs]; [congruence|]. cbn [andb].
  rewrite spaced_join by discriminate.
  rewrite StrFacts.strip_snoc_space by reflexivity.
  assert (W : Forall wf_text (map text (g :: segs))).
  { apply Forall_forall. intros t Ht. apply in_map_iff in Ht.
    destruct Ht as (x & <- & Hx). rewrite Forall_forall in Hs.
    now destruct (Hs x Hx) as (_ & _ & _ & T). }
  now rewrite (strip_join _ W).
Qed.

Lemma read_back_text_is_segment_texts_witness :
  full_text (_parse_transcript
               (format_txt "a.mp4" "en" "00:00:09"
                  [mkAligned "00:00:00" "00:00:04" "SPEAKER_00" "good day";
                   mkAligned "00:00:04" "00:00:09" "SPEAKER_01" "to you"]
                  "something else")
               "out/a_transcript.txt")
  = "good day to you".
Proof.
  refine (proj2 (read_back_text_is_segment_texts "a.mp4" "en" "00:00:09"
            [mkAligned "00:00:00" "00:00:04" "SPEAKER_00" "good day";
             mkAligned "00:00:04" "00:00:09" "SPEAKER_01" "to you"]
            "something else" "out/a_transcript.txt" _ _ _ _ _)).
  - reflexivity.
  - repeat constructor.
  - repeat constructor; try discriminate; reflexivity.
  - discriminate.
  - repeat constructor.
Defined.

(** ** The text after the last marker *)

Lemma after_last_none (m v : string) :
  contains m v = false -> after_last m v = None.
Proof.
  induction v as [|a v IH]; [reflexivity|].
  cbn [contains after_last]. intros H. apply orb_false_iff in H.
  destruct H as [P C]. now rewrite (IH C), P.
Qed.

Lemma after_last_skip (m u w r : string) :
  after_last m w = Some r -> after_last m (u ++ w) = Some r.
Proof.
  intros H. induction u as [|a u IH]; [exact H|].
  cbn [append after_last]. now rewrite IH.
Qed.

Lemma after_last_other (c : ascii) (s : string) :
  c <> "F"%char -> after_last "FULL TRANSCRIPT:" s = None ->
  after_last "FULL TRANSCRIPT:" (String c s) = None.
Proof.
  intros N H. cbn [after_last]. rewrite H. cbn [String.prefix].
  destruct (ascii_dec "F" c); [congruence | reflexivity].
Qed.

Lemma after_last_marker (u v : string) :
  contains "FULL TRANSCRIPT:" v = false ->
  after_last "FULL TRANSCRIPT:" (u ++ "FULL TRANSCRIPT:" ++ v) = Some v.
Proof.
  intros H. apply after_last_skip.
  assert (T : after_last "FULL TRANSCRIPT:" ("ULL TRANSCRIPT:" ++ v) = None).
  { cbn [append].
    repeat (apply after_last_other; [discriminate|]).
    now apply after_last_none. }
  change ("FULL TRANSCRIPT:" ++ v) with (String "F" ("ULL TRANSCRIPT:" ++ v)).
  cbn [after_last]. rewrite T.
  change (String "F" ("ULL TRANSCRIPT:" ++ v)) with ("FULL TRANSCRIPT:" ++ v).
  rewrite StrFacts.prefix_append. reflexivity.
Qed.

Lemma contains_append_false (m a b : string) :
  contains m (a ++ b) = false -> contains m b = false.
Proof.
  intros H. destruct (contains m b) eqn:E; [|reflexivity].
  now rewrite (StrFacts.contains_skip m a b E) in H.
Qed.

(** The text of a file written without segments, cut at the marker *)
Lemma format_txt_empty_cut (video_filename lang duration body : string) :
  exists u,
    format_txt video_filename lang duration [] body
    = u ++ "FULL TRANSCRIPT:"
        ++ (newline ++ rule ++ newline ++ newline ++ body).
Proof.
  exists (("Detected Language: " ++ lang) ++ newline
          ++ ("Total Duration: " ++ duration) ++ newline
          ++ newline ++ "TRANSCRIPT WITH SPEAKERS:" ++ newline
          ++ rule ++ newline ++ newline ++ newline ++ rule ++ newline).
  unfold format_txt, header, footer, join. cbn [map app String.concat].
  rewrite !StrFacts.append_assoc. reflexivity.
Qed.

(** X15.  A full-detail file written without any segment is read back
    without segments, and its full text is then everything that follows
    the marker line: the rule of eighty equals signs under the marker
    comes first, before the text that was written. *)
Theorem read_back_without_segments (video_filename lang duration : string)
    (body file_path : string) :
  one_line lang -> no_segment_line ("Total Duration: " ++ duration) ->
  no_segment_line body -> contains "FULL TRANSCRIPT:" body = false ->
  let r := _parse_transcript
             (format_txt video_filename lang duration [] body) file_path in
  segments r = []
  /\ full_text r = strip (rule ++ newline ++ newline ++ body)
  /\ String.prefix rule (full_text r) = true.
Proof.
  intros Hl Hd Hb Hc r.
  pose proof (written_lines_segments video_filename _ _ [] _ Hl Hd
                (Forall_nil _) Hb) as L.
  destruct (format_txt_empty_cut video_filename lang duration body)
    as [u Cut].
  assert (A : after_last "FULL TRANSCRIPT:"
                (format_txt video_filename lang duration [] body)
              = Some (newline ++ rule ++ newline ++ newline ++ body)).
  { rewrite Cut. apply after_last_marker.
    assert (R : forall n, contains "FULL TRANSCRIPT:"
                            (repeat_char "=" n ++ newline ++ newline ++ body)
                          = false).
    { induction n as [|n IH]; [exact Hc|].
      cbn [repeat_char append contains]. cbn [append] in IH. rewrite IH.
      reflexivity. }
    cbn [newline append contains]. cbn [newline append] in R.
    unfold rule. now rewrite R. }
  assert (C : contains "FULL TRANSCRIPT:"
                (format_txt video_filename lang duration [] body) = true).
  { rewrite Cut. apply StrFacts.contains_middle. }
  destruct (ParserFacts.parse_without_segment_lines _ file_path L C)
    as (S0 & tail & At & Ft).
  assert (Et : tail = newline ++ rule ++ newline ++ newline ++ body)
    by congruence.
  rewrite Et in Ft. clear At Et tail.
  fold r in S0, Ft.
  assert (K : exists q, rstrip (rule ++ newline ++ newline ++ body)
                        = rule ++ q).
  { apply PipelineFacts.rstrip_keeps; [reflexivity | discriminate]. }
  destruct K as [q K].
  assert (F : full_text r = strip (rule ++ newline ++ newline ++ body)).
  { rewrite Ft, StrFacts.strip_strip. unfold strip.
    rewrite (PipelineFacts.rstrip_after newline
               (rule ++ newline ++ newline ++ body))
      by (rewrite K; discriminate).
    reflexivity. }
  split; [exact S0|]. split; [exact F|].
  rewrite F. unfold strip. rewrite K.
  rewrite lstrip_app_stable by (try discriminate; reflexivity).
  apply StrFacts.prefix_append.
Qed.

Lemma read_back_without_segments_witness :
  String.prefix rule
    (full_text (_parse_transcript
                  (format_txt "a.mp4" "en" "00:00:09" [] "good day")
                  "out/a_transcript.txt")) = true.
Proof.
  refine (proj2 (proj2 (read_back_without_segments "a.mp4" "en" "00:00:09"
            "good day" "out/a_transcript.txt" _ _ _ _))).
  - reflexivity.
  - repeat constructor.
  - repeat constructor.
  - reflexivity.
Defined.

End ReadBackFacts.

(* ================================================================== *)
(** * Sizes for the reader *)

Module SizesFacts.
Import PyStr Sizes.

Lemma round_half_even_comp (p q : Q) :
  (p == q)%Q -> round_half_even p = round_half_even q.
Proof.
  intros E. unfold round_half_even.
  rewrite (Qfloor_comp _ _ E).
  assert (C : ((p - inject_Z (Qfloor q) ?= 1 # 2)
               = (q - inject_Z (Qfloor q) ?= 1 # 2))%Q).
  { apply Qcompare_comp; [|reflexivity]. now rewrite E. }
  now rewrite C.
Qed.

Lemma format_1f_comp (p q : Q) : (p == q)%Q -> format_1f p = format_1f q.
Proof.
  intros E. unfold format_1f.
  assert (R : round_half_even (p * 10) = round_half_even (q * 10)).
  { apply round_half_even_comp. now rewrite E. }
  now rewrite R.
Qed.

Lemma size_loop_unit (k : nat) :
  forall (us : list string) (unit : string) (q : Q),
    nth_error us k = Some unit ->
    (inject_Z (1024 ^ Z.of_nat k) <= q)%Q ->
    (q < inject_Z (1024 ^ Z.of_nat (S k)))%Q ->
    size_loop us q
    = format_1f (q / inject_Z (1024 ^ Z.of_nat k)) ++ " " ++ unit.
Proof.
  induction k as [|k IH]; intros us unit q Hn Lo Hi.
  - destruct us as [|u us]; [discriminate|]. injection Hn as ->.
    cbn [size_loop].
    assert (L : Qle_bool 1024 q = false).
    { destruct (Qle_bool 1024 q) eqn:E; [|reflexivity].
      apply Qle_bool_iff in E. exfalso.
      apply (Qlt_irrefl q). eapply Qlt_le_trans; [exact Hi|exact E]. }
    rewrite L. cbn [negb].
    rewrite (format_1f_comp (q / inject_Z (1024 ^ Z.of_nat 0)) q);
      [reflexivity|].
    change (inject_Z (1024 ^ Z.of_nat 0)) with 1%Q. field.
  - destruct us as [|u us]; [discriminate|]. cbn [nth_error] in Hn.
    cbn [size_loop].
    assert (P : (0 < 1024 ^ Z.of_nat k)%Z) by (apply Z.pow_pos_nonneg; lia).
    assert (E1 : (1024 ^ Z.of_nat (S k) = 1024 * 1024 ^ Z.of_nat k)%Z).
    { rewrite Nat2Z.inj_succ, Z.pow_succ_r by lia. reflexivity. }
    assert (E2 : (1024 ^ Z.of_nat (S (S k))
                  = 1024 * 1024 ^ Z.of_nat (S k))%Z).
    { rewrite (Nat2Z.inj_succ (S k)), Z.pow_succ_r by lia. reflexivity. }
    assert (L : Qle_bool 1024 q = true).
    { apply Qle_bool_iff. eapply Qle_trans; [|exact Lo].
      rewrite E1. change 1024%Q with (inject_Z 1024).
      rewrite <- Zle_Qle. nia. }
    rewrite L. cbn [negb].
    rewrite (IH us unit (q / 1024)%Q Hn).
    + apply (f_equal (fun s => s ++ " " ++ unit)). apply format_1f_comp.
      rewrite E1, inject_Z_mult. field.
      intros Z0. unfold Qeq in Z0. cbn in Z0. lia.
    + apply Qle_shift_div_l; [reflexivity|].
      rewrite E1, inject_Z_mult in Lo.
      now rewrite Qmult_comm.
    + apply Qlt_shift_div_r; [reflexivity|].
      rewrite E2, inject_Z_mult in Hi.
      now rewrite Qmult_comm.
Qed.

Lemma size_loop_last (us : list string) :
  forall q : Q,
    (inject_Z (1024 ^ Z.of_nat (List.length us)) <= q)%Q ->
    size_loop us q
    = format_1f (q / inject_Z (1024 ^ Z.of_nat (List.length us))) ++ " TB".
Proof.
  induction us as [|u us IH]; intros q Lo.
  - cbn [size_loop List.length].
    rewrite (format_1f_comp (q / inject_Z (1024 ^ Z.of_nat 0)) q);
      [reflexivity|].
    change (inject_Z (1024 ^ Z.of_nat 0)) with 1%Q. field.
  - cbn [size_loop List.length]. cbn [List.length] in Lo.
    assert (P : (0 < 1024 ^ Z.of_nat (List.length us))%Z)
      by (apply Z.pow_pos_nonneg; lia).
    assert (E1 : (1024 ^ Z.of_nat (S (List.length us))
                  = 1024 * 1024 ^ Z.of_nat (List.length us))%Z).
    { rewrite Nat2Z.inj_succ, Z.pow_succ_r by lia. reflexivity. }
    assert (L : Qle_bool 1024 q = true).
    { apply Qle_bool_iff. eapply Qle_trans; [|exact Lo].
      rewrite E1. change 1024%Q with (inject_Z 1024).
      rewrite <- Zle_Qle. nia. }
    rewrite L. cbn [negb]. rewrite IH.
    + apply (f_equal (fun s => s ++ " TB")). apply format_1f_comp.
      rewrite E1, inject_Z_mult. field.
      intros Z0. unfold Qeq in Z0. cbn in Z0. lia.
    + apply Qle_shift_div_l; [reflexivity|].
      rewrite E1, inject_Z_mult in Lo.
      now rewrite Qmult_comm.
Qed.

(** X16.  The size of a file is shown in the first of the units B, KB,
    MB, GB in which it is below 1024, as the size divided by the matching
    power of 1024 with one decimal, and in TB from 1024^4 bytes on, where
    the number shown is not bounded any more.  The rounding is done after
    the unit is chosen, so the number shown can be 1024.0: a file of
    1048575 bytes is reported as 1024.0 KB. *)
Theorem get_file_size_unit (size_bytes : Z) :
  (0 <= size_bytes)%Z ->
  (forall (k : nat) (unit : string),
      nth_error units k = Some unit ->
      (1024 ^ Z.of_nat k <= size_bytes < 1024 ^ Z.of_nat (S k))%Z ->
      get_file_size (Returned size_bytes)
      = Returned
          (format_1f (inject_Z size_bytes / inject_Z (1024 ^ Z.of_nat k))
           ++ " " ++ unit))
  /\ ((1024 ^ 4 <= size_bytes)%Z ->
      get_file_size (Returned size_bytes)
      = Returned
          (format_1f (inject_Z size_bytes / inject_Z (1024 ^ 4)) ++ " TB"))
  /\ get_file_size (Returned 1048575%Z) = Returned "1024.0 KB".
Proof.
  intros H0. split; [|split].
  - intros k unit Hn [Lo Hi]. unfold get_file_size.
    rewrite (size_loop_unit k units unit (inject_Z size_bytes) Hn);
      [reflexivity | |].
    + rewrite <- Zle_Qle. exact Lo.
    + rewrite <- Zlt_Qlt. exact Hi.
  - intros Lo. unfold get_file_size.
    rewrite (size_loop_last units (inject_Z size_bytes)); [reflexivity|].
    rewrite <- Zle_Qle. exact Lo.
  - vm_compute. reflexivity.
Qed.

Lemma get_file_size_unit_witness :
  get_file_size (Returned 1536%Z) = Returned "1.5 KB"
  /\ get_file_size (Returned 5368709120%Z) = Returned "5.0 GB"
  /\ get_file_size (Returned 3298534883328%Z) = Returned "3.0 TB".
Proof.
  destruct (get_file_size_unit 1536 ltac:(lia)) as (A & _ & _).
  destruct (get_file_size_unit 3298534883328 ltac:(lia)) as (_ & B & _).
  split; [|split].
  - rewrite (A 1%nat "KB" eq_refl ltac:(cbn; lia)). vm_compute. reflexivity.
  - vm_compute. reflexivity.
  - rewrite (B ltac:(cbn; lia)). vm_compute. reflexivity.
Defined.

End SizesFacts.

(* ================================================================== *)
(** * One audio file, from the file to its transcript *)

Module StudioFacts.
Import PyStr Aligner TranscriptFormatter PathStr Studio.

(** ** Every act of a computation satisfies [P] *)

Lemma keeps_ret {A} (P : Act -> Prop) (a : A) : keeps P (Eff.ret a).
Proof. intros h. exists []. split; [now rewrite app_nil_r | constructor]. Qed.

Lemma keeps_raise {A} (P : Act -> Prop) (e : string) :
  keeps P (@raise A e).
Proof. intros h. exists []. split; [now rewrite app_nil_r | constructor]. Qed.

Lemma keeps_bind {A B} (P : Act -> Prop) (m : M A) (k : A -> M B) :
  keeps P m -> (forall a, keeps P (k a)) -> keeps P (Eff.bind m k).
Proof.
  intros Hm Hk h. unfold Eff.bind. destruct (Hm h) as (a1 & E1 & F1).
  destruct (m h) as [[a|e] h1]; cbn [snd] in *; subst h1.
  - destruct (Hk a (h ++ a1)%list) as (a2 & E2 & F2).
    exists (a1 ++ a2)%list. rewrite E2, app_assoc. split; [reflexivity|].
    now apply Forall_app.
  - now exists a1.
Qed.

Lemma keeps_try {A} (P : Act -> Prop) (body : M A) (handler : string -> M A) :
  keeps P body -> (forall e, keeps P (handler e)) ->
  keeps P (Eff.try_except body handler).
Proof.
  intros Hm Hk h. unfold Eff.try_except. destruct (Hm h) as (a1 & E1 & F1).
  destruct (body h) as [[a|e] h1]; cbn [snd] in *; subst h1.
  - now exists a1.
  - destruct (Hk e (h ++ a1)%list) as (a2 & E2 & F2).
    exists (a1 ++ a2)%list. rewrite E2, app_assoc. split; [reflexivity|].
    now apply Forall_app.
Qed.

Lemma keeps_perform {A} (P : Act -> Prop) (act : Act)
    (ans : list Act -> outcome A) :
  P act -> keeps P (perform act ans).
Proof.
  intros H h. exists [act]. split; [reflexivity|]. now constructor.
Qed.

Lemma keeps_path_exists (P : Act -> Prop) (w : World) (p : string) :
  keeps P (path_exists w p).
Proof. intros h. exists []. split; [now rewrite app_nil_r | constructor]. Qed.

Lemma keeps_now (P : Act -> Prop) (w : World) : keeps P (now w).
Proof. intros h. exists []. split; [now rewrite app_nil_r | constructor]. Qed.

(** ** The temporary file is another file than the audio *)

Lemma drop_append (x s : string) (n : nat) :
  drop (String.length x + n) (x ++ s) = drop n s.
Proof. induction x as [|a x IH]; [reflexivity | exact IH]. Qed.

Lemma temp_wav_is_no_mp3 (x : string) :
  endswith (lower (x ++ "_temp.wav")) ".mp3" = false.
Proof.
  unfold endswith. rewrite LowerFacts.lower_append.
  rewrite StrFacts.length_append, LowerFacts.lower_length.
  change (String.length (lower "_temp.wav")) with 9%nat.
  change (String.length ".mp3") with 4%nat.
  replace (String.length x + 9 - 4)%nat with (String.length x + 5)%nat by lia.
  rewrite <- (LowerFacts.lower_length x) at 2.
  rewrite drop_append. apply andb_false_r.
Qed.

Lemma wav_path_differs (audio_path p : string) :
  wav_path_of audio_path = Some p -> p <> audio_path.
Proof.
  unfold wav_path_of. destruct (endswith (lower audio_path) ".mp3") eqn:E;
    [|discriminate].
  intros H. injection H as <-. intros K. rewrite <- K in E.
  now rewrite temp_wav_is_no_mp3 in E.
Qed.

Lemma keeps_cleanup (w : World) (audio_path : string) :
  keeps (removes_only audio_path) (cleanup w (wav_path_of audio_path)).
Proof.
  unfold cleanup. destruct (wav_path_of audio_path) as [p|] eqn:E;
    [|apply keeps_ret].
  destruct (is_empty p); [apply keeps_ret|].
  apply keeps_bind; [apply keeps_path_exists|]. intros [|].
  - apply keeps_perform. exact E.
  - apply keeps_ret.
Qed.

Lemma keeps_speakers (P : Act -> Prop) (w : World) (b : bool)
    (path : string) (raws : list RawSegment) :
  P (Diarize path) -> (forall m, P (Say m)) ->
  keeps P (speakers w b path raws).
Proof.
  intros Hd Hs. unfold speakers. destruct b; [|apply keeps_ret].
  apply keeps_bind; [now apply keeps_perform|]. intros run.
  apply keeps_bind; [|intros; apply keeps_ret].
  destruct run; [apply keeps_ret | apply keeps_perform, Hs].
Qed.

Lemma keeps_body (w : World) (has_pipeline : bool)
    (audio_path output_folder output_format : string) :
  keeps (removes_only audio_path)
        (transcribe_body w has_pipeline audio_path output_folder
           output_format).
Proof.
  unfold transcribe_body.
  apply keeps_bind.
  { destruct (wav_path_of audio_path) as [p|] eqn:E; [|apply keeps_ret].
    apply keeps_bind; [apply keeps_perform; now split|]. intros _.
    apply keeps_bind; [now apply keeps_perform|]. intros _.
    apply keeps_ret. }
  intros audio_file_path.
  apply keeps_bind; [now apply keeps_perform|]. intros result.
  apply keeps_bind; [apply keeps_speakers; [exact I | intros; exact I]|].
  intros segs.
  apply keeps_bind.
  { destruct (Batch.one_of output_format ["txt"; "both"]);
      [|apply keeps_ret].
    apply keeps_bind; [now apply keeps_perform|]. intros _.
    apply keeps_ret. }
  intros paths_txt.
  apply keeps_bind.
  { destruct (Batch.one_of output_format ["md"; "both"]);
      [|apply keeps_ret].
    apply keeps_bind; [apply keeps_now|]. intros generated.
    apply keeps_bind; [now apply keeps_perform|]. intros _.
    apply keeps_ret. }
  intros paths.
  apply keeps_bind; [apply keeps_cleanup|]. intros _.
  destruct paths; [apply keeps_raise | apply keeps_ret].
Qed.

(** X17.  Whatever the surroundings do, the only file that
    [transcribe_audio_with_whisper] removes is the temporary WAV file it
    makes for an MP3, which is never the audio file it was given; ffmpeg
    is run on the given audio only, to make that temporary file.  For an
    audio that is not an MP3 nothing is removed and ffmpeg is not run. *)
Theorem only_temporary_wav_removed (w : World) (has_pipeline : bool)
    (audio_path output_folder output_format : string)
    (history : list Act) :
  exists added,
    snd (transcribe_audio_with_whisper w has_pipeline audio_path
           output_folder output_format history)
    = (history ++ added)%list
    /\ (forall p, In (Remove p) added ->
                  wav_path_of audio_path = Some p /\ p <> audio_path)
    /\ (forall a b, In (Ffmpeg a b) added ->
                    a = audio_path /\ wav_path_of audio_path = Some b)
    /\ (endswith (lower audio_path) ".mp3" = false ->
        forall act, In act added ->
                    match act with
                    | Remove _ | Ffmpeg _ _ => False
                    | _ => True
                    end).
Proof.
  assert (K : keeps (removes_only audio_path)
                (transcribe_audio_with_whisper w has_pipeline audio_path
                   output_folder output_format)).
  { apply keeps_try; [apply keeps_body|]. intros e.
    apply keeps_bind; [apply keeps_cleanup|]. intros _. apply keeps_raise. }
  destruct (K history) as (added & E & F). exists added.
  rewrite Forall_forall in F.
  split; [exact E|]. split; [|split].
  - intros p Hp. pose proof (F _ Hp) as Q. cbn in Q.
    split; [exact Q | now apply wav_path_differs].
  - intros a b Hab. exact (F _ Hab).
  - intros N act Ha. pose proof (F _ Ha) as Q.
    unfold removes_only, wav_path_of in Q. rewrite N in Q.
    destruct act; try exact I.
    + now destruct Q.
    + discriminate Q.
Qed.

(** ** Exceptions *)

Lemma cleanup_run (w : World) (p : string) (h : list Act) :
  p <> EmptyString ->
  cleanup w (Some p) h
  = if w_exists w h p then (w_remove w h p, (h ++ [Remove p])%list)
    else (Returned tt, h).
Proof.
  intros N. unfold cleanup. apply StrFacts.is_empty_false in N. rewrite N.
  unfold Eff.bind, path_exists, remove, perform, Eff.ret.
  now destruct (w_exists w h p).
Qed.

Lemma wav_path_not_empty (audio_path p : string) :
  wav_path_of audio_path = Some p -> p <> EmptyString.
Proof.
  unfold wav_path_of. destruct (endswith (lower audio_path) ".mp3");
    [|discriminate].
  intros H. injection H as <-. intros E.
  apply StrFacts.append_eq_nil in E. destruct E as [_ E]. discriminate E.
Qed.

(** X18.  An exception that leaves [transcribe_audio_with_whisper] is
    either the wrapped one, whose message starts with the words
    "Error transcribing", the path of the audio and a colon, or it is
    the exception that removing the temporary file raised while the
    first one was being handled, which then replaces it. *)
Theorem exceptions_are_wrapped (w : World) (has_pipeline : bool)
    (audio_path output_folder output_format : string)
    (history : list Act) (msg : string) :
  fst (transcribe_audio_with_whisper w has_pipeline audio_path
         output_folder output_format history) = Raised msg ->
  (exists e, msg = "Error transcribing " ++ audio_path ++ ": " ++ e)
  \/ (exists h p, wav_path_of audio_path = Some p
                  /\ w_exists w h p = true
                  /\ w_remove w h p = Raised msg).
Proof.
  unfold transcribe_audio_with_whisper, Eff.try_except.
  destruct (transcribe_body w has_pipeline audio_path output_folder
              output_format history) as [[r|e] h1]; [discriminate|].
  unfold Eff.bind.
  destruct (wav_path_of audio_path) as [p|] eqn:E.
  - rewrite (cleanup_run w p h1 (wav_path_not_empty _ _ E)).
    destruct (w_exists w h1 p) eqn:X.
    + destruct (w_remove w h1 p) as [[]|m] eqn:R; cbn.
      * intros H. injection H as <-. left. now exists e.
      * intros H. injection H as <-. right. now exists h1, p.
    + cbn. intros H. injection H as <-. left. now exists e.
  - cbn. intros H. injection H as <-. left. now exists e.
Qed.

Lemma exceptions_are_wrapped_witness :
  let w := mkWorld (fun _ _ _ => Returned tt) (fun _ _ => Returned 2048%Z)
             (fun _ _ => Raised "out of memory")
             (fun _ _ => Returned []) (fun _ _ _ => Returned tt)
             (fun _ _ => true) (fun _ _ => Returned tt)
             (fun _ => "2024-01-01 00:00:00") "->" in
  transcribe_audio_with_whisper w true "in/talk.MP3" "out" "txt" []
  = (Raised "Error transcribing in/talk.MP3: out of memory",
     [Ffmpeg "in/talk.MP3" "in/talk_temp.wav"; GetSize "in/talk_temp.wav";
      Whisper "in/talk_temp.wav"; Remove "in/talk_temp.wav"])
  /\ ((exists e, "Error transcribing in/talk.MP3: out of memory"
                 = "Error transcribing " ++ "in/talk.MP3" ++ ": " ++ e)
      \/ (exists h p, wav_path_of "in/talk.MP3" = Some p
                      /\ w_exists w h p = true
                      /\ w_remove w h p
                         = Raised "Error transcribing in/talk.MP3: out of memory")).
Proof.
  intros w. split; [vm_compute; reflexivity|].
  apply (exceptions_are_wrapped w true "in/talk.MP3" "out" "txt" []).
  vm_compute. reflexivity.
Defined.

(** ** A format that is none of the three *)

Lemma fails_bind {A B} (m : M A) (k : A -> M B) :
  (forall a h, exists e, fst (k a h) = Raised e) ->
  forall h, exists e, fst (Eff.bind m k h) = Raised e.
Proof.
  intros Hk h. unfold Eff.bind. destruct (m h) as [[a|e] h1].
  - apply Hk.
  - now exists e.
Qed.

Lemma saves_app (h1 h2 : list Act) :
  saves (h1 ++ h2) = (saves h1 ++ saves h2)%list.
Proof. unfold saves. apply flat_map_app. Qed.

Lemma saves_none (added : list Act) :
  Forall (fun act => match act with Save _ _ => False | _ => True end) added
  -> saves added = [].
Proof.
  induction 1 as [|act added H _ IH]; [reflexivity|].
  cbn [saves flat_map]. fold (saves added). rewrite IH.
  destruct act; try reflexivity. contradiction.
Qed.

(** X19.  With an output format that is none of txt, md and both, the
    function never returns: whatever the surroundings do it ends with an
    exception, and it writes no file, although the audio is transcribed
    when the model works. *)
Theorem unknown_format_never_returns (w : World) (has_pipeline : bool)
    (audio_path output_folder output_format : string)
    (history : list Act) :
  Batch.one_of output_format ["txt"; "md"; "both"] = false ->
  (exists msg,
      fst (transcribe_audio_with_whisper w has_pipeline audio_path
             output_folder output_format history) = Raised msg)
  /\ saves (snd (transcribe_audio_with_whisper w has_pipeline audio_path
                   output_folder output_format history))
     = saves history.
Proof.
  intros H.
  assert (H1 : Batch.one_of output_format ["txt"; "both"] = false
               /\ Batch.one_of output_format ["md"; "both"] = false).
  { unfold Batch.one_of in *. cbn [existsb] in *.
    apply orb_false_iff in H. destruct H as [A H].
    apply orb_false_iff in H. destruct H as [B H].
    rewrite A, B. now destruct (output_format =? "both")%string. }
  destruct H1 as [Ht Hm].
  set (quiet := fun act => match act with Save _ _ => False | _ => True end).
  assert (Kc : forall p, keeps quiet (cleanup w p)).
  { intros [p|]; [|apply keeps_ret]. unfold cleanup.
    destruct (is_empty p); [apply keeps_ret|].
    apply keeps_bind; [apply keeps_path_exists|]. intros [|].
    - now apply keeps_perform.
    - apply keeps_ret. }
  assert (Fc : forall (h : list Act) e, exists e',
             fst (Eff.bind (cleanup w (wav_path_of audio_path))
                    (fun _ => @raise (string * string * string) e) h)
             = Raised e').
  { intros h e. apply fails_bind. intros _ h'. now exists e. }
  split.
  - unfold transcribe_audio_with_whisper, Eff.try_except.
    assert (B : exists e, fst (transcribe_body w has_pipeline audio_path
                                 output_folder output_format history)
                          = Raised e).
    { unfold transcribe_body. rewrite Ht, Hm.
      apply fails_bind. intros a h1.
      apply fails_bind. intros result h2.
      apply fails_bind. intros segs h3.
      unfold Eff.bind at 1. unfold Eff.ret at 1.
      unfold Eff.bind at 1. unfold Eff.ret at 1.
      apply fails_bind. intros _ h4. now exists "list index out of range". }
    destruct B as [e B].
    destruct (transcribe_body w has_pipeline audio_path output_folder
                output_format history) as [[r|e0] h1]; [discriminate|].
    apply Fc.
  - assert (K : keeps quiet
                  (transcribe_audio_with_whisper w has_pipeline audio_path
                     output_folder output_format)).
    { apply keeps_try.
      - unfold transcribe_body. rewrite Ht, Hm.
        apply keeps_bind.
        { destruct (wav_path_of audio_path); [|apply keeps_ret].
          apply keeps_bind; [now apply keeps_perform|]. intros _.
          apply keeps_bind; [now apply keeps_perform|]. intros _.
          apply keeps_ret. }
        intros a. apply keeps_bind; [now apply keeps_perform|].
        intros result.
        apply keeps_bind;
          [apply keeps_speakers; [exact I | intros; exact I]|].
        intros segs.
        apply keeps_bind; [apply keeps_ret|]. intros p1.
        apply keeps_bind; [apply keeps_ret|]. intros p2.
        apply keeps_bind; [apply Kc|]. intros _.
        destruct p2; [apply keeps_raise | apply keeps_ret].
      - intros e. apply keeps_bind; [apply Kc|]. intros _.
        apply keeps_raise. }
    destruct (K history) as (added & E & F).
    rewrite E, saves_app, (saves_none added F). apply app_nil_r.
Qed.

Lemma unknown_format_never_returns_witness :
  let w := mkWorld (fun _ _ _ => Returned tt) (fun _ _ => Returned 2048%Z)
             (fun _ _ => Returned (mkWhisper (Some "en") " good day"
                                     [mkRaw 0 2 " good day"]))
             (fun _ _ => Returned []) (fun _ _ _ => Returned tt)
             (fun _ _ => true) (fun _ _ => Returned tt)
             (fun _ => "2024-01-01 00:00:00") "->" in
  transcribe_audio_with_whisper w false "in/talk.wav" "out" "json" []
  = (Raised "Error transcribing in/talk.wav: list index out of range",
     [Whisper "in/talk.wav"])
  /\ saves (snd (transcribe_audio_with_whisper w false "in/talk.wav" "out"
                   "json" [])) = saves [].
Proof.
  intros w. split; [vm_compute; reflexivity|].
  apply (unknown_format_never_returns w false "in/talk.wav" "out" "json" []).
  reflexivity.
Defined.

(** ** A pipeline that fails *)

(** X20.  For an audio that is no MP3 and the txt format, when the model
    and the writing work and the diarization pipeline raises, the
    function warns and then writes and returns exactly what it writes
    and returns without a pipeline: the transcript in which every
    segment of the model is given to SPEAKER_00. *)
Theorem failing_pipeline_is_no_pipeline (w : World)
    (audio_path output_folder : string) (result : WhisperResult)
    (e : string) (history : list Act) :
  endswith (lower audio_path) ".mp3" = false ->
  (forall h p, w_whisper w h p = Returned result) ->
  (forall h p, w_diarize w h p = Raised e) ->
  (forall h p c, w_save w h p c = Returned tt) ->
  let language := match wr_language result with
                  | Some l => l
                  | None => "unknown"
                  end in
  let path := Batch.path_join output_folder
                (transcript_stem audio_path ++ "_transcript.txt") in
  let content :=
    format_txt (Search.remove_all ".mp3" (Batch.basename audio_path))
      language (duration_of (wr_segments result))
      (map fallback_segment (wr_segments result)) (wr_text result) in
  let reply := Returned (path, preview_of (wr_text result), language) in
  transcribe_audio_with_whisper w true audio_path output_folder "txt"
    history
  = (reply,
     (history ++ [Whisper audio_path; Diarize audio_path;
                  Say ("Warning: Speaker diarization failed: " ++ e);
                  Save path content])%list)
  /\ transcribe_audio_with_whisper w false audio_path output_folder "txt"
       history
     = (reply, (history ++ [Whisper audio_path; Save path content])%list).
Proof.
  intros Hn Hw Hd Hs language path content reply.
  assert (F : forall pipeline,
             (pipeline = None \/ exists m, pipeline = Some (Raised m)) ->
             snd (segments_with_speakers (wr_segments result) pipeline)
             = map fallback_segment (wr_segments result)).
  { intros pipeline [->|[m ->]];
      unfold segments_with_speakers, align, Eff.try_except, Eff.bind,
        Eff.lift;
      now rewrite AlignerFacts.fallback_loop_spec. }
  unfold transcribe_audio_with_whisper, transcribe_body, wav_path_of,
    Eff.try_except.
  rewrite Hn. unfold cleanup.
  unfold speakers, transcribe, diarize, save, say, perform, Eff.bind,
    Eff.ret.
  rewrite !Hw, !Hd. cbn [Batch.one_of existsb String.eqb Ascii.eqb
                         Bool.eqb orb].
  rewrite !Hs. cbn [app].
  rewrite (F None) by now left.
  rewrite (F (Some (Raised e))) by (right; now exists e).
  split.
  - apply f_equal. rewrite <- !app_assoc. reflexivity.
  - apply f_equal. rewrite <- !app_assoc. reflexivity.
Qed.

Lemma failing_pipeline_is_no_pipeline_witness :
  let w := mkWorld (fun _ _ _ => Returned tt) (fun _ _ => Returned 2048%Z)
             (fun _ _ => Returned (mkWhisper (Some "en") " good day"
                                     [mkRaw 0 2 " good day"]))
             (fun _ _ => Raised "no token") (fun _ _ _ => Returned tt)
             (fun _ _ => true) (fun _ _ => Returned tt)
             (fun _ => "2024-01-01 00:00:00") "->" in
  saves (snd (transcribe_audio_with_whisper w true "in/talk.wav" "out" "txt"
                []))
  = saves (snd (transcribe_audio_with_whisper w false "in/talk.wav" "out"
                  "txt" [])).
Proof.
  intros w.
  destruct (failing_pipeline_is_no_pipeline w "in/talk.wav" "out"
              (mkWhisper (Some "en") " good day" [mkRaw 0 2 " good day"])
              "no token" [] eq_refl (fun _ _ => eq_refl)
              (fun _ _ => eq_refl) (fun _ _ _ => eq_refl)) as [A B].
  rewrite A, B. reflexivity.
Defined.

(** ** What is returned *)

Lemma bind_returned {A B} (m : M A) (k : A -> M B) (h h2 : list Act)
    (b : B) :
  Eff.bind m k h = (Returned b, h2) ->
  exists a h1, m h = (Returned a, h1) /\ k a h1 = (Returned b, h2).
Proof.
  unfold Eff.bind. destruct (m h) as [[a|e] h1]; [|discriminate].
  intros H. now exists a, h1.
Qed.

Lemma grows {A} (m : M A) (h h1 : list Act) (o : outcome A) :
  keeps (fun _ => True) m -> m h = (o, h1) ->
  exists added, h1 = (h ++ added)%list.
Proof.
  intros K E. destruct (K h) as (added & Ea & _). rewrite E in Ea.
  now exists added.
Qed.

Lemma length_take (n : nat) (s : string) :
  (String.length (take n s) <= n)%nat.
Proof.
  revert s. induction n as [|n IH]; intros [|a s]; cbn; try lia.
  specialize (IH s). lia.
Qed.

Lemma length_preview (full_text : string) :
  (String.length (preview_of full_text) <= 100)%nat.
Proof.
  unfold preview_of. destruct (100 <? String.length full_text)%nat eqn:E.
  - apply length_take.
  - apply Nat.ltb_ge in E. exact E.
Qed.

(** X21.  When [transcribe_audio_with_whisper] returns, the path it
    returns is that of a file it has written during this very call: the
    txt transcript when the format is txt or both, the md transcript
    when it is md, named after the audio in the output folder.  The
    preview it returns has at most 100 characters. *)
Theorem returned_path_was_written (w : World) (has_pipeline : bool)
    (audio_path output_folder output_format : string)
    (history : list Act) (path preview language : string) :
  fst (transcribe_audio_with_whisper w has_pipeline audio_path
         output_folder output_format history)
  = Returned (path, preview, language) ->
  exists added content,
    snd (transcribe_audio_with_whisper w has_pipeline audio_path
           output_folder output_format history)
    = (history ++ added)%list
    /\ In (Save path content) added
    /\ path = Batch.path_join output_folder
                (transcript_stem audio_path
                 ++ (if Batch.one_of output_format ["txt"; "both"]
                     then "_transcript.txt" else "_transcript.md"))
    /\ (String.length preview <= 100)%nat.
Proof.
  unfold transcribe_audio_with_whisper, Eff.try_except.
  destruct (transcribe_body w has_pipeline audio_path output_folder
              output_format history) as [[r|e] hf] eqn:B.
  2:{ intros H. exfalso.
      destruct (fails_bind (cleanup w (wav_path_of audio_path))
                  (fun _ => @raise (string * string * string)
                              ("Error transcribing " ++ audio_path ++ ": "
                               ++ e))
                  (fun _ h' => ex_intro _ _ eq_refl) hf) as [e' E'].
      unfold Eff.bind in *. rewrite E' in H. discriminate H. }
  cbn [fst snd]. intros H. injection H as ->.
  unfold transcribe_body in B.
  apply bind_returned in B. destruct B as (afp & h1 & B1 & B).
  apply bind_returned in B. destruct B as (result & h2 & B2 & B).
  apply bind_returned in B. destruct B as (segs & h3 & B3 & B).
  apply bind_returned in B. destruct B as (ptxt & h4 & B4 & B).
  apply bind_returned in B. destruct B as (paths & h5 & B5 & B).
  apply bind_returned in B. destruct B as ([] & h6 & B6 & B).
  assert (G1 : exists a1, h1 = (history ++ a1)%list).
  { eapply grows; [|exact B1].
    destruct (wav_path_of audio_path); [|apply keeps_ret].
    apply keeps_bind; [now apply keeps_perform|]. intros _.
    apply keeps_bind; [now apply keeps_perform|]. intros _.
    apply keeps_ret. }
  assert (G2 : exists a2, h2 = (h1 ++ a2)%list).
  { eapply grows; [|exact B2]. now apply keeps_perform. }
  assert (G3 : exists a3, h3 = (h2 ++ a3)%list).
  { eapply grows; [|exact B3]. now apply keeps_speakers. }
  assert (G6 : exists a6, h6 = (h5 ++ a6)%list).
  { eapply grows; [|exact B6].
    unfold cleanup. destruct (wav_path_of audio_path) as [q|];
      [|apply keeps_ret].
    destruct (is_empty q); [apply keeps_ret|].
    apply keeps_bind; [apply keeps_path_exists|]. intros [|].
    - now apply keeps_perform.
    - apply keeps_ret. }
  destruct G1 as [a1 ->]. destruct G2 as [a2 ->]. destruct G3 as [a3 ->].
  destruct G6 as [a6 ->].
  destruct paths as [|first rest]; [discriminate B|].
  unfold Eff.ret in B. injection B as -> <- <- <-.
  destruct (Batch.one_of output_format ["txt"; "both"]) eqn:Ft.
  - apply bind_returned in B4. destruct B4 as ([] & h4' & S4 & R4).
    unfold Eff.ret in R4. injection R4 as <- <-.
    unfold save, perform in S4. injection S4 as S4 <-.
    set (txt_path := Batch.path_join output_folder
                       (transcript_stem audio_path ++ "_transcript.txt"))
      in *.
    set (txt_content := format_txt
                          (Search.remove_all ".mp3"
                             (Batch.basename audio_path))
                          match wr_language result with
                          | Some l => l
                          | None => "unknown"
                          end (duration_of (wr_segments result)) segs
                          (wr_text result)) in *.
    assert (G5 : exists a5 tail,
               h5 = (((history ++ a1) ++ a2) ++ a3
                     ++ [Save txt_path txt_content] ++ a5)%list
               /\ path :: rest = txt_path :: tail).
    { destruct (Batch.one_of output_format ["md"; "both"]).
      - apply bind_returned in B5. destruct B5 as (g & h' & N5 & B5).
        apply bind_returned in B5. destruct B5 as ([] & h'' & S5 & R5).
        unfold now in N5. injection N5 as <- <-.
        unfold save, perform in S5. injection S5 as S5 <-.
        unfold Eff.ret in R5. cbn [app] in R5.
        injection R5 as E1 E2 E3. subst h5.
        eexists. exists rest. split; [|now rewrite E1].
        rewrite <- !app_assoc. reflexivity.
      - unfold Eff.ret in B5. injection B5 as E1 E2 E3. subst h5.
        exists [], rest. split; [|now rewrite E1].
        rewrite <- !app_assoc. reflexivity. }
    destruct G5 as (a5 & tail & -> & E). injection E as -> _.
    eexists. eexists. split; [rewrite <- !app_assoc; reflexivity|].
    split; [|split; [reflexivity | apply length_preview]].
    apply in_or_app. right. apply in_or_app. right.
    apply in_or_app. right. now left.
  - unfold Eff.ret in B4. injection B4 as <- <-.
    destruct (Batch.one_of output_format ["md"; "both"]).
    + apply bind_returned in B5. destruct B5 as (g & h' & N5 & B5).
      apply bind_returned in B5. destruct B5 as ([] & h'' & S5 & R5).
      unfold now in N5. injection N5 as <- <-.
      unfold save, perform in S5. injection S5 as S5 <-.
      unfold Eff.ret in R5. cbn [app] in R5. injection R5 as <- _ <-.
      eexists. eexists. split; [rewrite <- !app_assoc; reflexivity|].
      split; [|split; [reflexivity | apply length_preview]].
      apply in_or_app. right. apply in_or_app. right.
      apply in_or_app. right. apply in_or_app. left. now left.
    + unfold Eff.ret in B5. discriminate B5.
Qed.

Lemma returned_path_was_written_witness :
  let w := mkWorld (fun _ _ _ => Returned tt) (fun _ _ => Returned 2048%Z)
             (fun _ _ => Returned (mkWhisper (Some "en") " good day"
                                     [mkRaw 0 2 " good day"]))
             (fun _ _ => Returned [mkTurn 0 3 "SPEAKER_01"])
             (fun _ _ _ => Returned tt)
             (fun _ _ => true) (fun _ _ => Returned tt)
             (fun _ => "2024-01-01 00:00:00") "->" in
  fst (transcribe_audio_with_whisper w true "in/talk.mp3" "out" "both" [])
  = Returned ("out/talk_transcript.txt", " good day", "en")
  /\ exists added content,
       snd (transcribe_audio_with_whisper w true "in/talk.mp3" "out" "both"
              [])
       = added
       /\ In (Save "out/talk_transcript.txt" content) added.
Proof.
  intros w. split; [vm_compute; reflexivity|].
  destruct (returned_path_was_written w true "in/talk.mp3" "out" "both" []
              "out/talk_transcript.txt" " good day" "en")
    as (added & content & E & I & _).
  - vm_compute. reflexivity.
  - exists added, content. split; [exact E | exact I].
Defined.

End StudioFacts.

(* ================================================================== *)
(** * Indexing a folder *)

Module IndexerFacts.
Import PyStr PathStr Search Indexer.

Lemma seen_spec (b : string) (seen : list string) :
  existsb (String.eqb b) seen = true <-> In b seen.
Proof.
  rewrite existsb_exists. split.
  - intros (x & Hx & E). apply String.eqb_eq in E. now subst.
  - intros H. exists b. split; [exact H | apply String.eqb_refl].
Qed.

(** The loop that removes duplicates keeps, in order, the first file of
    every base name not seen before. *)
Lemma unique_loop_spec (env : Env) (files : list string) :
  forall (seen unique : list string) (h : list Event),
  exists kept,
    unique_loop env files seen unique h
    = (Returned (unique ++ map (chosen env h) kept)%list, h)
    /\ incl kept files
    /\ NoDup (map base_of kept)
    /\ (forall f, In f kept -> ~ In (base_of f) seen)
    /\ (forall f, In f files ->
                  In (base_of f) seen \/ In (base_of f) (map base_of kept)).
Proof.
  induction files as [|f files IH]; intros seen unique h.
  - exists []. cbn [unique_loop map]. rewrite app_nil_r.
    split; [reflexivity|]. split; [intros x []|].
    split; [constructor|]. split; intros x [].
  - cbn [unique_loop].
    destruct (existsb (String.eqb (base_of f)) seen) eqn:E.
    + apply seen_spec in E.
      destruct (IH seen unique h) as (kept & R & I & N & S & C).
      exists kept. split; [exact R|]. split; [now apply incl_tl|].
      split; [exact N|]. split; [exact S|].
      intros x [<-|Hx]; [now left | now apply C].
    + assert (E' : ~ In (base_of f) seen).
      { intros H. apply seen_spec in H. congruence. }
      unfold Eff.bind, IO.path_exists.
      destruct (IH (seen ++ [base_of f])%list
                   (unique ++ [chosen env h f])%list h)
        as (kept & R & I & N & S & C).
      exists (f :: kept). unfold chosen in R at 1. rewrite R.
      split; [cbn [map]; now rewrite <- app_assoc|].
      split.
      { intros x [<-|Hx]; [now left | right; now apply I]. }
      split.
      { cbn [map]. constructor; [|exact N].
        intros H. apply in_map_iff in H. destruct H as (x & Ex & Hx).
        apply (S x Hx). apply in_or_app. right. left. now rewrite Ex. }
      split.
      { intros x [<-|Hx]; [exact E'|].
        intros H. apply (S x Hx). apply in_or_app. now left. }
      intros x [<-|Hx]; [right; now left|].
      destruct (C x Hx) as [H|H].
      * apply in_app_or in H. destruct H as [H|[H|[]]].
        -- now left.
        -- right. left. exact H.
      * right. right. exact H.
Qed.

(** X22.  The loop that removes duplicates performs nothing and never
    raises.  The files it hands on are made from files of the folder
    with base names all different, one for the first file of every base
    name: the file itself, or in its place the txt file of the same name
    when that exists.  So at most one file is read per base name, and
    never more files than the folder lists. *)
Theorem one_file_per_base_name (env : Env) (glob_txt glob_md : list string)
    (history : list Event) :
  exists kept,
    unique_loop env (glob_txt ++ glob_md)%list [] [] history
    = (Returned (map (chosen env history) kept), history)
    /\ incl kept (glob_txt ++ glob_md)%list
    /\ NoDup (map base_of kept)
    /\ (forall f, In f (glob_txt ++ glob_md)%list ->
                  In (base_of f) (map base_of kept))
    /\ List.length kept <= List.length (glob_txt ++ glob_md)%list.
Proof.
  destruct (unique_loop_spec env (glob_txt ++ glob_md)%list [] [] history)
    as (kept & R & I & N & S & C).
  exists kept. split; [exact R|]. split; [exact I|]. split; [exact N|].
  split.
  - intros f Hf. destruct (C f Hf) as [[]|H]. exact H.
  - assert (L : List.length (map base_of kept)
                <= List.length (map base_of (glob_txt ++ glob_md)%list)).
    { apply NoDup_incl_length; [exact N|].
      intros b Hb. apply in_map_iff in Hb. destruct Hb as (x & <- & Hx).
      apply in_map. now apply I. }
    now rewrite !length_map in L.
Qed.

(** ** Reading the files *)

Lemma printed_app (h1 h2 : list Event) :
  printed (h1 ++ h2) = (printed h1 ++ printed h2)%list.
Proof. unfold printed. apply flat_map_app. Qed.

Lemma set_last_snoc (l : list TranscriptRecord) (t : TranscriptRecord)
    (v : Vec) :
  set_last_embedding (l ++ [t]) v = (l ++ [with_embedding t v])%list.
Proof.
  induction l as [|x l IH]; [reflexivity|].
  cbn [app set_last_embedding]. rewrite IH.
  destruct (l ++ [t])%list eqn:E; [|reflexivity].
  now destruct l.
Qed.

(** What one file adds: a record, or an error line, or both when the
    embedding could not be made. *)
Lemma index_one_run (env : Env) (encode_raises : string -> option string)
    (emb : bool) (f : string) (h : list Event)
    (ts : list TranscriptRecord) :
  exists new added,
    index_one env encode_raises emb f (h, ts)
    = (Returned tt, ((h ++ added)%list, (ts ++ new)%list))
    /\ List.length new <= 1
    /\ List.length (printed added) <= 1
    /\ 1 <= List.length new + List.length (printed added)
    /\ (if emb
        then List.length (filter lacks_embedding new) + 1
             = List.length new + List.length (printed added)
        else List.length new + List.length (printed added) = 1)
    /\ ((forall text, encode_raises text = None) ->
        List.length new + List.length (printed added) = 1)
    /\ (forall r, In r new ->
                  file_path r = f
                  /\ (embedding r <> None -> emb = true)
                  /\ ((forall text, encode_raises text = None) ->
                      emb = true -> embedding r <> None)).
Proof.
  unfold index_one, Eff.try_except, Eff.bind at 1, io at 1,
    Batch.read_file, IO.perform. cbn [fst snd].
  destruct (env_read env h f) as [content|e].
  - unfold Eff.bind at 1, append_transcript, Eff.modify. cbn [fst snd].
    destruct emb.
    + unfold Eff.bind, Eff.lift, encode, set_embedding, Eff.modify.
      destruct (encode_raises (full_text (_parse_transcript content f)))
        as [e|] eqn:R; cbn [fst snd].
      * exists [_parse_transcript content f],
          [ReadFile f; Print ("Error indexing " ++ f ++ ": " ++ e)].
        unfold io, IO.print, IO.perform. cbn [fst snd].
        split; [now rewrite <- app_assoc|].
        split; [cbn; lia|]. split; [cbn; lia|]. split; [cbn; lia|].
        split; [reflexivity|]. split.
        { intros H. rewrite H in R. discriminate R. }
        intros r [<-|[]]. split; [reflexivity|]. split; [reflexivity|].
        intros H. rewrite H in R. discriminate R.
      * exists [with_embedding (_parse_transcript content f)
                  (env_encode env
                     (full_text (_parse_transcript content f)))],
          [ReadFile f].
        rewrite set_last_snoc.
        split; [reflexivity|].
        split; [cbn; lia|]. split; [cbn; lia|]. split; [cbn; lia|].
        split; [reflexivity|]. split; [reflexivity|].
        intros r [<-|[]]. split; [reflexivity|]. split; [reflexivity|].
        intros _ _. discriminate.
    + exists [_parse_transcript content f], [ReadFile f].
      unfold Eff.ret. split; [reflexivity|].
      split; [cbn; lia|]. split; [cbn; lia|]. split; [cbn; lia|].
      split; [reflexivity|]. split; [reflexivity|].
      intros r [<-|[]]. split; [reflexivity|].
      split; [|discriminate]. intros H. now contradiction H.
  - exists [], [ReadFile f; Print ("Error indexing " ++ f ++ ": " ++ e)].
    unfold io, IO.print, IO.perform. cbn [fst snd].
    rewrite app_nil_r. split; [now rewrite <- app_assoc|].
    split; [cbn; lia|]. split; [cbn; lia|]. split; [cbn; lia|].
    split; [destruct emb; reflexivity|]. split; [reflexivity|].
    intros r [].
Qed.

Lemma index_loop_run (env : Env) (encode_raises : string -> option string)
    (emb : bool) (files : list string) :
  forall (h : list Event) (ts : list TranscriptRecord),
  exists new added,
    index_loop env encode_raises emb files (h, ts)
    = (Returned tt, ((h ++ added)%list, (ts ++ new)%list))
    /\ List.length new <= List.length files
    /\ List.length (printed added) <= List.length files
    /\ List.length files <= List.length new + List.length (printed added)
    /\ (if emb
        then List.length (filter lacks_embedding new) + List.length files
             = List.length new + List.length (printed added)
        else List.length new + List.length (printed added)
             = List.length files)
    /\ ((forall text, encode_raises text = None) ->
        List.length new + List.length (printed added) = List.length files)
    /\ (forall r, In r new ->
                  In (file_path r) files
                  /\ (embedding r <> None -> emb = true)
                  /\ ((forall text, encode_raises text = None) ->
                      emb = true -> embedding r <> None)).
Proof.
  unfold index_loop.
  induction files as [|f files IH]; intros h ts.
  - exists [], []. cbn [Eff.for_each]. unfold Eff.ret.
    rewrite !app_nil_r. split; [reflexivity|].
    split; [cbn; lia|]. split; [cbn; lia|]. split; [cbn; lia|].
    split; [destruct emb; reflexivity|]. split; [reflexivity|].
    intros r [].
  - cbn [Eff.for_each]. unfold Eff.bind at 1.
    destruct (index_one_run env encode_raises emb f h ts)
      as (n1 & a1 & E1 & A1 & B1 & C1 & D1 & F1 & G1).
    rewrite E1.
    destruct (IH (h ++ a1)%list (ts ++ n1)%list)
      as (n2 & a2 & E2 & A2 & B2 & C2 & D2 & F2 & G2).
    rewrite E2. exists (n1 ++ n2)%list, (a1 ++ a2)%list.
    rewrite !app_assoc. split; [reflexivity|].
    rewrite printed_app, filter_app, !length_app. cbn [List.length].
    split; [lia|]. split; [lia|]. split; [lia|]. split.
    { destruct emb; lia. }
    split.
    { intros H. specialize (F1 H). specialize (F2 H). lia. }
    intros r Hr. apply in_app_or in Hr. destruct Hr as [Hr|Hr].
    + destruct (G1 r Hr) as (P & Q & R). split; [left; now rewrite P|].
      split; assumption.
    + destruct (G2 r Hr) as (P & Q & R). split; [now right|].
      split; assumption.
Qed.

(** X23.  [index_transcripts] never raises.  When the folder does not
    exist it leaves the engine without transcripts and prints nothing.
    Otherwise every file handed on by the removal of duplicates gives a
    record, or a printed error line, or both: a file that cannot be
    read gives the line alone, and a file whose embedding cannot be made
    gives the line and a record without embedding, since the record is
    appended before the embedding is asked for.  So with the embedding
    model the records without embedding are as many as the files that
    gave both.  The last line printed tells the number of records; a
    record holds an embedding only if the engine has the embedding
    model; and when [encode] never raises every file gives exactly one
    of the two and, with the model, every record holds an embedding. *)
Theorem index_transcripts_counts (env : Env)
    (encode_raises : string -> option string)
    (self : TranscriptSearchEngine)
    (output_folder : string) (glob_txt glob_md : list string)
    (history : list Event) :
  exists engine added,
    index_transcripts env encode_raises self output_folder glob_txt glob_md
      history
    = (Returned engine, (history ++ added)%list)
    /\ llm_processor engine = llm_processor self
    /\ embeddings_available engine = embeddings_available self
    /\ (forall r, In r (transcripts engine) ->
                  embedding r <> None -> embeddings_available self = true)
    /\ (env_exists env history output_folder = false ->
        transcripts engine = [] /\ added = [])
    /\ (env_exists env history output_folder = true ->
        exists kept lines,
          unique_loop env (glob_txt ++ glob_md)%list [] [] history
          = (Returned kept, history)
          /\ printed added
             = (lines
                ++ [("Indexed "
                     ++ Batch.str_of_nat (List.length (transcripts engine))
                     ++ " transcripts")%string])%list
          /\ List.length (transcripts engine) <= List.length kept
          /\ List.length lines <= List.length kept
          /\ List.length kept
             <= List.length (transcripts engine) + List.length lines
          /\ (if embeddings_available self
              then List.length (filter lacks_embedding (transcripts engine))
                   + List.length kept
                   = List.length (transcripts engine) + List.length lines
              else List.length (transcripts engine) + List.length lines
                   = List.length kept)
          /\ (forall r, In r (transcripts engine) -> In (file_path r) kept)
          /\ ((forall text, encode_raises text = None) ->
              List.length (transcripts engine) + List.length lines
              = List.length kept
              /\ (embeddings_available self = true ->
                  forall r, In r (transcripts engine) ->
                            embedding r <> None))).
Proof.
  unfold index_transcripts, index_body.
  unfold Eff.bind at 1, Eff.modify at 1. cbn [fst snd].
  unfold Eff.bind at 1, io at 1, IO.path_exists at 1. cbn [fst snd].
  destruct (env_exists env history output_folder) eqn:X; cbn [negb].
  - destruct (unique_loop_spec env (glob_txt ++ glob_md)%list [] [] history)
      as (kept & R & _).
    cbn [app] in R. unfold Eff.bind at 1, io at 1. cbn [fst snd].
    rewrite R.
    destruct (index_loop_run env encode_raises (embeddings_available self)
                (map (chosen env history) kept) history [])
      as (new & added & L & A & B & C & D & F & G).
    unfold Eff.bind at 1. rewrite L. cbn [app fst snd].
    unfold io, IO.print, IO.perform. cbn [fst snd].
    eexists. eexists. split; [rewrite <- app_assoc; reflexivity|].
    cbn [llm_processor embeddings_available transcripts].
    split; [reflexivity|]. split; [reflexivity|].
    split; [intros r Hr; now apply G|].
    split; [discriminate|]. intros _.
    exists (map (chosen env history) kept), (printed added).
    split; [reflexivity|]. split; [now rewrite printed_app|].
    split; [exact A|]. split; [exact B|]. split; [exact C|].
    split; [exact D|]. split; [intros r Hr; now apply G|].
    intros H. split; [now apply F|].
    intros E r Hr. now apply G.
  - unfold Eff.ret. exists (mkEngine (llm_processor self) []
                              (embeddings_available self)), [].
    rewrite app_nil_r. split; [reflexivity|].
    cbn [llm_processor embeddings_available transcripts].
    split; [reflexivity|]. split; [reflexivity|].
    split; [intros r []|]. split; [now split | discriminate].
Qed.

(** Two files that can be read, with the embedding model, the
    embedding of the second text failing: two records, the second
    without embedding, and one error line before the count. *)
Lemma index_transcripts_counts_witness :
  let env :=
    mkEnv (fun _ p => (p =? "out")%string)
          (fun _ p _ _ => Returned p)
          (fun _ p _ _ => Returned (p, "preview", "en"))
          (fun _ _ => Returned "1.0 KB")
          (fun _ p => if (p =? "out/a_transcript.txt")%string
                      then Returned ("FULL TRANSCRIPT:" ++ String nl "alpha")
                      else Returned ("FULL TRANSCRIPT:" ++ String nl "beta"))
          (fun _ _ _ => Returned tt)
          (fun _ _ _ => Returned None)
          (fun _ => "now") (fun _ => [1%Q]) (fun _ _ => 0%Q) in
  let encode_raises :=
    fun text => if (text =? "beta")%string then Some "out of memory"
                else None in
  let self := mkEngine None [] true in
  let run := index_transcripts env encode_raises self "out"
               ["out/a_transcript.txt"; "out/b_transcript.txt"] [] [] in
  (exists engine,
     fst run = Returned engine
     /\ map full_text (transcripts engine) = ["alpha"; "beta"]
     /\ map embedding (transcripts engine) = [Some [1%Q]; None])
  /\ printed (snd run)
     = ["Error indexing out/b_transcript.txt: out of memory";
        "Indexed 2 transcripts"]
  /\ exists engine added,
       run = (Returned engine, added)
       /\ embeddings_available engine = true.
Proof.
  intros env encode_raises self run.
  split; [eexists; split; [vm_compute; reflexivity|]; split; reflexivity|].
  split; [vm_compute; reflexivity|].
  destruct (index_transcripts_counts env encode_raises self "out"
              ["out/a_transcript.txt"; "out/b_transcript.txt"] [] [])
    as (engine & added & E & _ & A & _).
  exists engine, added. split; [exact E | exact A].
Defined.

End IndexerFacts.

(* ================================================================== *)
(** * The Markdown transcript under the parser *)

Module MarkdownFacts.
Import PyStr Aligner Search TranscriptFormatter FormatterMd.

Lemma find_language_unknown (lines : list string) :
  Forall (fun l => startswith l "Detected Language:" = false) lines ->
  find_language lines = "unknown".
Proof.
  induction 1 as [|l lines H _ IH]; [reflexivity|].
  cbn [find_language]. now rewrite H.
Qed.

Lemma headed_line (c : ascii) (s : string) :
  Ascii.eqb c "["%char = false -> Ascii.eqb c "D"%char = false ->
  one_line (String c s) ->
  Forall (fun l => line_segment l = []
                   /\ startswith l "Detected Language:" = false)
         (split nl (String c s)).
Proof.
  intros Hb Hd Hl. rewrite (ParserFacts.split_one_line _ Hl).
  constructor; [|constructor]. split.
  - now apply ParserFacts.line_segment_other.
  - unfold startswith. cbn [String.prefix].
    destruct (ascii_dec "D" c) as [<-|]; [discriminate Hd | reflexivity].
Qed.

Lemma empty_line :
  Forall (fun l => line_segment l = []
                   /\ startswith l "Detected Language:" = false)
         (split nl EmptyString).
Proof. repeat constructor. Qed.

Lemma one_line_app (a b : string) :
  one_line a -> one_line b -> one_line (a ++ b).
Proof.
  unfold one_line. intros A B. now rewrite StrFacts.all_chars_append, A, B.
Qed.

Lemma block_lines (arrow : string) (segs : list AlignedSegment) :
  one_line arrow ->
  Forall (fun g => one_line (start g) /\ one_line (end_ g)
                   /\ one_line (speaker g) /\ one_line (text g)) segs ->
  Forall (fun l => line_segment l = []
                   /\ startswith l "Detected Language:" = false)
         (flat_map (split nl) (flat_map (segment_block arrow) segs)).
Proof.
  intros Ha. induction 1 as [|g segs (S & E & P & T) _ IH]; [constructor|].
  cbn [flat_map segment_block app].
  apply Forall_app. split.
  { change ("### " ++ start g ++ " " ++ arrow ++ " " ++ end_ g)
      with (String "#" ("## " ++ start g ++ " " ++ arrow ++ " " ++ end_ g)).
    apply headed_line; try reflexivity.
    change (one_line ("### " ++ start g ++ " " ++ arrow ++ " " ++ end_ g)).
    repeat apply one_line_app; auto; reflexivity. }
  apply Forall_app. split.
  { change ("**" ++ speaker g ++ ":** " ++ text g)
      with (String "*" ("*" ++ speaker g ++ ":** " ++ text g)).
    apply headed_line; try reflexivity.
    change (one_line ("**" ++ speaker g ++ ":** " ++ text g)).
    repeat apply one_line_app; auto; reflexivity. }
  apply Forall_app. split; [apply empty_line | exact IH].
Qed.

(** X24.  A Markdown transcript written by [format_md] from values
    that hold no line break, with a full text that brings no line of the
    segment shape and no language line, and in which the marker
    FULL TRANSCRIPT: does not occur, is read by the parser as an empty
    record: the language is unknown, there is no segment, and the full
    text is empty.  So a transcript that exists only in Markdown is
    indexed with nothing to search in. *)
Theorem markdown_transcript_reads_empty
    (arrow generated video_filename lang duration : string)
    (segs : list AlignedSegment) (body file_path : string) :
  one_line arrow -> one_line generated -> one_line video_filename ->
  one_line lang -> one_line duration ->
  Forall (fun g => one_line (start g) /\ one_line (end_ g)
                   /\ one_line (speaker g) /\ one_line (text g)) segs ->
  Forall (fun l => line_segment l = []
                   /\ startswith l "Detected Language:" = false)
         (split nl body) ->
  contains "FULL TRANSCRIPT:"
    (format_md arrow generated video_filename lang duration segs body)
  = false ->
  let r := _parse_transcript
             (format_md arrow generated video_filename lang duration segs
                body) file_path in
  language r = "unknown" /\ segments r = [] /\ full_text r = EmptyString.
Proof.
  intros Ha Hg Hv Hl Hd Hs Hb Hc r.
  assert (L : Forall (fun l => line_segment l = []
                               /\ startswith l "Detected Language:" = false)
                (split nl (format_md arrow generated video_filename lang
                             duration segs body))).
  { unfold format_md.
    rewrite ParserFacts.split_join by (unfold md_header; discriminate).
    rewrite !flat_map_app. apply Forall_app. split.
    { unfold md_header. cbn [flat_map].
      apply Forall_app. split.
      { change ("# Transcript: " ++ video_filename)
          with (String "#" (" Transcript: " ++ video_filename)).
        apply headed_line; try reflexivity.
        change (one_line ("# Transcript: " ++ video_filename)).
        repeat apply one_line_app; auto; reflexivity. }
      apply Forall_app. split; [apply empty_line|].
      apply Forall_app. split.
      { change ("**Language:** " ++ lang ++ "  ")
          with (String "*" ("*Language:** " ++ lang ++ "  ")).
        apply headed_line; try reflexivity.
        change (one_line ("**Language:** " ++ lang ++ "  ")).
        repeat apply one_line_app; auto; reflexivity. }
      apply Forall_app. split.
      { change ("**Duration:** " ++ duration ++ "  ")
          with (String "*" ("*Duration:** " ++ duration ++ "  ")).
        apply headed_line; try reflexivity.
        change (one_line ("**Duration:** " ++ duration ++ "  ")).
        repeat apply one_line_app; auto; reflexivity. }
      apply Forall_app. split.
      { change ("**Generated:** " ++ generated)
          with (String "*" ("*Generated:** " ++ generated)).
        apply headed_line; try reflexivity.
        change (one_line ("**Generated:** " ++ generated)).
        repeat apply one_line_app; auto; reflexivity. }
      apply Forall_app. split; [apply empty_line|].
      apply Forall_app. split; [apply headed_line; reflexivity|].
      apply Forall_app. split; [apply empty_line|].
      apply Forall_app. split; [apply headed_line; reflexivity|].
      apply Forall_app. split; [apply empty_line | constructor]. }
    apply Forall_app. split; [now apply block_lines|].
    unfold md_footer. cbn [flat_map].
    apply Forall_app. split; [apply headed_line; reflexivity|].
    apply Forall_app. split; [apply empty_line|].
    apply Forall_app. split; [apply headed_line; reflexivity|].
    apply Forall_app. split; [apply empty_line|].
    apply Forall_app. split; [exact Hb | constructor]. }
  assert (S0 : flat_map line_segment
                 (split nl (format_md arrow generated video_filename lang
                              duration segs body)) = []).
  { apply ParserFacts.flat_map_none.
    eapply Forall_impl; [|exact L]. now intros l [A _]. }
  unfold r, _parse_transcript. cbn [language segments full_text].
  rewrite ParserFacts.parse_fold_spec by reflexivity.
  cbn [st_segments st_full_text parse_init app].
  rewrite S0, Hc. cbn [andb map]. split; [|split; reflexivity].
  apply find_language_unknown.
  eapply Forall_impl; [|exact L]. now intros l [_ B].
Qed.

Lemma markdown_transcript_reads_empty_witness :
  let content :=
    format_md "->" "2024-01-01 00:00:00" "a.mp4" "en" "00:00:09"
      [mkAligned "00:00:00" "00:00:04" "SPEAKER_00" "good day"]
      "good day" in
  contains "good day" content = true
  /\ full_text (_parse_transcript content "out/a_transcript.md")
     = EmptyString.
Proof.
  intros content. split; [vm_compute; reflexivity|].
  refine (proj2 (proj2 (markdown_transcript_reads_empty "->"
            "2024-01-01 00:00:00" "a.mp4" "en" "00:00:09"
            [mkAligned "00:00:00" "00:00:04" "SPEAKER_00" "good day"]
            "good day" "out/a_transcript.md" _ _ _ _ _ _ _ _)));
    try reflexivity.
  - repeat constructor.
  - repeat constructor.
Defined.

End MarkdownFacts.

(* ================================================================== *)
(** * Loading the Whisper model *)

Module LoaderFacts.
Import PyStr Loader.

(** X25.  [load_whisper_model] tries the preferred device first: CUDA,
    else MPS, else the CPU.  It loads once, or twice when the first
    load failed on a device that is not the CPU, the second load being
    on the CPU.  An exception that leaves it was raised by a load on the
    CPU; so when loading on the CPU works, a model is returned whatever
    the other device does. *)
Theorem load_falls_back_to_cpu {Model : Type} (mc : Machine Model)
    (model_size : string) (history : list LoadAct) :
  let device := preferred_device mc in
  let run := load_whisper_model mc model_size history in
  (exists loads,
      snd run = (history ++ Tell (loading_line model_size) :: loads)%list
      /\ (loads = [LoadModel model_size device]
          \/ (device <> "cpu"
              /\ (exists e h, load_model mc h model_size device = Raised e)
              /\ loads = [LoadModel model_size device;
                          LoadModel model_size "cpu"])))
  /\ (forall e, fst run = Raised e ->
                exists h, load_model mc h model_size "cpu" = Raised e)
  /\ ((forall h, exists m, load_model mc h model_size "cpu" = Returned m) ->
      exists m, fst run = Returned m).
Proof.
  intros device run. unfold run, load_whisper_model, Eff.bind, Eff.modify,
    Eff.try_except, load, Eff.lift.
  fold device.
  destruct (load_model mc (history ++ [Tell (loading_line model_size)])
              model_size device) as [m0|e0] eqn:L1.
  - cbn [fst snd]. split; [|split].
    + exists [LoadModel model_size device]. split; [|now left].
      now rewrite <- app_assoc.
    + discriminate.
    + intros _. now exists m0.
  - destruct (String.eqb_spec device "cpu") as [E|N]; cbn [negb fst snd].
    + split; [|split].
      * exists [LoadModel model_size device]. split; [|now left].
        now rewrite <- app_assoc.
      * intros e H. injection H as <-. rewrite E in L1. eauto.
      * intros Hm. rewrite E in L1.
        destruct (Hm (history ++ [Tell (loading_line model_size)])%list)
          as [m Em].
        rewrite Em in L1. discriminate L1.
    + split; [|split].
      * exists [LoadModel model_size device; LoadModel model_size "cpu"].
        split; [now rewrite <- !app_assoc|]. right.
        split; [exact N|]. split; [eauto | reflexivity].
      * intros e H. eauto.
      * intros Hm. apply Hm.
Qed.

End LoaderFacts.

(* ================================================================== *)
(** * Clearing the caches *)

Module ModelCacheFacts.
Import PyStr ModelCache.

Lemma lookup_In (d : list (string * string)) (key v : string) :
  lookup d key = Some v -> In (key, v) d.
Proof.
  induction d as [|[k x] d IH]; [discriminate|]. cbn [lookup].
  destruct (String.eqb_spec k key) as [->|N].
  - intros H. injection H as ->. now left.
  - intros H. right. now apply IH.
Qed.

(** X26.  Asked to clear one type, [clear_cache] answers that the
    cache was cleared only when the type is one of the four it knows
    and the directory of that type existed; the directory has then been
    removed and made again, and nothing else was touched.  For one of
    the four types whose directory does not exist it touches nothing and
    answers that the model type is unknown. *)
Theorem clear_cache_replies (disk : Disk) (self : ModelConfig)
    (model_type : string) (history : list CacheAct) :
  model_type <> EmptyString ->
  let run := clear_cache disk self (Some model_type) history in
  (fst run = Returned ("Cleared " ++ model_type ++ " cache") ->
   exists path,
     In (model_type, path) (paths_to_clear self)
     /\ d_exists disk history path = true
     /\ snd run = (history ++ [Rmtree path; Mkdir path])%list)
  /\ (forall path,
        lookup (paths_to_clear self) model_type = Some path ->
        d_exists disk history path = false ->
        run = (Returned ("Unknown model type: " ++ model_type), history)).
Proof.
  intros N run. apply StrFacts.is_empty_false in N.
  unfold run, clear_cache. rewrite N.
  destruct (lookup (paths_to_clear self) model_type) as [path|] eqn:L.
  - unfold Eff.bind, path_exists, rmtree, mkdir, Eff.ret.
    destruct (d_exists disk history path) eqn:X.
    + split.
      * destruct (d_rmtree disk history path) as [[]|e]; [|discriminate].
        destruct (d_mkdir disk (history ++ [Rmtree path]) path) as [[]|e];
          [|discriminate].
        cbn [fst snd]. intros _. exists path.
        split; [now apply lookup_In|]. split; [exact X|].
        now rewrite <- app_assoc.
      * intros p Hp Hx. injection Hp as <-. congruence.
    + split; [discriminate|]. intros p _ _. reflexivity.
  - split; [discriminate | discriminate].
Qed.

Lemma clear_cache_replies_witness :
  let disk := mkDisk (fun _ _ => false) (fun _ _ => Returned tt)
                     (fun _ _ => Returned tt) in
  let self := mkConfig "c/whisper" "c/torch/pyannote"
                       "c/sentence_transformers" "c/ollama/models" in
  clear_cache disk self (Some "whisper") []
  = (Returned "Unknown model type: whisper", []).
Proof.
  intros disk self.
  apply (proj2 (clear_cache_replies disk self "whisper" []
                  ltac:(discriminate)) "c/whisper"); reflexivity.
Defined.

Lemma clear_all_spec (disk : Disk) (items : list (string * string)) :
  forall history, exists added,
    snd (clear_all disk items history) = (history ++ added)%list
    /\ Forall (fun act => In (act_path act) (map snd items)) added
    /\ (forall p, In (Mkdir p) added -> In (Rmtree p) added).
Proof.
  induction items as [|[name path] items IH]; intros history.
  - exists []. cbn. rewrite app_nil_r. split; [reflexivity|].
    split; [constructor | intros p []].
  - cbn [clear_all map snd]. unfold Eff.bind at 1. unfold path_exists at 1.
    unfold Eff.bind at 1.
    destruct (d_exists disk history path).
    + unfold Eff.bind at 1, rmtree at 1.
      destruct (d_rmtree disk history path) as [[]|e].
      * unfold mkdir.
        destruct (d_mkdir disk (history ++ [Rmtree path]) path) as [[]|e].
        -- destruct (IH ((history ++ [Rmtree path]) ++ [Mkdir path])%list)
             as (added & E & F & K).
           exists (Rmtree path :: Mkdir path :: added). rewrite E.
           split; [now rewrite <- !app_assoc|]. split.
           ++ constructor; [now left|]. constructor; [now left|].
              eapply Forall_impl; [|exact F]. intros a Ha. now right.
           ++ intros p [H|[H|H]]; [discriminate H | |].
              ** injection H as <-. now left.
              ** right. right. now apply K.
        -- exists [Rmtree path; Mkdir path]. cbn [snd].
           split; [now rewrite <- !app_assoc|]. split.
           ++ constructor; [now left|]. constructor; [now left|].
              constructor.
           ++ intros p [H|[H|[]]]; [discriminate H|].
              injection H as <-. now left.
      * exists [Rmtree path]. cbn [snd]. split; [reflexivity|]. split.
        -- constructor; [now left | constructor].
        -- intros p [H|[]]. discriminate H.
    + unfold Eff.ret at 1.
      destruct (IH history) as (added & E & F & K).
      exists added. rewrite E. split; [reflexivity|]. split; [|exact K].
      eapply Forall_impl; [|exact F]. intros a Ha. now right.
Qed.

(** X27.  Whatever it is asked and whatever the disk does, [clear_cache]
    removes and makes directories among the four of the configuration
    only, and it makes no directory that it has not removed before. *)
Theorem clear_cache_stays_in_its_directories (disk : Disk)
    (self : ModelConfig) (model_type : option string)
    (history : list CacheAct) :
  exists added,
    snd (clear_cache disk self model_type history) = (history ++ added)%list
    /\ Forall (fun act =>
                 In (act_path act)
                    [whisper_path self; pyannote_path self;
                     sentence_transformers_path self; ollama_path self])
              added
    /\ (forall p, In (Mkdir p) added -> In (Rmtree p) added).
Proof.
  assert (A : exists added,
             snd (Eff.bind (clear_all disk (paths_to_clear self))
                    (fun _ => Eff.ret "Cleared all model caches") history)
             = (history ++ added)%list
             /\ Forall (fun act =>
                          In (act_path act)
                             (map snd (paths_to_clear self))) added
             /\ (forall p, In (Mkdir p) added -> In (Rmtree p) added)).
  { destruct (clear_all_spec disk (paths_to_clear self) history)
      as (added & E & F & K).
    exists added. unfold Eff.bind.
    destruct (clear_all disk (paths_to_clear self) history) as [[u|e] h1];
      cbn [snd] in *; auto. }
  assert (Q : forall t, exists added,
             snd (Eff.ret ("Unknown model type: " ++ t) history
                  : outcome string * list CacheAct)
             = (history ++ added)%list
             /\ Forall (fun act =>
                          In (act_path act)
                             (map snd (paths_to_clear self))) added
             /\ (forall p, In (Mkdir p) added -> In (Rmtree p) added)).
  { intros t. exists []. cbn. rewrite app_nil_r.
    split; [reflexivity|]. split; [constructor | intros p []]. }
  change [whisper_path self; pyannote_path self;
          sentence_transformers_path self; ollama_path self]
    with (map snd (paths_to_clear self)).
  unfold clear_cache. destruct model_type as [t|]; [|exact A].
  destruct (is_empty t); [exact A|].
  destruct (lookup (paths_to_clear self) t) as [path|] eqn:L; [|apply Q].
  apply lookup_In in L.
  assert (P : In path (map snd (paths_to_clear self))).
  { apply in_map_iff. now exists (t, path). }
  unfold Eff.bind, path_exists, rmtree, mkdir.
  destruct (d_exists disk history path); [|apply Q].
  destruct (d_rmtree disk history path) as [[]|e].
  - exists [Rmtree path; Mkdir path].
    destruct (d_mkdir disk (history ++ [Rmtree path]) path) as [[]|e];
      cbn [snd]; (split; [now rewrite <- !app_assoc|]);
      (split; [constructor; [exact P|]; constructor; [exact P|]; constructor|]);
      intros p [H|[H|[]]]; try discriminate H; injection H as <-; now left.
  - exists [Rmtree path]. cbn [snd]. split; [reflexivity|].
    split; [constructor; [exact P | constructor]|].
    intros p [H|[]]. discriminate H.
Qed.

End ModelCacheFacts.

(* ================================================================== *)
(** * From the name of the audio to the name in the search results *)

Module NamingFacts.
Import PyStr PathStr Search.

Lemma after_last_append (a b : string) :
  contains "/" b = false ->
  after_last "/" (a ++ b)
  = match after_last "/" a with
    | Some r => Some (r ++ b)
    | None => None
    end.
Proof.
  intros Hb. induction a as [|c a IH].
  - cbn [append after_last]. now apply ReadBackFacts.after_last_none.
  - cbn [append after_last]. rewrite IH.
    destruct (after_last "/" a) as [r|]; [reflexivity|].
    cbn [String.prefix]. destruct (ascii_dec "/" c); [|reflexivity].
    rewrite !StrFacts.prefix_nil. reflexivity.
Qed.

Lemma after_last_slash_end (a : string) :
  a <> EmptyString ->
  match get (String.length a - 1) a with
  | Some c => c
  | None => "/"%char
  end = "/"%char ->
  after_last "/" a = Some EmptyString.
Proof.
  induction a as [|c a IH]; [congruence|]. intros _ H.
  destruct a as [|d a].
  - cbn in H. subst c. reflexivity.
  - assert (IH' : after_last "/" (String d a) = Some EmptyString).
    { apply IH; [discriminate|].
      cbn [String.length Nat.sub] in *. rewrite Nat.sub_0_r in *.
      exact H. }
    change (after_last "/" (String c (String d a)))
      with (match after_last "/" (String d a) with
            | Some r => Some r
            | None => if String.prefix "/" (String c (String d a))
                      then Some (drop 1 (String c (String d a)))
                      else None
            end).
    now rewrite IH'.
Qed.

(** The last component of a joined path is the name that was joined. *)
Lemma path_join_name (folder name : string) :
  contains "/" name = false ->
  Batch.basename (Batch.path_join folder name) = name.
Proof.
  intros Hn. unfold Batch.basename, Batch.path_join.
  assert (P : String.prefix "/" name = false).
  { destruct name as [|c s]; [reflexivity|].
    cbn [contains] in Hn. apply orb_false_iff in Hn. tauto. }
  rewrite P.
  destruct (is_empty folder) eqn:E.
  { now rewrite (ReadBackFacts.after_last_none _ _ Hn). }
  apply StrFacts.is_empty_false in E.
  destruct (Ascii.eqb _ _) eqn:L.
  - apply Ascii.eqb_eq in L.
    rewrite (after_last_append folder name Hn).
    now rewrite (after_last_slash_end folder E L).
  - rewrite <- StrFacts.append_assoc.
    rewrite (after_last_append (folder ++ "/") name Hn).
    rewrite (ReadBackFacts.after_last_skip "/" folder "/" EmptyString);
      reflexivity.
Qed.

Lemma rsplit_dot_txt (b : string) :
  rsplit_dot (b ++ ".txt") = Some (b, "txt").
Proof.
  induction b as [|a b IH]; [reflexivity|].
  cbn [append rsplit_dot]. now rewrite IH.
Qed.

(** No end of the marker is a start of it. *)
Lemma marker_has_no_border (p1 p2 : string) :
  "_transcript" = p1 ++ p2 -> p1 <> EmptyString -> p2 <> EmptyString ->
  String.prefix p2 "_transcript" = false.
Proof.
  intros E N1 N2.
  destruct p1 as [|a p1]; [congruence|].
  destruct p2 as [|c p2]; [congruence|].
  cbn [append] in E. injection E as <- E.
  cbn [String.prefix]. destruct (ascii_dec c "_") as [->|]; [|reflexivity].
  exfalso.
  assert (A : all_chars (fun x => negb (Ascii.eqb x "_")) "transcript"
              = true) by reflexivity.
  rewrite E, StrFacts.all_chars_append in A.
  cbn [all_chars] in A. rewrite Ascii.eqb_refl in A. cbn [negb andb] in A.
  now rewrite andb_false_r in A.
Qed.

Lemma prefix_append_cases (p s t : string) :
  String.prefix p (s ++ t) = true ->
  String.prefix p s = true
  \/ exists p2, p = s ++ p2 /\ p2 <> EmptyString
                /\ String.prefix p2 t = true.
Proof.
  revert s. induction p as [|a p IH]; intros s H.
  - left. now destruct s.
  - destruct s as [|b s].
    + right. exists (String a p). cbn [append] in *. split; [reflexivity|].
      split; [discriminate | exact H].
    + cbn [append String.prefix] in *.
      destruct (ascii_dec a b) as [->|]; [|discriminate].
      destruct (IH s H) as [L|(p2 & E & N & P)]; [now left|].
      right. exists p2. rewrite E. auto.
Qed.

Lemma remove_marker_end (stem : string) :
  contains "_transcript" stem = false ->
  remove_all "_transcript" (stem ++ "_transcript") = stem.
Proof.
  unfold remove_all. induction stem as [|a x IH]; [reflexivity|].
  intros H. cbn [contains] in H. apply orb_false_iff in H.
  destruct H as [P C].
  assert (Q : String.prefix "_transcript" (String a x ++ "_transcript")
              = false).
  { destruct (String.prefix "_transcript" (String a x ++ "_transcript"))
      eqn:E; [|reflexivity].
    destruct (prefix_append_cases _ _ _ E) as [L|(p2 & Ep & N & L)];
      [congruence|].
    rewrite (marker_has_no_border (String a x) p2 Ep ltac:(discriminate) N)
      in L. discriminate L. }
  cbn [append remove_all_from]. cbn [append] in Q. rewrite Q.
  now rewrite (IH C).
Qed.

(** X28.  The transcript of an audio is written to the file named
    after the audio with _transcript.txt added.  Whatever that file
    holds, the record the search engine makes of it bears the name of
    the audio again, as long as that name holds no slash and not the
    word _transcript itself: the results of a search name the audio the
    text comes from. *)
Theorem indexed_name_is_audio_name (stem output_folder content : string) :
  contains "/" stem = false ->
  contains "_transcript" stem = false ->
  file_name (_parse_transcript content
               (Batch.path_join output_folder (stem ++ "_transcript.txt")))
  = stem.
Proof.
  intros Hs Ht. unfold _parse_transcript. cbn [file_name].
  unfold path_stem.
  assert (N : contains "/" (stem ++ "_transcript.txt") = false).
  { clear Ht. induction stem as [|a x IH]; [reflexivity|].
    cbn [contains] in Hs. apply orb_false_iff in Hs. destruct Hs as [P C].
    cbn [append contains]. rewrite (IH C), orb_false_r.
    cbn [String.prefix] in *. destruct (ascii_dec "/" a); [|reflexivity].
    destruct x; discriminate P. }
  pose proof (path_join_name output_folder _ N) as B.
  unfold Batch.basename in B. rewrite B.
  change (stem ++ "_transcript.txt") with (stem ++ "_transcript" ++ ".txt").
  rewrite <- StrFacts.append_assoc, rsplit_dot_txt.
  replace (is_empty (stem ++ "_transcript")) with false.
  - cbn [orb is_empty]. now apply remove_marker_end.
  - symmetry. apply StrFacts.is_empty_false. intros E.
    apply StrFacts.append_eq_nil in E. destruct E as [_ E]. discriminate E.
Qed.

Lemma indexed_name_is_audio_name_witness :
  Studio.transcript_stem "in/my_talk.mp3" = "my_talk"
  /\ file_name (_parse_transcript "anything"
                  (Batch.path_join "out"
                     (Studio.transcript_stem "in/my_talk.mp3"
                      ++ "_transcript.txt")))
     = "my_talk".
Proof.
  split; [vm_compute; reflexivity|].
  change (Studio.transcript_stem "in/my_talk.mp3") with "my_talk".
  apply (indexed_name_is_audio_name "my_talk" "out" "anything");
    reflexivity.
Defined.

End NamingFacts.

(* ================================================================== *)
(** * Is the model there *)

Module VerifyModelFacts.
Import PyStr PathStr VerifyModel.







End VerifyModelFacts.
